(** * Chart Arcade: the turn engine and the indicator library

    A shallow embedding of [src/stores/gameStore.ts] (the zustand game
    store: loadStock, switchStock, skip, buy, sell, calculateOutcome,
    recordTurnOutcome) and of [src/utils/indicators.ts] (SMA, EMA,
    Bollinger bands, RSI, VWAP), together with the properties the
    specification states about them.

    Conventions of the embedding
    - A JavaScript [number] that carries a price, a cash amount, a share
      quantity, a percentage or a volume is an IEEE 754 binary64 value:
      Rocq's primitive [float], whose operations are the hardware ones.
    - A JavaScript [number] that is a counter, an array index, a period or
      a millisecond timestamp is a [Z].
    - [null] and [undefined] are [None]; reading a property of [undefined]
      raises a TypeError, which the embedding makes explicit.
    - The store is threaded through a small state-and-exception monad; the
      wall clock read by [Date.now()] is an oracle carried by the world. *)

From Stdlib Require Import ZArith List String Bool Lia Floats Uint63 DecimalString.
Import ListNotations.
Open Scope Z_scope.
Set Warnings "-inexact-float".

(** ** JavaScript numbers *)

Definition num := float.
Bind Scope float_scope with num.

Definition NaN : num := PrimFloat.nan.

(** An integer-valued JavaScript number used in floating-point arithmetic
    (a period dividing a sum).  Exact below 2^53. *)
Definition num_of_Z (z : Z) : num :=
  if z <? 0 then (- PrimFloat.of_uint63 (Uint63.of_Z (- z)))%float
  else PrimFloat.of_uint63 (Uint63.of_Z z).


(** [a[i]] on a JavaScript array: [undefined] outside [0 .. length-1]. *)
Definition at_index {A : Type} (l : list A) (i : Z) : option A :=
  if i <? 0 then None else nth_error l (Z.to_nat i).

Definition len {A : Type} (l : list A) : Z := Z.of_nat (List.length l).

(** [Array.prototype.map] with the index passed to the callback. *)
Fixpoint mapi_from {A B : Type} (f : A -> Z -> B) (i : Z) (l : list A) : list B :=
  match l with
  | [] => []
  | x :: r => f x i :: mapi_from f (i + 1) r
  end.

Definition mapi {A B : Type} (f : A -> Z -> B) (l : list A) : list B :=
  mapi_from f 0 l.

(** The indices visited by [for (let i = lo; i < hi; i++)]. *)
Definition zrange (lo hi : Z) : list Z :=
  map (fun k => lo + Z.of_nat k) (seq 0 (Z.to_nat (hi - lo))).

(** ** Data model ([src/types/index.ts]) *)

Module OHLCVBar.
Record t := mk {
  time : string;
  open : num;
  high : num;
  low : num;
  close : num;
  volume : num
}.
End OHLCVBar.

Module StockData.
Record t := mk {
  ticker : string;
  name : option string;
  sector : option string;
  bars : list OHLCVBar.t
}.
End StockData.

Module StockMetadata.
Record t := mk {
  ticker : string;
  name : option string;
  sector : option string;
  startDate : string;
  endDate : string;
  barCount : Z
}.
End StockMetadata.

Inductive ActionType := Skip | Buy | Sell.

Inductive Direction := Up | Down | Flat.

Inductive TradeType := TradeBuy | TradeSell.

Definition Direction_eqb (a b : Direction) : bool :=
  match a, b with
  | Up, Up | Down, Down | Flat, Flat => true
  | _, _ => false
  end.

Module Position.
Record t := mk {
  shares : num;
  averageCost : num;
  entryBarIndex : Z
}.
End Position.

Module Trade.
Record t := mk {
  type : TradeType;
  barIndex : Z;
  price : num;
  shares : num;
  timestamp : Z
}.
End Trade.

Module HoldingPeriod.
Record t := mk {
  entryBarIndex : Z;
  exitBarIndex : option Z;
  entryPrice : num;
  exitPrice : option num
}.
End HoldingPeriod.

Module TurnOutcome.
Record t := mk {
  turnNumber : Z;
  barIndex : Z;
  action : ActionType;
  positionBeforeAction : option Position.t;
  positionAfterAction : option Position.t;
  inferredPrediction : Direction;
  actualDirection : Direction;
  isWin : option bool;
  priceAtAction : num;
  priceNextBar : num
}.

(** [{ ...outcome, action: a }] *)
Definition with_action (a : ActionType) (o : t) : t :=
  mk (turnNumber o) (barIndex o) a (positionBeforeAction o)
     (positionAfterAction o) (inferredPrediction o) (actualDirection o)
     (isWin o) (priceAtAction o) (priceNextBar o).
End TurnOutcome.

Module SessionStats.
Record t := mk {
  totalTurns : Z;
  totalTrades : Z;
  wins : Z;
  losses : Z;
  flats : Z;
  currentStreak : Z;
  bestStreak : Z;
  worstStreak : Z;
  chartsViewed : Z;
  decisionTimes : list Z
}.

Definition with_totalTurns (v : Z) (s : t) : t :=
  mk v (totalTrades s) (wins s) (losses s) (flats s) (currentStreak s)
     (bestStreak s) (worstStreak s) (chartsViewed s) (decisionTimes s).
Definition with_totalTrades (v : Z) (s : t) : t :=
  mk (totalTurns s) v (wins s) (losses s) (flats s) (currentStreak s)
     (bestStreak s) (worstStreak s) (chartsViewed s) (decisionTimes s).
Definition with_wins (v : Z) (s : t) : t :=
  mk (totalTurns s) (totalTrades s) v (losses s) (flats s) (currentStreak s)
     (bestStreak s) (worstStreak s) (chartsViewed s) (decisionTimes s).
Definition with_losses (v : Z) (s : t) : t :=
  mk (totalTurns s) (totalTrades s) (wins s) v (flats s) (currentStreak s)
     (bestStreak s) (worstStreak s) (chartsViewed s) (decisionTimes s).
Definition with_flats (v : Z) (s : t) : t :=
  mk (totalTurns s) (totalTrades s) (wins s) (losses s) v (currentStreak s)
     (bestStreak s) (worstStreak s) (chartsViewed s) (decisionTimes s).
Definition with_currentStreak (v : Z) (s : t) : t :=
  mk (totalTurns s) (totalTrades s) (wins s) (losses s) (flats s) v
     (bestStreak s) (worstStreak s) (chartsViewed s) (decisionTimes s).
Definition with_bestStreak (v : Z) (s : t) : t :=
  mk (totalTurns s) (totalTrades s) (wins s) (losses s) (flats s)
     (currentStreak s) v (worstStreak s) (chartsViewed s) (decisionTimes s).
Definition with_worstStreak (v : Z) (s : t) : t :=
  mk (totalTurns s) (totalTrades s) (wins s) (losses s) (flats s)
     (currentStreak s) (bestStreak s) v (chartsViewed s) (decisionTimes s).
Definition with_chartsViewed (v : Z) (s : t) : t :=
  mk (totalTurns s) (totalTrades s) (wins s) (losses s) (flats s)
     (currentStreak s) (bestStreak s) (worstStreak s) v (decisionTimes s).
Definition with_decisionTimes (v : list Z) (s : t) : t :=
  mk (totalTurns s) (totalTrades s) (wins s) (losses s) (flats s)
     (currentStreak s) (bestStreak s) (worstStreak s) (chartsViewed s) v.
End SessionStats.

Module GameState.
Record t := mk {
  currentStock : option StockData.t;
  currentBarIndex : Z;
  cash : num;
  position : option Position.t;
  trades : list Trade.t;
  holdingPeriods : list HoldingPeriod.t;
  turnOutcomes : list TurnOutcome.t;
  turnNumber : Z;
  turnStartTime : option Z;
  sessionStats : SessionStats.t;
  isLoading : bool;
  lastAction : option ActionType;
  lastOutcome : option TurnOutcome.t;
  showRevealCard : bool;
  revealedStock : option StockMetadata.t
}.

(** One setter per key: zustand's [set] merges a partial object into the
    state, so [set({ a: x, b: y })] is the composition of the setters of
    [a] and [b]. *)
Definition with_currentStock v (s : t) : t :=
  mk v (currentBarIndex s) (cash s) (position s) (trades s)
     (holdingPeriods s) (turnOutcomes s) (turnNumber s) (turnStartTime s)
     (sessionStats s) (isLoading s) (lastAction s) (lastOutcome s)
     (showRevealCard s) (revealedStock s).
Definition with_currentBarIndex v (s : t) : t :=
  mk (currentStock s) v (cash s) (position s) (trades s)
     (holdingPeriods s) (turnOutcomes s) (turnNumber s) (turnStartTime s)
     (sessionStats s) (isLoading s) (lastAction s) (lastOutcome s)
     (showRevealCard s) (revealedStock s).
Definition with_cash v (s : t) : t :=
  mk (currentStock s) (currentBarIndex s) v (position s) (trades s)
     (holdingPeriods s) (turnOutcomes s) (turnNumber s) (turnStartTime s)
     (sessionStats s) (isLoading s) (lastAction s) (lastOutcome s)
     (showRevealCard s) (revealedStock s).
Definition with_position v (s : t) : t :=
  mk (currentStock s) (currentBarIndex s) (cash s) v (trades s)
     (holdingPeriods s) (turnOutcomes s) (turnNumber s) (turnStartTime s)
     (sessionStats s) (isLoading s) (lastAction s) (lastOutcome s)
     (showRevealCard s) (revealedStock s).
Definition with_trades v (s : t) : t :=
  mk (currentStock s) (currentBarIndex s) (cash s) (position s) v
     (holdingPeriods s) (turnOutcomes s) (turnNumber s) (turnStartTime s)
     (sessionStats s) (isLoading s) (lastAction s) (lastOutcome s)
     (showRevealCard s) (revealedStock s).
Definition with_holdingPeriods v (s : t) : t :=
  mk (currentStock s) (currentBarIndex s) (cash s) (position s) (trades s)
     v (turnOutcomes s) (turnNumber s) (turnStartTime s)
     (sessionStats s) (isLoading s) (lastAction s) (lastOutcome s)
     (showRevealCard s) (revealedStock s).
Definition with_turnOutcomes v (s : t) : t :=
  mk (currentStock s) (currentBarIndex s) (cash s) (position s) (trades s)
     (holdingPeriods s) v (turnNumber s) (turnStartTime s)
     (sessionStats s) (isLoading s) (lastAction s) (lastOutcome s)
     (showRevealCard s) (revealedStock s).
Definition with_turnNumber v (s : t) : t :=
  mk (currentStock s) (currentBarIndex s) (cash s) (position s) (trades s)
     (holdingPeriods s) (turnOutcomes s) v (turnStartTime s)
     (sessionStats s) (isLoading s) (lastAction s) (lastOutcome s)
     (showRevealCard s) (revealedStock s).
Definition with_turnStartTime v (s : t) : t :=
  mk (currentStock s) (currentBarIndex s) (cash s) (position s) (trades s)
     (holdingPeriods s) (turnOutcomes s) (turnNumber s) v
     (sessionStats s) (isLoading s) (lastAction s) (lastOutcome s)
     (showRevealCard s) (revealedStock s).
Definition with_sessionStats v (s : t) : t :=
  mk (currentStock s) (currentBarIndex s) (cash s) (position s) (trades s)
     (holdingPeriods s) (turnOutcomes s) (turnNumber s) (turnStartTime s)
     v (isLoading s) (lastAction s) (lastOutcome s)
     (showRevealCard s) (revealedStock s).
Definition with_lastAction v (s : t) : t :=
  mk (currentStock s) (currentBarIndex s) (cash s) (position s) (trades s)
     (holdingPeriods s) (turnOutcomes s) (turnNumber s) (turnStartTime s)
     (sessionStats s) (isLoading s) v (lastOutcome s)
     (showRevealCard s) (revealedStock s).
Definition with_lastOutcome v (s : t) : t :=
  mk (currentStock s) (currentBarIndex s) (cash s) (position s) (trades s)
     (holdingPeriods s) (turnOutcomes s) (turnNumber s) (turnStartTime s)
     (sessionStats s) (isLoading s) (lastAction s) v
     (showRevealCard s) (revealedStock s).
Definition with_showRevealCard v (s : t) : t :=
  mk (currentStock s) (currentBarIndex s) (cash s) (position s) (trades s)
     (holdingPeriods s) (turnOutcomes s) (turnNumber s) (turnStartTime s)
     (sessionStats s) (isLoading s) (lastAction s) (lastOutcome s)
     v (revealedStock s).
Definition with_revealedStock v (s : t) : t :=
  mk (currentStock s) (currentBarIndex s) (cash s) (position s) (trades s)
     (holdingPeriods s) (turnOutcomes s) (turnNumber s) (turnStartTime s)
     (sessionStats s) (isLoading s) (lastAction s) (lastOutcome s)
     (showRevealCard s) v.
End GameState.

Module LineData.
Record t := mk {
  time : string;
  value : num
}.
End LineData.

(** ** The store monad

    The zustand store is one mutable cell read with [get()] and written
    with [set(...)].  A computation either completes with a value or is
    aborted by an uncaught TypeError; in both cases the writes made so far
    stay in the store.  [Date.now()] consumes one reading of the clock. *)

Record World := mkWorld {
  store : GameState.t;
  clock : nat -> Z;
  reads : nat
}.

Inductive Res (A : Type) : Type :=
| Ok (a : A) (w : World)
| Throw (w : World).
Arguments Ok {A} a w.
Arguments Throw {A} w.

Definition M (A : Type) : Type := World -> Res A.

Definition ret {A : Type} (a : A) : M A := fun w => Ok a w.

Definition bind {A B : Type} (c : M A) (k : A -> M B) : M B :=
  fun w => match c w with
           | Ok a w' => k a w'
           | Throw w' => Throw w'
           end.

Declare Scope store_scope.
Delimit Scope store_scope with store.
Notation "x <- c ;; k" := (bind c (fun x => k))
  (at level 61, c at next level, right associativity) : store_scope.
Notation "c ;; k" := (bind c (fun _ => k))
  (at level 61, right associativity) : store_scope.
Open Scope store_scope.

Definition get : M GameState.t := fun w => Ok (store w) w.

Definition set (f : GameState.t -> GameState.t) : M unit :=
  fun w => Ok tt (mkWorld (f (store w)) (clock w) (reads w)).

Definition dateNow : M Z :=
  fun w => Ok (clock w (reads w)) (mkWorld (store w) (clock w) (S (reads w))).

Definition throwTypeError {A : Type} : M A := fun w => Throw w.

(** Property access on a possibly-[undefined] array element. *)
Definition defined {A : Type} (o : option A) : M A :=
  match o with
  | Some a => ret a
  | None => throwTypeError
  end.

(** ** The turn engine ([src/stores/gameStore.ts]) *)

Definition INITIAL_CASH : num := 10000%float.

Definition EPSILON : num := 0.0005%float.

Definition initialSessionStats : SessionStats.t :=
  SessionStats.mk 0 0 0 0 0 0 0 0 0 [].

Definition initialState : GameState.t :=
  GameState.mk None 0 INITIAL_CASH None [] [] [] 0 None
    initialSessionStats false None None false None.

Definition getDirection (currentClose nextClose : num) : Direction :=
  let change := ((nextClose - currentClose) / currentClose)%float in
  if (EPSILON <? change)%float then Up
  else if (change <? - EPSILON)%float then Down
  else Flat.

Definition inferPrediction (position : option Position.t) : Direction :=
  match position with
  | Some p => if (0 <? Position.shares p)%float then Up else Down
  | None => Down
  end.

Definition loadStock (stock : StockData.t) (startIndex : Z) : M unit :=
  now <- dateNow ;;
  s0 <- get ;;
  set (fun s =>
    GameState.with_currentStock (Some stock)
    (GameState.with_currentBarIndex startIndex
    (GameState.with_position None
    (GameState.with_trades []
    (GameState.with_holdingPeriods []
    (GameState.with_turnOutcomes []
    (GameState.with_turnNumber 0
    (GameState.with_turnStartTime (Some now)
    (GameState.with_lastAction None
    (GameState.with_lastOutcome None
    (GameState.with_showRevealCard false
    (GameState.with_revealedStock None
    (GameState.with_sessionStats
       (SessionStats.with_chartsViewed
          (SessionStats.chartsViewed (GameState.sessionStats s0) + 1)
          (GameState.sessionStats s0))
     s))))))))))))).

(** The callback of [holdingPeriods.map]: close the last period when it is
    still open. *)
Definition closeLast (hps : list HoldingPeriod.t) (barIndex : Z) (price : num)
  : list HoldingPeriod.t :=
  mapi (fun hp idx =>
          if (idx =? len hps - 1) &&
             (match HoldingPeriod.exitBarIndex hp with None => true | Some _ => false end)
          then HoldingPeriod.mk (HoldingPeriod.entryBarIndex hp) (Some barIndex)
                                (HoldingPeriod.entryPrice hp) (Some price)
          else hp) hps.

Definition revealOf (stock : StockData.t) : M StockMetadata.t :=
  first <- defined (at_index (StockData.bars stock) 0) ;;
  last <- defined (at_index (StockData.bars stock) (len (StockData.bars stock) - 1)) ;;
  ret (StockMetadata.mk (StockData.ticker stock) (StockData.name stock)
         (StockData.sector stock) (OHLCVBar.time first) (OHLCVBar.time last)
         (len (StockData.bars stock))).

Definition holdsShares (position : option Position.t) : option Position.t :=
  match position with
  | Some p => if (0 <? Position.shares p)%float then Some p else None
  | None => None
  end.

Definition switchStock : M unit :=
  state <- get ;;
  match holdsShares (GameState.position state), GameState.currentStock state with
  | Some position, Some stock =>
      currentBar <- defined (at_index (StockData.bars stock)
                               (GameState.currentBarIndex state)) ;;
      let sellPrice := OHLCVBar.close currentBar in
      now <- dateNow ;;
      let trade := Trade.mk TradeSell (GameState.currentBarIndex state) sellPrice
                     (Position.shares position) now in
      let updatedHoldingPeriods :=
        closeLast (GameState.holdingPeriods state)
                  (GameState.currentBarIndex state) sellPrice in
      revealedStock <- revealOf stock ;;
      set (fun s =>
        GameState.with_cash
          (GameState.cash state + Position.shares position * sellPrice)%float
        (GameState.with_position None
        (GameState.with_trades (GameState.trades state ++ [trade])
        (GameState.with_holdingPeriods updatedHoldingPeriods
        (GameState.with_showRevealCard true
        (GameState.with_revealedStock (Some revealedStock)
        (GameState.with_sessionStats
           (SessionStats.with_totalTrades
              (SessionStats.totalTrades (GameState.sessionStats state) + 1)
              (GameState.sessionStats state))
         s)))))))
  | _, Some stock =>
      revealedStock <- revealOf stock ;;
      set (fun s =>
        GameState.with_showRevealCard true
        (GameState.with_revealedStock (Some revealedStock) s))
  | _, None => ret tt
  end.

(** The bar index and the turn number are integer-valued numbers, kept in
    [Z]; the two increments are the binary64 ones as long as the values stay
    within 2^53 in magnitude. *)
Definition advanceBar : M unit :=
  set (fun state =>
    GameState.with_currentBarIndex (GameState.currentBarIndex state + 1)
    (GameState.with_turnNumber (GameState.turnNumber state + 1) state)).

Definition calculateOutcome : M (option TurnOutcome.t) :=
  state <- get ;;
  match GameState.currentStock state with
  | None => ret None
  | Some stock =>
      let currentBar := at_index (StockData.bars stock) (GameState.currentBarIndex state) in
      let nextBar := at_index (StockData.bars stock) (GameState.currentBarIndex state + 1) in
      match nextBar with
      | None => ret None
      | Some nextBar =>
          currentBar <- defined currentBar ;;
          let direction := getDirection (OHLCVBar.close currentBar) (OHLCVBar.close nextBar) in
          let prediction := inferPrediction (GameState.position state) in
          let isWin :=
            match direction with
            | Flat => None
            | _ => Some (Direction_eqb prediction direction)
            end in
          ret (Some (TurnOutcome.mk
                       (GameState.turnNumber state)
                       (GameState.currentBarIndex state)
                       (match GameState.lastAction state with
                        | Some a => a
                        | None => Skip
                        end)
                       (GameState.position state)
                       (GameState.position state)
                       prediction
                       direction
                       isWin
                       (OHLCVBar.close currentBar)
                       (OHLCVBar.close nextBar)))
      end
  end.

(** The streak bookkeeping of [recordTurnOutcome], on the copied stats. *)
Definition recordStats (isWin : option bool) (stats : SessionStats.t) : SessionStats.t :=
  match isWin with
  | Some true =>
      let stats := SessionStats.with_wins (SessionStats.wins stats + 1) stats in
      let stats := SessionStats.with_currentStreak
                     (if 0 <? SessionStats.currentStreak stats
                      then SessionStats.currentStreak stats + 1 else 1) stats in
      SessionStats.with_bestStreak
        (Z.max (SessionStats.bestStreak stats) (SessionStats.currentStreak stats)) stats
  | Some false =>
      let stats := SessionStats.with_losses (SessionStats.losses stats + 1) stats in
      let stats := SessionStats.with_currentStreak
                     (if SessionStats.currentStreak stats <? 0
                      then SessionStats.currentStreak stats - 1 else -1) stats in
      SessionStats.with_worstStreak
        (Z.min (SessionStats.worstStreak stats) (SessionStats.currentStreak stats)) stats
  | None =>
      SessionStats.with_flats (SessionStats.flats stats + 1) stats
  end.

Definition recordTurnOutcome (outcome : TurnOutcome.t) : M unit :=
  set (fun state =>
    GameState.with_turnOutcomes (GameState.turnOutcomes state ++ [outcome])
    (GameState.with_lastOutcome (Some outcome)
    (GameState.with_sessionStats
       (recordStats (TurnOutcome.isWin outcome) (GameState.sessionStats state))
     state))).

(** [state.turnStartTime ? Date.now() - state.turnStartTime : 0]: the clock
    is read only when the start time is truthy (neither [null] nor [0]). *)
Definition decisionTimeOf (state : GameState.t) : M Z :=
  match GameState.turnStartTime state with
  | Some t => if t =? 0 then ret 0 else (now <- dateNow ;; ret (now - t))
  | None => ret 0
  end.

Definition skip : M unit :=
  state <- get ;;
  match GameState.currentStock state with
  | None => ret tt
  | Some _ =>
      decisionTime <- decisionTimeOf state ;;
      set (GameState.with_lastAction (Some Skip)) ;;
      outcome <- calculateOutcome ;;
      advanceBar ;;
      match outcome with
      | Some outcome => recordTurnOutcome (TurnOutcome.with_action Skip outcome)
      | None => ret tt
      end ;;
      now <- dateNow ;;
      set (fun s =>
        GameState.with_sessionStats
          (SessionStats.with_totalTurns
             (SessionStats.totalTurns (GameState.sessionStats s) + 1)
          (SessionStats.with_decisionTimes
             (SessionStats.decisionTimes (GameState.sessionStats s) ++ [decisionTime])
             (GameState.sessionStats s)))
        (GameState.with_turnStartTime (Some now) s))
  end.

Definition buy (percentage : num) : M unit :=
  state <- get ;;
  match GameState.currentStock state with
  | None => ret tt
  | Some stock =>
    if (percentage <=? 0)%float || (100 <? percentage)%float then ret tt
    else if (GameState.cash state <=? 0)%float then ret tt
    else
      currentBar <- defined (at_index (StockData.bars stock)
                               (GameState.currentBarIndex state)) ;;
      let price := OHLCVBar.close currentBar in
      let amountToSpend := (GameState.cash state * (percentage / 100))%float in
      let sharesToBuy := (amountToSpend / price)%float in
      decisionTime <- decisionTimeOf state ;;
      now <- dateNow ;;
      let trade := Trade.mk TradeBuy (GameState.currentBarIndex state) price
                     sharesToBuy now in
      let existingShares :=
        match GameState.position state with
        | Some p => Position.shares p
        | None => 0%float
        end in
      let existingCost :=
        match GameState.position state with
        | Some p => Position.averageCost p
        | None => 0%float
        end in
      let newShares := (existingShares + sharesToBuy)%float in
      let newAverageCost :=
        ((existingShares * existingCost + sharesToBuy * price) / newShares)%float in
      let newPosition :=
        Position.mk newShares newAverageCost
          (match GameState.position state with
           | Some p => Position.entryBarIndex p
           | None => GameState.currentBarIndex state
           end) in
      let holdingPeriods :=
        if (match GameState.position state with
            | None => true
            | Some p => (Position.shares p =? 0)%float
            end)
        then GameState.holdingPeriods state ++
             [HoldingPeriod.mk (GameState.currentBarIndex state) None price None]
        else GameState.holdingPeriods state in
      set (fun s =>
        GameState.with_cash (GameState.cash state - amountToSpend)%float
        (GameState.with_position (Some newPosition)
        (GameState.with_trades (GameState.trades state ++ [trade])
        (GameState.with_holdingPeriods holdingPeriods
        (GameState.with_lastAction (Some Buy) s))))) ;;
      outcome <- calculateOutcome ;;
      advanceBar ;;
      match outcome with
      | Some outcome => recordTurnOutcome (TurnOutcome.with_action Buy outcome)
      | None => ret tt
      end ;;
      now <- dateNow ;;
      set (fun s =>
        GameState.with_sessionStats
          (SessionStats.with_totalTurns
             (SessionStats.totalTurns (GameState.sessionStats s) + 1)
          (SessionStats.with_totalTrades
             (SessionStats.totalTrades (GameState.sessionStats s) + 1)
          (SessionStats.with_decisionTimes
             (SessionStats.decisionTimes (GameState.sessionStats s) ++ [decisionTime])
             (GameState.sessionStats s))))
        (GameState.with_turnStartTime (Some now) s))
  end.

Definition sell (percentage : num) : M unit :=
  state <- get ;;
  match GameState.currentStock state with
  | None => ret tt
  | Some stock =>
    if (percentage <=? 0)%float || (100 <? percentage)%float then ret tt
    else
      match GameState.position state with
      | None => ret tt
      | Some position =>
        if (Position.shares position <=? 0)%float then ret tt
        else
          currentBar <- defined (at_index (StockData.bars stock)
                                   (GameState.currentBarIndex state)) ;;
          let price := OHLCVBar.close currentBar in
          let sharesToSell := (Position.shares position * (percentage / 100))%float in
          let proceeds := (sharesToSell * price)%float in
          decisionTime <- decisionTimeOf state ;;
          now <- dateNow ;;
          let trade := Trade.mk TradeSell (GameState.currentBarIndex state) price
                         sharesToSell now in
          let remainingShares := (Position.shares position - sharesToSell)%float in
          let newPosition :=
            if (0.0001 <? remainingShares)%float
            then Some (Position.mk remainingShares (Position.averageCost position)
                                   (Position.entryBarIndex position))
            else None in
          let holdingPeriods :=
            match newPosition with
            | None => closeLast (GameState.holdingPeriods state)
                                (GameState.currentBarIndex state) price
            | Some _ => GameState.holdingPeriods state
            end in
          set (fun s =>
            GameState.with_cash (GameState.cash state + proceeds)%float
            (GameState.with_position newPosition
            (GameState.with_trades (GameState.trades state ++ [trade])
            (GameState.with_holdingPeriods holdingPeriods
            (GameState.with_lastAction (Some Sell) s))))) ;;
          outcome <- calculateOutcome ;;
          advanceBar ;;
          match outcome with
          | Some outcome => recordTurnOutcome (TurnOutcome.with_action Sell outcome)
          | None => ret tt
          end ;;
          now <- dateNow ;;
          set (fun s =>
            GameState.with_sessionStats
              (SessionStats.with_totalTurns
                 (SessionStats.totalTurns (GameState.sessionStats s) + 1)
              (SessionStats.with_totalTrades
                 (SessionStats.totalTrades (GameState.sessionStats s) + 1)
              (SessionStats.with_decisionTimes
                 (SessionStats.decisionTimes (GameState.sessionStats s) ++ [decisionTime])
                 (GameState.sessionStats s))))
            (GameState.with_turnStartTime (Some now) s))
      end
  end.

(** ** Player operations as data *)

Inductive Op :=
| OpLoad (stock : StockData.t) (startIndex : Z)
| OpSwitch
| OpSkip
| OpBuy (percentage : num)
| OpSell (percentage : num).

Definition exec (op : Op) : M unit :=
  match op with
  | OpLoad stock startIndex => loadStock stock startIndex
  | OpSwitch => switchStock
  | OpSkip => skip
  | OpBuy percentage => buy percentage
  | OpSell percentage => sell percentage
  end.

(** The argument guards at the head of [skip], [buy] and [sell]. *)
Definition guardFails (op : Op) (s : GameState.t) : Prop :=
  match op with
  | OpSkip => GameState.currentStock s = None
  | OpBuy percentage =>
      GameState.currentStock s = None \/
      (percentage <=? 0)%float = true \/
      (100 <? percentage)%float = true \/
      (GameState.cash s <=? 0)%float = true
  | OpSell percentage =>
      GameState.currentStock s = None \/
      (percentage <=? 0)%float = true \/
      (100 <? percentage)%float = true \/
      GameState.position s = None \/
      (exists p, GameState.position s = Some p /\
                 (Position.shares p <=? 0)%float = true)
  | _ => False
  end.

(** The block that [skip], [buy] and [sell] all end with: compute the
    outcome, advance the chart, record the outcome, update the counters.
    [countsTrade] tells whether [totalTrades] is incremented as well. *)
Definition finishTurn (action : ActionType) (countsTrade : bool)
  (decisionTime : Z) : M unit :=
  outcome <- calculateOutcome ;;
  advanceBar ;;
  match outcome with
  | Some outcome => recordTurnOutcome (TurnOutcome.with_action action outcome)
  | None => ret tt
  end ;;
  now <- dateNow ;;
  set (fun s =>
    GameState.with_sessionStats
      (SessionStats.with_totalTurns
         (SessionStats.totalTurns (GameState.sessionStats s) + 1)
      ((if countsTrade
        then SessionStats.with_totalTrades
               (SessionStats.totalTrades (GameState.sessionStats s) + 1)
        else fun st => st)
      (SessionStats.with_decisionTimes
         (SessionStats.decisionTimes (GameState.sessionStats s) ++ [decisionTime])
         (GameState.sessionStats s))))
    (GameState.with_turnStartTime (Some now) s)).

(** The store right after the first [set] of [buy]: the trade is booked,
    the turn not yet scored. *)
Definition buyTrade (percentage price : num) (now : Z) (state : GameState.t)
  : GameState.t :=
  let amountToSpend := (GameState.cash state * (percentage / 100))%float in
  let sharesToBuy := (amountToSpend / price)%float in
  let existingShares :=
    match GameState.position state with
    | Some p => Position.shares p
    | None => 0%float
    end in
  let existingCost :=
    match GameState.position state with
    | Some p => Position.averageCost p
    | None => 0%float
    end in
  let newShares := (existingShares + sharesToBuy)%float in
  GameState.with_cash (GameState.cash state - amountToSpend)%float
  (GameState.with_position
     (Some (Position.mk newShares
              ((existingShares * existingCost + sharesToBuy * price) / newShares)%float
              (match GameState.position state with
               | Some p => Position.entryBarIndex p
               | None => GameState.currentBarIndex state
               end)))
  (GameState.with_trades
     (GameState.trades state ++
        [Trade.mk TradeBuy (GameState.currentBarIndex state) price sharesToBuy now])
  (GameState.with_holdingPeriods
     (if (match GameState.position state with
          | None => true
          | Some p => (Position.shares p =? 0)%float
          end)
      then GameState.holdingPeriods state ++
           [HoldingPeriod.mk (GameState.currentBarIndex state) None price None]
      else GameState.holdingPeriods state)
  (GameState.with_lastAction (Some Buy) state)))).

(** The store right after the first [set] of [sell]. *)
Definition sellTrade (percentage price : num) (now : Z) (position : Position.t)
  (state : GameState.t) : GameState.t :=
  let sharesToSell := (Position.shares position * (percentage / 100))%float in
  let remainingShares := (Position.shares position - sharesToSell)%float in
  let newPosition :=
    if (0.0001 <? remainingShares)%float
    then Some (Position.mk remainingShares (Position.averageCost position)
                           (Position.entryBarIndex position))
    else None in
  GameState.with_cash (GameState.cash state + sharesToSell * price)%float
  (GameState.with_position newPosition
  (GameState.with_trades
     (GameState.trades state ++
        [Trade.mk TradeSell (GameState.currentBarIndex state) price sharesToSell now])
  (GameState.with_holdingPeriods
     (match newPosition with
      | None => closeLast (GameState.holdingPeriods state)
                          (GameState.currentBarIndex state) price
      | Some _ => GameState.holdingPeriods state
      end)
  (GameState.with_lastAction (Some Sell) state)))).

(** The store a computation leaves behind, whether it completed or threw. *)
Definition worldAfter {A : Type} (r : Res A) : World :=
  match r with
  | Ok _ w => w
  | Throw w => w
  end.

Definition completed {A : Type} (r : Res A) : bool :=
  match r with
  | Ok _ _ => true
  | Throw _ => false
  end.

(** What one turn leaves alone and what it advances. *)
Definition advanced (s s' : GameState.t) : Prop :=
  GameState.currentStock s' = GameState.currentStock s /\
  GameState.cash s' = GameState.cash s /\
  GameState.position s' = GameState.position s /\
  GameState.trades s' = GameState.trades s /\
  GameState.holdingPeriods s' = GameState.holdingPeriods s /\
  GameState.currentBarIndex s' = GameState.currentBarIndex s + 1 /\
  (GameState.turnOutcomes s' = GameState.turnOutcomes s \/
   exists o, GameState.turnOutcomes s' = GameState.turnOutcomes s ++ [o] /\
             TurnOutcome.inferredPrediction o = inferPrediction (GameState.position s)).


(** *** Holding-period pairing and reachability *)

Definition isOpen (hp : HoldingPeriod.t) : bool :=
  match HoldingPeriod.exitBarIndex hp with
  | None => true
  | Some _ => false
  end.

Definition openPeriods (hps : list HoldingPeriod.t) : list HoldingPeriod.t :=
  filter isOpen hps.

(** At most one holding period is open, and one is open exactly when a
    position is held. *)
Definition pairing (s : GameState.t) : Prop :=
  (List.length (openPeriods (GameState.holdingPeriods s)) <= 1)%nat /\
  (openPeriods (GameState.holdingPeriods s) <> [] <-> GameState.position s <> None).

(** The inductive form of the pairing: the open period, when there is one,
    is the last of the list. *)
Definition wellPaired (s : GameState.t) : Prop :=
  match GameState.position s with
  | None => openPeriods (GameState.holdingPeriods s) = []
  | Some _ =>
      exists closed hp,
        GameState.holdingPeriods s = closed ++ [hp] /\
        openPeriods closed = [] /\ isOpen hp = true
  end.

(** States reachable from a fresh store (whose session stats may have been
    rehydrated from persistence) by operations that [allowed] admits.  A
    step that throws still leaves its partial writes in the store. *)
Inductive reachable (allowed : Op -> GameState.t -> Prop) : World -> Prop :=
| reachable_init (stats : SessionStats.t) (clk : nat -> Z) (n : nat) :
    reachable allowed (mkWorld (GameState.with_sessionStats stats initialState) clk n)
| reachable_step (w : World) (op : Op) :
    reachable allowed w -> allowed op (store w) ->
    reachable allowed (worldAfter (exec op w)).

Definition anyOperation (op : Op) (s : GameState.t) : Prop := True.

(** No Buy is applied to a position object that holds exactly zero shares. *)
Definition noBuyOnZeroShares (op : Op) (s : GameState.t) : Prop :=
  match op with
  | OpBuy _ =>
      match GameState.position s with
      | Some p => (Position.shares p =? 0)%float = false
      | None => True
      end
  | _ => True
  end.

Definition isTurn (op : Op) : bool :=
  match op with
  | OpSkip | OpBuy _ | OpSell _ => true
  | _ => false
  end.

(** *** Sample worlds *)

Definition sampleStock : StockData.t :=
  StockData.mk "TEST" None None
    [OHLCVBar.mk "2024-01-02" 99 101 98 100 1000;
     OHLCVBar.mk "2024-01-03" 100 103 99 102 1200;
     OHLCVBar.mk "2024-01-04" 102 106 101 105 900;
     OHLCVBar.mk "2024-01-05" 105 107 103 104 1100]%float.

Definition sampleClock (n : nat) : Z := Z.of_nat n * 1500 + 1700000000000.

Definition freshWorld : World := mkWorld initialState sampleClock 0.

Definition loadedWorld : World :=
  worldAfter (exec (OpLoad sampleStock 0) freshWorld).

(** The smallest positive binary64 number, 2^-1074 (about 5e-324): a
    percentage that passes the guard [0 < percentage <= 100]. *)
Definition tinyPercentage : num := 0x1p-1074%float.

Definition boughtWorld : World := worldAfter (exec (OpBuy 50%float) loadedWorld).

(** Load, buy half, skip, sell everything. *)
Definition roundTripWorld : World :=
  worldAfter (exec (OpSell 100%float) (worldAfter (exec OpSkip boughtWorld))).

(** The outcome recorded by the Buy that leads to [boughtWorld]. *)
Definition boughtOutcome : TurnOutcome.t :=
  TurnOutcome.mk 0 0 Buy
    (Some (Position.mk 50%float 100%float 0))
    (Some (Position.mk 50%float 100%float 0))
    Up Up (Some true) 100%float 102%float.

(** Recording a run of outcomes, one [recordTurnOutcome] call each. *)
Fixpoint recordAll (outcomes : list TurnOutcome.t) : M unit :=
  match outcomes with
  | [] => ret tt
  | outcome :: rest => recordTurnOutcome outcome ;; recordAll rest
  end.

Definition statsAfter (r : Res unit) : SessionStats.t :=
  GameState.sessionStats (store (worldAfter r)).

Definition isWinning (o : TurnOutcome.t) : Prop := TurnOutcome.isWin o = Some true.

Definition isLosing (o : TurnOutcome.t) : Prop := TurnOutcome.isWin o = Some false.

(** An outcome with the given verdict (the other fields do not matter to
    the statistics). *)
Definition outcomeWith (isWin : option bool) : TurnOutcome.t :=
  TurnOutcome.mk 0 0 Skip None None Down Down isWin 100%float 100%float.

(** A world standing on the last bar of the sample instrument, and one
    standing past its end. *)
Definition lastBarWorld : World :=
  worldAfter (exec (OpLoad sampleStock 3) freshWorld).

Definition pastEndWorld : World :=
  worldAfter (exec (OpLoad sampleStock 10) freshWorld).

(** The instrument of the round-trip scenario: 200 bars, close 100 at bar
    60, 103 at bar 61, 105 at bar 62, and 100 elsewhere. *)
Definition scenarioClose (k : nat) : num :=
  match k with
  | 61%nat => 103%float
  | 62%nat => 105%float
  | _ => 100%float
  end.

Definition scenarioBar (k : nat) : OHLCVBar.t :=
  let c := scenarioClose k in
  OHLCVBar.mk (String.append "day-" (NilEmpty.string_of_uint (Nat.to_uint k)))
              c (c + 1)%float (c - 1)%float c 5000%float.

Definition scenarioStock : StockData.t :=
  StockData.mk "ANON" None None (map scenarioBar (seq 0 200)).

Close Scope store_scope.

(** ** The indicator library ([src/utils/indicators.ts])

    The indicator functions are pure.  They index the bar array directly,
    so a read past the end yields [undefined] and the property access on
    it aborts the call with a TypeError. *)

Inductive Completion (A : Type) : Type :=
| Normal (a : A)
| TypeError.
Arguments Normal {A} a.
Arguments TypeError {A}.

Definition andThen {A B : Type} (c : Completion A) (k : A -> Completion B)
  : Completion B :=
  match c with
  | Normal a => k a
  | TypeError => TypeError
  end.

Declare Scope js_scope.
Delimit Scope js_scope with js.
Notation "x <- c ;; k" := (andThen c (fun x => k))
  (at level 61, c at next level, right associativity) : js_scope.
Open Scope js_scope.

(** [bars[i]] followed by a property access. *)
Definition element {A : Type} (l : list A) (i : Z) : Completion A :=
  match at_index l i with
  | Some a => Normal a
  | None => TypeError
  end.

(** [xs[i]] used as an operand of [+]: [undefined] coerces to [NaN]. *)
Definition numberAt (l : list num) (i : Z) : num :=
  match at_index l i with
  | Some x => x
  | None => NaN
  end.

(** A [for] loop over the given indices whose body updates the loop
    state and may abort. *)
Fixpoint forEach {S : Type} (indices : list Z) (body : Z -> S -> Completion S)
  (s : S) : Completion S :=
  match indices with
  | [] => Normal s
  | i :: rest => s' <- body i s ;; forEach rest body s'
  end.

(** [for (let j = 0; j < period; j++) sum += bars[i - j].close] *)
Definition windowSum (bars : list OHLCVBar.t) (i period : Z) : Completion num :=
  forEach (zrange 0 period)
    (fun j sum => b <- element bars (i - j) ;;
                  Normal (sum + OHLCVBar.close b)%float)
    0%float.

Definition calculateSMA (bars : list OHLCVBar.t) (period : Z)
  : Completion (list LineData.t) :=
  forEach (zrange (period - 1) (len bars))
    (fun i result =>
       sum <- windowSum bars i period ;;
       bar <- element bars i ;;
       Normal (result ++ [LineData.mk (OHLCVBar.time bar)
                                      (sum / num_of_Z period)%float]))
    [].

Definition calculateEMA (bars : list OHLCVBar.t) (period : Z)
  : Completion (list LineData.t) :=
  let multiplier := (2 / (num_of_Z period + 1))%float in
  sum <- forEach (zrange 0 period)
           (fun i sum => b <- element bars i ;;
                         Normal (sum + OHLCVBar.close b)%float)
           0%float ;;
  let ema := (sum / num_of_Z period)%float in
  seedBar <- element bars (period - 1) ;;
  let result := [LineData.mk (OHLCVBar.time seedBar) ema] in
  final <- forEach (zrange period (len bars))
             (fun i st =>
                bar <- element bars i ;;
                let ema := ((OHLCVBar.close bar - fst st) * multiplier + fst st)%float in
                Normal (ema, snd st ++ [LineData.mk (OHLCVBar.time bar) ema]))
             (ema, result) ;;
  Normal (snd final).

Module BollingerBands.
Record t := mk {
  upper : list LineData.t;
  middle : list LineData.t;
  lower : list LineData.t
}.
End BollingerBands.

Section MathLibrary.

(** [Math.pow] and [Math.sqrt] are supplied by the JavaScript engine; their
    results are implementation-approximated, so they stay parameters. *)
Variable Math_pow : num -> num -> num.
Variable Math_sqrt : num -> num.

Definition calculateBollingerBands (bars : list OHLCVBar.t) (period : Z)
  (stdDevMultiplier : num) : Completion BollingerBands.t :=
  forEach (zrange (period - 1) (len bars))
    (fun i bands =>
       sum <- windowSum bars i period ;;
       let sma := (sum / num_of_Z period)%float in
       squaredDiffSum <-
         forEach (zrange 0 period)
           (fun j acc => b <- element bars (i - j) ;;
                         Normal (acc + Math_pow (OHLCVBar.close b - sma) 2)%float)
           0%float ;;
       let stdDev := Math_sqrt (squaredDiffSum / num_of_Z period)%float in
       bar <- element bars i ;;
       Normal (BollingerBands.mk
                 (BollingerBands.upper bands ++
                    [LineData.mk (OHLCVBar.time bar) (sma + stdDev * stdDevMultiplier)%float])
                 (BollingerBands.middle bands ++
                    [LineData.mk (OHLCVBar.time bar) sma])
                 (BollingerBands.lower bands ++
                    [LineData.mk (OHLCVBar.time bar) (sma - stdDev * stdDevMultiplier)%float])))
    (BollingerBands.mk [] [] []).

End MathLibrary.

(** The price changes split into gains and losses (first loop of
    [calculateRSI]). *)
Definition priceChanges (bars : list OHLCVBar.t) : Completion (list num * list num) :=
  forEach (zrange 1 (len bars))
    (fun i gl =>
       bar <- element bars i ;;
       prev <- element bars (i - 1) ;;
       let change := (OHLCVBar.close bar - OHLCVBar.close prev)%float in
       Normal (fst gl ++ [if (0 <? change)%float then change else 0%float],
               snd gl ++ [if (change <? 0)%float then (- change)%float else 0%float]))
    ([], []).

(** [100 - 100 / (1 + rs)] with [rs = avgLoss === 0 ? 100 : avgGain / avgLoss]. *)
Definition rsiValue (avgGain avgLoss : num) : num :=
  let rs := if (avgLoss =? 0)%float then 100%float else (avgGain / avgLoss)%float in
  (100 - 100 / (1 + rs))%float.

(** The seed averages: sums of the first [period] gains and losses, divided
    by [period]. *)
Definition seedAverages (gains losses : list num) (period : Z) : num * num :=
  let sums :=
    fold_left (fun acc i => ((fst acc + numberAt gains i)%float,
                             (snd acc + numberAt losses i)%float))
              (zrange 0 period) (0%float, 0%float) in
  ((fst sums / num_of_Z period)%float, (snd sums / num_of_Z period)%float).

(** Wilder smoothing of one average. *)
Definition smooth (avg : num) (period : Z) (x : num) : num :=
  ((avg * (num_of_Z period - 1) + x) / num_of_Z period)%float.

Module RsiPoint.
(** One emitted RSI point together with the averages it was computed from. *)
Record t := mk {
  avgGain : num;
  avgLoss : num;
  point : LineData.t
}.
End RsiPoint.

(** [calculateRSI], keeping next to every emitted point the pair of
    averages that produced it. *)
Definition rsiPoints (bars : list OHLCVBar.t) (period : Z)
  : Completion (list RsiPoint.t) :=
  gl <- priceChanges bars ;;
  let gains := fst gl in
  let losses := snd gl in
  let avg := seedAverages gains losses period in
  first <- element bars period ;;
  let result :=
    [RsiPoint.mk (fst avg) (snd avg)
       (LineData.mk (OHLCVBar.time first) (rsiValue (fst avg) (snd avg)))] in
  final <- forEach (zrange period (len gains))
             (fun i st =>
                let avgGain := smooth (fst (fst st)) period (numberAt gains i) in
                let avgLoss := smooth (snd (fst st)) period (numberAt losses i) in
                bar <- element bars (i + 1) ;;
                Normal ((avgGain, avgLoss),
                        snd st ++ [RsiPoint.mk avgGain avgLoss
                                     (LineData.mk (OHLCVBar.time bar)
                                                  (rsiValue avgGain avgLoss))]))
             (avg, result) ;;
  Normal (snd final).

Definition calculateRSI (bars : list OHLCVBar.t) (period : Z)
  : Completion (list LineData.t) :=
  pts <- rsiPoints bars period ;;
  Normal (map RsiPoint.point pts).

Definition typicalPrice (bar : OHLCVBar.t) : num :=
  ((OHLCVBar.high bar + OHLCVBar.low bar + OHLCVBar.close bar) / 3)%float.

Module Vwap.
(** The loop state of [calculateVWAP]. *)
Record t := mk {
  cumulativeTPV : num;
  cumulativeVolume : num;
  result : list LineData.t
}.
End Vwap.

Definition vwapStep (st : Vwap.t) (bar : OHLCVBar.t) : Vwap.t :=
  let cumulativeTPV := (Vwap.cumulativeTPV st + typicalPrice bar * OHLCVBar.volume bar)%float in
  let cumulativeVolume := (Vwap.cumulativeVolume st + OHLCVBar.volume bar)%float in
  Vwap.mk cumulativeTPV cumulativeVolume
    (Vwap.result st ++
       [LineData.mk (OHLCVBar.time bar)
          (if (0 <? cumulativeVolume)%float
           then (cumulativeTPV / cumulativeVolume)%float
           else typicalPrice bar)]).

Definition calculateVWAP (bars : list OHLCVBar.t) : list LineData.t :=
  Vwap.result (fold_left vwapStep bars (Vwap.mk 0%float 0%float [])).



(** *** Alignment of an output series with the bars *)

Definition timeAt (bars : list OHLCVBar.t) (i : Z) : string :=
  match at_index bars i with
  | Some b => OHLCVBar.time b
  | None => EmptyString
  end.

(** [out] holds exactly one point per bar index [first], [first+1], ...,
    [length-1], in that order: its [k]-th point carries the time of bar
    [first + k], and there is no point for a bar before [first]. *)
Definition alignedFrom (first : Z) (bars : list OHLCVBar.t) (out : list LineData.t)
  : Prop :=
  len out = Z.max 0 (len bars - first) /\
  forall k, 0 <= k < len out ->
    exists d b, at_index out k = Some d /\
                at_index bars (first + k) = Some b /\
                LineData.time d = OHLCVBar.time b.

(** ** Sample data *)

Definition bar (time : string) (close : num) : OHLCVBar.t :=
  OHLCVBar.mk time close close close close 1000%float.

Definition rising3 : list OHLCVBar.t :=
  [bar "d0" 1%float; bar "d1" 2%float; bar "d2" 3%float].

Definition oneBar : list OHLCVBar.t := [bar "d0" 1%float].

(** The value [calculateRSI] emits whenever the average loss is zero. *)
Definition rsiAtZeroLoss : num := (100 - 100 / (1 + 100))%float.

(** Stand-ins for the engine's [Math.pow] and [Math.sqrt]. *)
Definition samplePow (x y : num) : num := (x * x)%float.

Definition sampleSqrt (x : num) : num := PrimFloat.sqrt x.


(** * Further properties of the store and of the indicators *)

(** ** What a turn leaves in the store *)

(** The record [calculateOutcome] builds from the store and the two bars it
    compares. *)
Definition outcomeOf (state : GameState.t) (currentBar nextBar : OHLCVBar.t)
  : TurnOutcome.t :=
  let direction := getDirection (OHLCVBar.close currentBar) (OHLCVBar.close nextBar) in
  let prediction := inferPrediction (GameState.position state) in
  TurnOutcome.mk
    (GameState.turnNumber state)
    (GameState.currentBarIndex state)
    (match GameState.lastAction state with
     | Some a => a
     | None => Skip
     end)
    (GameState.position state)
    (GameState.position state)
    prediction
    direction
    (match direction with
     | Flat => None
     | _ => Some (Direction_eqb prediction direction)
     end)
    (OHLCVBar.close currentBar)
    (OHLCVBar.close nextBar).

(** [outcome] is what [calculateOutcome] returns on [state] when it does not
    throw: nothing without an instrument or without a next bar, otherwise the
    record for the current and the next bar. *)
Definition outcomeFor (state : GameState.t) (outcome : option TurnOutcome.t) : Prop :=
  match GameState.currentStock state with
  | None => outcome = None
  | Some stock =>
      match at_index (StockData.bars stock) (GameState.currentBarIndex state + 1) with
      | None => outcome = None
      | Some nextBar =>
          exists currentBar,
            at_index (StockData.bars stock) (GameState.currentBarIndex state)
              = Some currentBar /\
            outcome = Some (outcomeOf state currentBar nextBar)
      end
  end.

(** The store at the end of the block shared by [skip], [buy] and [sell],
    given the outcome computed at its start and the clock reading of its last
    [set]. *)
Definition turnScored (action : ActionType) (countsTrade : bool)
  (decisionTime now : Z) (outcome : option TurnOutcome.t) (state : GameState.t)
  : GameState.t :=
  let advancedState :=
    GameState.with_currentBarIndex (GameState.currentBarIndex state + 1)
    (GameState.with_turnNumber (GameState.turnNumber state + 1) state) in
  let recorded :=
    match outcome with
    | Some outcome =>
        let outcome := TurnOutcome.with_action action outcome in
        GameState.with_turnOutcomes (GameState.turnOutcomes advancedState ++ [outcome])
        (GameState.with_lastOutcome (Some outcome)
        (GameState.with_sessionStats
           (recordStats (TurnOutcome.isWin outcome) (GameState.sessionStats advancedState))
         advancedState))
    | None => advancedState
    end in
  GameState.with_sessionStats
    (SessionStats.with_totalTurns
       (SessionStats.totalTurns (GameState.sessionStats recorded) + 1)
    ((if countsTrade
      then SessionStats.with_totalTrades
             (SessionStats.totalTrades (GameState.sessionStats recorded) + 1)
      else fun st => st)
    (SessionStats.with_decisionTimes
       (SessionStats.decisionTimes (GameState.sessionStats recorded) ++ [decisionTime])
       (GameState.sessionStats recorded))))
  (GameState.with_turnStartTime (Some now) recorded).

(** The store after the forced liquidation of [switchStock]. *)
Definition liquidated (position : Position.t) (sellPrice : num) (now : Z)
  (revealedStock : StockMetadata.t) (state : GameState.t) : GameState.t :=
  GameState.with_cash
    (GameState.cash state + Position.shares position * sellPrice)%float
  (GameState.with_position None
  (GameState.with_trades
     (GameState.trades state ++
        [Trade.mk TradeSell (GameState.currentBarIndex state) sellPrice
                  (Position.shares position) now])
  (GameState.with_holdingPeriods
     (closeLast (GameState.holdingPeriods state)
                (GameState.currentBarIndex state) sellPrice)
  (GameState.with_showRevealCard true
  (GameState.with_revealedStock (Some revealedStock)
  (GameState.with_sessionStats
     (SessionStats.with_totalTrades
        (SessionStats.totalTrades (GameState.sessionStats state) + 1)
        (GameState.sessionStats state))
   state)))))).

(** [createStockMetadata]-style summary of an instrument with at least one
    bar, as [switchStock] builds it for the reveal card. *)
Definition metadataOf (stock : StockData.t) (first last : OHLCVBar.t)
  : StockMetadata.t :=
  StockMetadata.mk (StockData.ticker stock) (StockData.name stock)
    (StockData.sector stock) (OHLCVBar.time first) (OHLCVBar.time last)
    (len (StockData.bars stock)).

(** Turns decided so far: every recorded outcome is a win, a loss or a flat. *)
Definition decided (stats : SessionStats.t) : Z :=
  SessionStats.wins stats + SessionStats.losses stats + SessionStats.flats stats.

Definition isLoad (op : Op) : bool :=
  match op with
  | OpLoad _ _ => true
  | _ => false
  end.

Definition actionOf (op : Op) : ActionType :=
  match op with
  | OpBuy _ => Buy
  | OpSell _ => Sell
  | _ => Skip
  end.

(** Running a sequence of operations, keeping the store whatever each one
    does (a throwing operation leaves its partial writes behind). *)
Definition run (ops : list Op) (w : World) : World :=
  fold_left (fun w op => worldAfter (exec op w)) ops w.

(** What the counters and logs of a store look like [turns] turns after an
    instrument was loaded at [startIndex] on top of the stats [before]. *)
Definition inSession (startIndex : Z) (before : SessionStats.t) (s : GameState.t)
  : Prop :=
  GameState.currentBarIndex s = startIndex + GameState.turnNumber s /\
  0 <= GameState.turnNumber s /\
  SessionStats.totalTurns (GameState.sessionStats s) =
    SessionStats.totalTurns before + GameState.turnNumber s /\
  SessionStats.totalTrades (GameState.sessionStats s) =
    SessionStats.totalTrades before + len (GameState.trades s) /\
  decided (GameState.sessionStats s) =
    decided before + len (GameState.turnOutcomes s) /\
  len (GameState.turnOutcomes s) <= GameState.turnNumber s.

(** The largest magnitude up to which every integer is a binary64 number and
    adding 1 is exact ([Number.MAX_SAFE_INTEGER + 1]); within it the integer
    fields of the store behave as their [Z] model. *)
Definition MAX_EXACT_INTEGER : Z := 2 ^ 53.

(** An instrument whose first two closes are equal. *)
Definition flatStock : StockData.t :=
  StockData.mk "FLAT" None None
    [OHLCVBar.mk "2024-02-01" 100 101 99 100 500;
     OHLCVBar.mk "2024-02-02" 100 102 99 100 700;
     OHLCVBar.mk "2024-02-05" 100 104 100 103 900].

Definition flatWorld : World := worldAfter (exec (OpLoad flatStock 0) freshWorld).

Definition flatOutcome : TurnOutcome.t :=
  TurnOutcome.mk 0 0 Skip None None Down Flat None 100 100.

(** The entry side of the holding periods. *)
Definition entries (hps : list HoldingPeriod.t) : list (Z * num) :=
  map (fun hp => (HoldingPeriod.entryBarIndex hp, HoldingPeriod.entryPrice hp)) hps.





(** ** More on the indicator library *)

(** Whether a call returned normally rather than with a TypeError. *)
Definition returns {A : Type} (c : Completion A) : bool :=
  match c with
  | Normal _ => true
  | TypeError => false
  end.

(** Two completions that end the same way, with related values. *)
Definition agree {S T : Type} (R : S -> T -> Prop) (c : Completion S) (d : Completion T)
  : Prop :=
  match c, d with
  | Normal s, Normal t => R s t
  | TypeError, TypeError => True
  | _, _ => False
  end.

(** An upper and a lower band point placed symmetrically around a middle
    point of the same bar. *)
Definition bandsAround (point : LineData.t * (LineData.t * LineData.t)) : Prop :=
  let '(upper, (middle, lower)) := point in
  LineData.time upper = LineData.time middle /\
  LineData.time lower = LineData.time middle /\
  exists deviation,
    LineData.value upper = (LineData.value middle + deviation)%float /\
    LineData.value lower = (LineData.value middle - deviation)%float.

Module HistogramData.
Record t := mk {
  time : string;
  value : num;
  color : string
}.
End HistogramData.

Module MACD.
Record t := mk {
  macdLine : list LineData.t;
  signalLine : list LineData.t;
  histogram : list HistogramData.t
}.
End MACD.

(** [xs.slice(start)]: a negative [start] counts from the end. *)
Definition sliceFrom {A : Type} (l : list A) (start : Z) : list A :=
  if start <? 0 then skipn (Z.to_nat (Z.max 0 (len l + start))) l
  else skipn (Z.to_nat start) l.

Definition calculateMACD (bars : list OHLCVBar.t) (fastPeriod slowPeriod signalPeriod : Z)
  : Completion MACD.t :=
  fastEMA <- calculateEMA bars fastPeriod ;;
  slowEMA <- calculateEMA bars slowPeriod ;;
  let offset := slowPeriod - fastPeriod in
  macdLine <-
    forEach (zrange 0 (len slowEMA))
      (fun i macdLine =>
         fast <- element fastEMA (i + offset) ;;
         slow <- element slowEMA i ;;
         Normal (macdLine ++
                   [LineData.mk (LineData.time slow)
                                (LineData.value fast - LineData.value slow)%float]))
      [] ;;
  let multiplier := (2 / (num_of_Z signalPeriod + 1))%float in
  sum <- forEach (zrange 0 signalPeriod)
           (fun i signalEMA =>
              m <- element macdLine i ;;
              Normal (signalEMA + LineData.value m)%float)
           0%float ;;
  let signalEMA := (sum / num_of_Z signalPeriod)%float in
  seed <- element macdLine (signalPeriod - 1) ;;
  let signalLine := [LineData.mk (LineData.time seed) signalEMA] in
  final <- forEach (zrange signalPeriod (len macdLine))
             (fun i st =>
                m <- element macdLine i ;;
                let signalEMA :=
                  ((LineData.value m - fst st) * multiplier + fst st)%float in
                Normal (signalEMA, snd st ++ [LineData.mk (LineData.time m) signalEMA]))
             (signalEMA, signalLine) ;;
  let signalLine := snd final in
  let histogramOffset := signalPeriod - 1 in
  histogram <-
    forEach (zrange 0 (len signalLine))
      (fun i histogram =>
         m <- element macdLine (i + histogramOffset) ;;
         s <- element signalLine i ;;
         let histValue := (LineData.value m - LineData.value s)%float in
         Normal (histogram ++
                   [HistogramData.mk (LineData.time s) histValue
                      (if (0 <=? histValue)%float then "#22c55e" else "#ef4444")]))
      [] ;;
  Normal (MACD.mk (sliceFrom macdLine histogramOffset) signalLine histogram).

(** The time of a series point, or of nothing. *)
Definition pointTimeAt (l : list LineData.t) (i : Z) : string :=
  match at_index l i with
  | Some d => LineData.time d
  | None => EmptyString
  end.

(** The three MACD series describe the same bars: point for point the
    histogram is the MACD line minus the signal line, at the same time,
    coloured by its sign. *)
Definition macdConsistent (m : MACD.t) : Prop :=
  len (MACD.signalLine m) = len (MACD.macdLine m) /\
  len (MACD.histogram m) = len (MACD.macdLine m) /\
  forall k, 0 <= k < len (MACD.macdLine m) ->
    exists macd signal hist,
      at_index (MACD.macdLine m) k = Some macd /\
      at_index (MACD.signalLine m) k = Some signal /\
      at_index (MACD.histogram m) k = Some hist /\
      LineData.time signal = LineData.time macd /\
      HistogramData.time hist = LineData.time macd /\
      HistogramData.value hist = (LineData.value macd - LineData.value signal)%float /\
      HistogramData.color hist =
        (if (0 <=? HistogramData.value hist)%float then "#22c55e" else "#ef4444")%string.

(** The value of a series point, or [NaN] for nothing. *)
Definition pointValueAt (l : list LineData.t) (i : Z) : num :=
  match at_index l i with
  | Some d => LineData.value d
  | None => NaN
  end.

(** The histogram bar [calculateMACD] builds at index [i]. *)
Definition histogramBar (macdLine signalLine : list LineData.t) (offset i : Z)
  : HistogramData.t :=
  let histValue :=
    (pointValueAt macdLine (i + offset) - pointValueAt signalLine i)%float in
  HistogramData.mk (pointTimeAt signalLine i) histValue
    (if (0 <=? histValue)%float then "#22c55e" else "#ef4444").

(** A short rising series, long enough for MACD(1, 2, 2). *)
Definition rising5 : list OHLCVBar.t :=
  [bar "d0" 1; bar "d1" 2; bar "d2" 4; bar "d3" 7; bar "d4" 11].

(** ** The bars the chart is given *)

(** [l.slice(0, end)]: a negative [end] counts from the end of the array, and
    an [end] past the array stops at its length. *)
Definition sliceTo {A : Type} (l : list A) (fin : Z) : list A :=
  let final := if fin <? 0 then Z.max (len l + fin) 0 else Z.min fin (len l) in
  firstn (Z.to_nat final) l.

Definition getVisibleBars (bars : list OHLCVBar.t) (currentIndex : Z)
  : list OHLCVBar.t :=
  sliceTo bars (currentIndex + 1).

(** [l'] starts with all of [l], unchanged. *)
Definition prefixOf {A : Type} (l l' : list A) : Prop :=
  exists more, l' = l ++ more.

(** The loop bodies of the indicators, as functions of the array they read. *)
Definition smaBody (bars : list OHLCVBar.t) (period : Z)
  : Z -> list LineData.t -> Completion (list LineData.t) :=
  fun i result =>
    sum <- windowSum bars i period ;;
    bar <- element bars i ;;
    Normal (result ++ [LineData.mk (OHLCVBar.time bar) (sum / num_of_Z period)%float]).

Definition closeSumBody (bars : list OHLCVBar.t) : Z -> num -> Completion num :=
  fun i sum => b <- element bars i ;; Normal (sum + OHLCVBar.close b)%float.

Definition emaBody (bars : list OHLCVBar.t) (multiplier : num)
  : Z -> num * list LineData.t -> Completion (num * list LineData.t) :=
  fun i st =>
    bar <- element bars i ;;
    let ema := ((OHLCVBar.close bar - fst st) * multiplier + fst st)%float in
    Normal (ema, snd st ++ [LineData.mk (OHLCVBar.time bar) ema]).

Definition priceChangesBody (bars : list OHLCVBar.t)
  : Z -> list num * list num -> Completion (list num * list num) :=
  fun i gl =>
    bar <- element bars i ;;
    prev <- element bars (i - 1) ;;
    let change := (OHLCVBar.close bar - OHLCVBar.close prev)%float in
    Normal (fst gl ++ [if (0 <? change)%float then change else 0%float],
            snd gl ++ [if (change <? 0)%float then (- change)%float else 0%float]).

Definition rsiBody (bars : list OHLCVBar.t) (gains losses : list num) (period : Z)
  : Z -> (num * num) * list RsiPoint.t -> Completion ((num * num) * list RsiPoint.t) :=
  fun i st =>
    let avgGain := smooth (fst (fst st)) period (numberAt gains i) in
    let avgLoss := smooth (snd (fst st)) period (numberAt losses i) in
    bar <- element bars (i + 1) ;;
    Normal ((avgGain, avgLoss),
            snd st ++ [RsiPoint.mk avgGain avgLoss
                         (LineData.mk (OHLCVBar.time bar) (rsiValue avgGain avgLoss))]).

Definition bollingerBody (Math_pow : num -> num -> num) (Math_sqrt : num -> num)
  (bars : list OHLCVBar.t) (period : Z) (stdDevMultiplier : num)
  : Z -> BollingerBands.t -> Completion BollingerBands.t :=
  fun i bands =>
    sum <- windowSum bars i period ;;
    let sma := (sum / num_of_Z period)%float in
    squaredDiffSum <-
      forEach (zrange 0 period)
        (fun j acc => b <- element bars (i - j) ;;
                      Normal (acc + Math_pow (OHLCVBar.close b - sma) 2)%float)
        0%float ;;
    let stdDev := Math_sqrt (squaredDiffSum / num_of_Z period)%float in
    bar <- element bars i ;;
    Normal (BollingerBands.mk
              (BollingerBands.upper bands ++
                 [LineData.mk (OHLCVBar.time bar) (sma + stdDev * stdDevMultiplier)%float])
              (BollingerBands.middle bands ++
                 [LineData.mk (OHLCVBar.time bar) sma])
              (BollingerBands.lower bands ++
                 [LineData.mk (OHLCVBar.time bar) (sma - stdDev * stdDevMultiplier)%float])).

(** Every band of [b'] starts with the corresponding band of [b]. *)
Definition bandsPrefixOf (b b' : BollingerBands.t) : Prop :=
  prefixOf (BollingerBands.upper b) (BollingerBands.upper b') /\
  prefixOf (BollingerBands.middle b) (BollingerBands.middle b') /\
  prefixOf (BollingerBands.lower b) (BollingerBands.lower b').

(** An indicator [f] keeps, on the bars [later], every point it returned on
    the bars [shown]. *)
Definition keepsPoints {A : Type} (f : list OHLCVBar.t -> Completion (list A))
  (shown later : list OHLCVBar.t) : Prop :=
  forall out, f shown = Normal out ->
    exists out', f later = Normal out' /\ prefixOf out out'.

(** ** The logs in play order *)

(** Earlier elements of [l] are related by [R] to later ones. *)
Definition ordered {A : Type} (R : A -> A -> Prop) (l : list A) : Prop :=
  forall i j a b, (i < j)%nat ->
    nth_error l i = Some a -> nth_error l j = Some b -> R a b.

(** The three logs of a store, [startIndex] being the bar the instrument was
    loaded at: what they record lies between the start and the current bar,
    in the order it happened. *)
Definition chronological (startIndex : Z) (s : GameState.t) : Prop :=
  Forall (fun t => startIndex <= Trade.barIndex t <= GameState.currentBarIndex s)
         (GameState.trades s) /\
  ordered (fun a b => Trade.barIndex a <= Trade.barIndex b) (GameState.trades s) /\
  Forall (fun o => TurnOutcome.barIndex o = startIndex + TurnOutcome.turnNumber o /\
                   0 <= TurnOutcome.turnNumber o < GameState.turnNumber s)
         (GameState.turnOutcomes s) /\
  ordered (fun a b => TurnOutcome.turnNumber a < TurnOutcome.turnNumber b)
          (GameState.turnOutcomes s) /\
  Forall (fun hp =>
            startIndex <= HoldingPeriod.entryBarIndex hp <= GameState.currentBarIndex s /\
            forall e, HoldingPeriod.exitBarIndex hp = Some e ->
                      HoldingPeriod.entryBarIndex hp <= e <= GameState.currentBarIndex s)
         (GameState.holdingPeriods s) /\
  ordered (fun a b => HoldingPeriod.entryBarIndex a <= HoldingPeriod.entryBarIndex b)
          (GameState.holdingPeriods s).

(** ** What the chart draws from the trade log *)

Module SeriesMarker.
Record t := mk {
  time : string;
  position : string;
  color : string;
  shape : string;
  text : string
}.
End SeriesMarker.

(** [.filter(marker => marker !== null)] *)
Fixpoint nonNull {A : Type} (l : list (option A)) : list A :=
  match l with
  | [] => []
  | Some a :: rest => a :: nonNull rest
  | None :: rest => nonNull rest
  end.

(** The marker drawn for [trade] on its bar. *)
Definition markerFor (bar : OHLCVBar.t) (trade : Trade.t) : SeriesMarker.t :=
  let isBuy := match Trade.type trade with TradeBuy => true | TradeSell => false end in
  SeriesMarker.mk (OHLCVBar.time bar)
    (if isBuy then "belowBar" else "aboveBar")
    (if isBuy then "#22c55e" else "#ef4444")
    (if isBuy then "arrowUp" else "arrowDown")
    (if isBuy then "BUY" else "SELL").

Definition createTradeMarkers (trades : list Trade.t) (bars : list OHLCVBar.t)
  (currentBarIndex : Z) : list SeriesMarker.t :=
  nonNull
    (map (fun trade =>
            match at_index bars (Trade.barIndex trade) with
            | None => None
            | Some bar => Some (markerFor bar trade)
            end)
         (filter (fun trade => Trade.barIndex trade <=? currentBarIndex) trades)).

(** The store plays [stock], and every trade of its log was made on a bar of
    that instrument. *)
Definition tradedOn (stock : StockData.t) (s : GameState.t) : Prop :=
  GameState.currentStock s = Some stock /\
  Forall (fun t => exists bar,
            at_index (StockData.bars stock) (Trade.barIndex t) = Some bar)
         (GameState.trades s).
(** ** Running the store monad *)

Lemma skip_unfold (w : World) :
  skip w =
  match GameState.currentStock (store w) with
  | None => Ok tt w
  | Some _ =>
      bind (decisionTimeOf (store w))
           (fun decisionTime =>
              bind (set (GameState.with_lastAction (Some Skip)))
                   (fun _ => finishTurn Skip false decisionTime)) w
  end.
Proof.
  unfold skip, bind at 1, get. destruct (GameState.currentStock (store w)); reflexivity.
Qed.

Lemma calculateOutcome_readonly (w : World) :
  calculateOutcome w = Throw w \/ exists o, calculateOutcome w = Ok o w.
Proof.
  unfold calculateOutcome, bind, get.
  destruct (GameState.currentStock (store w)) as [stock|]; [|right; eexists; reflexivity].
  destruct (at_index (StockData.bars stock) (GameState.currentBarIndex (store w) + 1));
    [|right; eexists; reflexivity].
  destruct (at_index (StockData.bars stock) (GameState.currentBarIndex (store w)));
    cbn; [right; eexists; reflexivity | left; reflexivity].
Qed.

Lemma calculateOutcome_prediction (w w' : World) (o : TurnOutcome.t) :
  calculateOutcome w = Ok (Some o) w' ->
  TurnOutcome.inferredPrediction o = inferPrediction (GameState.position (store w)).
Proof.
  unfold calculateOutcome, bind, get.
  destruct (GameState.currentStock (store w)) as [stock|]; [|discriminate].
  destruct (at_index (StockData.bars stock) (GameState.currentBarIndex (store w) + 1));
    [|discriminate].
  destruct (at_index (StockData.bars stock) (GameState.currentBarIndex (store w)));
    cbn; [|discriminate].
  intros H. injection H as <- _. reflexivity.
Qed.

Lemma finishTurn_cases (action : ActionType) (countsTrade : bool) (dt : Z) (w : World) :
  finishTurn action countsTrade dt w = Throw w \/
  exists w', finishTurn action countsTrade dt w = Ok tt w' /\
             advanced (store w) (store w').
Proof.
  unfold finishTurn, bind.
  destruct (calculateOutcome_readonly w) as [E | [o E]].
  - left. rewrite E. reflexivity.
  - right. pose proof (calculateOutcome_prediction w w) as P. rewrite E.
    destruct o as [o|].
    + eexists. split; [reflexivity|]. cbn.
      repeat split. right. eexists. split; [reflexivity|]. cbn. now apply P.
    + eexists. split; [reflexivity|]. cbn. repeat split. now left.
Qed.

Lemma completed_worldAfter (r : Res unit) :
  completed r = true -> r = Ok tt (worldAfter r).
Proof. destruct r as [[] w | w]; [reflexivity | discriminate]. Qed.

Lemma decisionTimeOf_reads (s : GameState.t) (w : World) :
  exists dt n, decisionTimeOf s w = Ok dt (mkWorld (store w) (clock w) n).
Proof.
  unfold decisionTimeOf. destruct (GameState.turnStartTime s) as [t|].
  - destruct (t =? 0); cbn; destruct w; cbn; eauto.
  - destruct w; cbn; eauto.
Qed.

Lemma finishTurn_runs (action : ActionType) (countsTrade : bool) (dt : Z)
  (w : World) (stock : StockData.t) (cb : OHLCVBar.t) :
  GameState.currentStock (store w) = Some stock ->
  at_index (StockData.bars stock) (GameState.currentBarIndex (store w)) = Some cb ->
  exists w', finishTurn action countsTrade dt w = Ok tt w' /\
             advanced (store w) (store w') /\ clock w' = clock w.
Proof.
  intros Hs Hb.
  assert (exists o, calculateOutcome w = Ok o w) as [o E].
  { unfold calculateOutcome, bind, get. rewrite Hs, Hb.
    destruct (at_index _ (_ + 1)); cbn; eauto. }
  pose proof (calculateOutcome_prediction w w) as P.
  unfold finishTurn, bind. rewrite E.
  destruct o as [o|]; eexists; (split; [reflexivity|]); cbn; split; try reflexivity;
    repeat split.
  - right. eexists. split; [reflexivity|]. cbn. now apply P.
  - now left.
Qed.

(** *** Rejections *)

Lemma skip_rejected (w : World) :
  GameState.currentStock (store w) = None -> skip w = Ok tt w.
Proof. intros H. rewrite skip_unfold, H. reflexivity. Qed.

Lemma buy_rejected (percentage : num) (w : World) :
  GameState.currentStock (store w) = None \/
  (percentage <=? 0)%float = true \/
  (100 <? percentage)%float = true \/
  (GameState.cash (store w) <=? 0)%float = true ->
  buy percentage w = Ok tt w.
Proof.
  intros H. unfold buy, bind, get.
  destruct (GameState.currentStock (store w)) as [stock|]; [|reflexivity].
  destruct H as [H | [H | [H | H]]]; [discriminate | | |].
  - rewrite H. reflexivity.
  - rewrite H, orb_true_r. reflexivity.
  - rewrite H. destruct (_ || _); reflexivity.
Qed.

Lemma sell_rejected (percentage : num) (w : World) :
  GameState.currentStock (store w) = None \/
  (percentage <=? 0)%float = true \/
  (100 <? percentage)%float = true \/
  GameState.position (store w) = None \/
  (exists p, GameState.position (store w) = Some p /\
             (Position.shares p <=? 0)%float = true) ->
  sell percentage w = Ok tt w.
Proof.
  intros H. unfold sell, bind, get.
  destruct (GameState.currentStock (store w)) as [stock|]; [|reflexivity].
  destruct H as [H | [H | [H | [H | (p & H & Hp)]]]]; [discriminate | | | |].
  - rewrite H. reflexivity.
  - rewrite H, orb_true_r. reflexivity.
  - rewrite H. destruct (_ || _); reflexivity.
  - rewrite H, Hp. destruct (_ || _); reflexivity.
Qed.

(** *** Accepted operations *)

Lemma skip_effect (w : World) (stock : StockData.t) (cb : OHLCVBar.t) :
  GameState.currentStock (store w) = Some stock ->
  at_index (StockData.bars stock) (GameState.currentBarIndex (store w)) = Some cb ->
  exists w', skip w = Ok tt w' /\ advanced (store w) (store w') /\ clock w' = clock w.
Proof.
  intros Hs Hb. rewrite skip_unfold, Hs.
  destruct (decisionTimeOf_reads (store w) w) as (dt & n & E).
  unfold bind at 1. rewrite E. unfold bind at 1. cbn [set store clock reads].
  destruct (finishTurn_runs Skip false dt
              (mkWorld (GameState.with_lastAction (Some Skip) (store w)) (clock w) n)
              stock cb Hs Hb) as (w' & E' & A & C).
  exists w'. split; [exact E'|]. split; [|exact C].
  destruct A as (A1 & A2 & A3 & A4 & A5 & A6 & A7). repeat split; assumption.
Qed.

Lemma buy_unfold (percentage : num) (w : World) (stock : StockData.t) (cb : OHLCVBar.t) :
  GameState.currentStock (store w) = Some stock ->
  (percentage <=? 0)%float = false ->
  (100 <? percentage)%float = false ->
  (GameState.cash (store w) <=? 0)%float = false ->
  at_index (StockData.bars stock) (GameState.currentBarIndex (store w)) = Some cb ->
  exists dt t n,
    buy percentage w =
    finishTurn Buy true dt
      (mkWorld (buyTrade percentage (OHLCVBar.close cb) t (store w)) (clock w) n).
Proof.
  intros Hs H1 H2 H3 Hb.
  destruct (decisionTimeOf_reads (store w) w) as (dt & n & E).
  exists dt, (clock w n), (S n).
  unfold buy, bind, get. rewrite Hs, H1, H2, H3, Hb. cbn [orb defined ret].
  rewrite E. reflexivity.
Qed.

Lemma buy_effect (percentage : num) (w : World) (stock : StockData.t) (cb : OHLCVBar.t) :
  GameState.currentStock (store w) = Some stock ->
  (percentage <=? 0)%float = false ->
  (100 <? percentage)%float = false ->
  (GameState.cash (store w) <=? 0)%float = false ->
  at_index (StockData.bars stock) (GameState.currentBarIndex (store w)) = Some cb ->
  exists w' t,
    buy percentage w = Ok tt w' /\ clock w' = clock w /\
    advanced (buyTrade percentage (OHLCVBar.close cb) t (store w)) (store w').
Proof.
  intros Hs H1 H2 H3 Hb.
  destruct (buy_unfold percentage w stock cb Hs H1 H2 H3 Hb) as (dt & t & n & E).
  destruct (finishTurn_runs Buy true dt
              (mkWorld (buyTrade percentage (OHLCVBar.close cb) t (store w)) (clock w) n)
              stock cb Hs Hb) as (w' & E' & A & C).
  exists w', t. rewrite E. auto.
Qed.

Lemma sell_unfold (percentage : num) (w : World) (stock : StockData.t)
  (position : Position.t) (cb : OHLCVBar.t) :
  GameState.currentStock (store w) = Some stock ->
  (percentage <=? 0)%float = false ->
  (100 <? percentage)%float = false ->
  GameState.position (store w) = Some position ->
  (Position.shares position <=? 0)%float = false ->
  at_index (StockData.bars stock) (GameState.currentBarIndex (store w)) = Some cb ->
  exists dt t n,
    sell percentage w =
    finishTurn Sell true dt
      (mkWorld (sellTrade percentage (OHLCVBar.close cb) t position (store w)) (clock w) n).
Proof.
  intros Hs H1 H2 Hp H3 Hb.
  destruct (decisionTimeOf_reads (store w) w) as (dt & n & E).
  exists dt, (clock w n), (S n).
  unfold sell, bind, get. rewrite Hs, H1, H2, Hp, H3, Hb. cbn [orb defined ret].
  rewrite E. reflexivity.
Qed.

Lemma sell_effect (percentage : num) (w : World) (stock : StockData.t)
  (position : Position.t) (cb : OHLCVBar.t) :
  GameState.currentStock (store w) = Some stock ->
  (percentage <=? 0)%float = false ->
  (100 <? percentage)%float = false ->
  GameState.position (store w) = Some position ->
  (Position.shares position <=? 0)%float = false ->
  at_index (StockData.bars stock) (GameState.currentBarIndex (store w)) = Some cb ->
  exists w' t,
    sell percentage w = Ok tt w' /\ clock w' = clock w /\
    advanced (sellTrade percentage (OHLCVBar.close cb) t position (store w)) (store w').
Proof.
  intros Hs H1 H2 Hp H3 Hb.
  destruct (sell_unfold percentage w stock position cb Hs H1 H2 Hp H3 Hb)
    as (dt & t & n & E).
  destruct (finishTurn_runs Sell true dt
              (mkWorld (sellTrade percentage (OHLCVBar.close cb) t position (store w))
                       (clock w) n)
              stock cb) as (w' & E' & A & C).
  - cbn. exact Hs.
  - cbn. exact Hb.
  - exists w', t. rewrite E. auto.
Qed.

(** *** Every way an operation can end *)

Lemma skip_store_cases (w : World) :
  store (worldAfter (skip w)) = store w \/
  store (worldAfter (skip w)) = GameState.with_lastAction (Some Skip) (store w) \/
  advanced (GameState.with_lastAction (Some Skip) (store w)) (store (worldAfter (skip w))).
Proof.
  rewrite skip_unfold.
  destruct (GameState.currentStock (store w)) as [stock|]; [|left; reflexivity].
  destruct (decisionTimeOf_reads (store w) w) as (dt & n & E).
  unfold bind. rewrite E. cbn [set store clock reads].
  destruct (finishTurn_cases Skip false dt
              (mkWorld (GameState.with_lastAction (Some Skip) (store w)) (clock w) n))
    as [T | (w' & E' & A)].
  - rewrite T. right. left. reflexivity.
  - rewrite E'. right. right. exact A.
Qed.

Lemma buy_store_cases (percentage : num) (w : World) :
  store (worldAfter (buy percentage w)) = store w \/
  exists price t,
    advanced (buyTrade percentage price t (store w))
             (store (worldAfter (buy percentage w))).
Proof.
  destruct (GameState.currentStock (store w)) as [stock|] eqn:Hs;
    [|left; rewrite buy_rejected; auto].
  destruct (percentage <=? 0)%float eqn:H1; [left; rewrite buy_rejected; auto|].
  destruct (100 <? percentage)%float eqn:H2; [left; rewrite buy_rejected; auto|].
  destruct (GameState.cash (store w) <=? 0)%float eqn:H3;
    [left; rewrite buy_rejected; auto|].
  destruct (at_index (StockData.bars stock) (GameState.currentBarIndex (store w)))
    as [cb|] eqn:Hb.
  - destruct (buy_effect percentage w stock cb Hs H1 H2 H3 Hb) as (w' & t & E & _ & A).
    right. exists (OHLCVBar.close cb), t. rewrite E. exact A.
  - left. unfold buy, bind, get. rewrite Hs, H1, H2, H3, Hb. reflexivity.
Qed.

Lemma sell_store_cases (percentage : num) (w : World) :
  store (worldAfter (sell percentage w)) = store w \/
  exists position price t,
    GameState.position (store w) = Some position /\
    advanced (sellTrade percentage price t position (store w))
             (store (worldAfter (sell percentage w))).
Proof.
  destruct (GameState.currentStock (store w)) as [stock|] eqn:Hs;
    [|left; rewrite sell_rejected; auto].
  destruct (percentage <=? 0)%float eqn:H1; [left; rewrite sell_rejected; auto|].
  destruct (100 <? percentage)%float eqn:H2; [left; rewrite sell_rejected; auto|].
  destruct (GameState.position (store w)) as [position|] eqn:Hp;
    [|left; rewrite sell_rejected; auto].
  destruct (Position.shares position <=? 0)%float eqn:H3;
    [left; rewrite sell_rejected; eauto 8|].
  destruct (at_index (StockData.bars stock) (GameState.currentBarIndex (store w)))
    as [cb|] eqn:Hb.
  - destruct (sell_effect percentage w stock position cb Hs H1 H2 Hp H3 Hb)
      as (w' & t & E & _ & A).
    right. exists position, (OHLCVBar.close cb), t. rewrite E. auto.
  - left. unfold sell, bind, get. rewrite Hs, H1, H2, Hp, H3, Hb. reflexivity.
Qed.

Lemma not_self_snoc {A : Type} (l : list A) (x : A) : l <> l ++ [x].
Proof.
  intros H. apply (f_equal (@List.length A)) in H.
  rewrite length_app in H. cbn in H. lia.
Qed.

Lemma inferPrediction_up (position : option Position.t) :
  inferPrediction position = Up <->
  exists p, position = Some p /\ (0 <? Position.shares p)%float = true.
Proof.
  unfold inferPrediction. destruct position as [p|].
  - destruct (0 <? Position.shares p)%float eqn:E; split.
    + eauto.
    + reflexivity.
    + discriminate.
    + intros (q & [= <-] & H). congruence.
  - split; [discriminate | intros (q & [=] & _)].
Qed.

Lemma inferPrediction_down (position : option Position.t) :
  inferPrediction position = Down <-> inferPrediction position <> Up.
Proof.
  unfold inferPrediction. destruct position as [p|]; [destruct (0 <? _)%float|];
    split; congruence.
Qed.

(** ** Holding-period pairing *)

Lemma mapi_from_last {A : Type} (f : A -> Z -> A) (N : Z) (pre : list A) (x : A) :
  (forall a idx, idx <> N -> f a idx = a) ->
  forall k, N = k + len pre -> mapi_from f k (pre ++ [x]) = pre ++ [f x N].
Proof.
  intros Hf. induction pre as [|a pre IH]; intros k HN.
  - cbn in *. replace (k + 0) with k in HN by lia. now subst.
  - cbn [app mapi_from]. rewrite Hf.
    + f_equal. apply IH. unfold len in *. cbn [List.length] in HN. lia.
    + unfold len in HN. cbn [List.length] in HN. lia.
Qed.

Lemma closeLast_snoc (closed : list HoldingPeriod.t) (hp : HoldingPeriod.t)
  (barIndex : Z) (price : num) :
  isOpen hp = true ->
  closeLast (closed ++ [hp]) barIndex price =
  closed ++ [HoldingPeriod.mk (HoldingPeriod.entryBarIndex hp) (Some barIndex)
                              (HoldingPeriod.entryPrice hp) (Some price)].
Proof.
  intros Ho. unfold closeLast, mapi.
  rewrite (mapi_from_last _ (len (closed ++ [hp]) - 1)).
  - rewrite Z.eqb_refl. unfold isOpen in Ho.
    destruct (HoldingPeriod.exitBarIndex hp); [discriminate | reflexivity].
  - intros a idx Hne. apply Z.eqb_neq in Hne. now rewrite Hne.
  - unfold len. rewrite length_app. cbn. lia.
Qed.

Lemma openPeriods_app (l1 l2 : list HoldingPeriod.t) :
  openPeriods (l1 ++ l2) = openPeriods l1 ++ openPeriods l2.
Proof. apply filter_app. Qed.

Lemma wellPaired_pairing (s : GameState.t) : wellPaired s -> pairing s.
Proof.
  unfold wellPaired, pairing.
  destruct (GameState.position s) as [p|].
  - intros (closed & hp & -> & Hc & Ho).
    rewrite openPeriods_app, Hc. cbn. rewrite Ho. cbn.
    split; [lia | split; intros _; discriminate].
  - intros ->. cbn. split; [lia | split; intros H; now elim H].
Qed.

Lemma wellPaired_ext (s s' : GameState.t) :
  GameState.position s' = GameState.position s ->
  GameState.holdingPeriods s' = GameState.holdingPeriods s ->
  wellPaired s -> wellPaired s'.
Proof. unfold wellPaired. intros -> ->. auto. Qed.

Lemma wellPaired_advanced (s s' : GameState.t) :
  advanced s s' -> wellPaired s -> wellPaired s'.
Proof.
  intros (_ & _ & Hp & _ & Hh & _). now apply wellPaired_ext.
Qed.

Lemma wellPaired_buyTrade (percentage price : num) (t : Z) (s : GameState.t) :
  noBuyOnZeroShares (OpBuy percentage) s ->
  wellPaired s -> wellPaired (buyTrade percentage price t s).
Proof.
  unfold noBuyOnZeroShares, wellPaired, buyTrade. cbn.
  destruct (GameState.position s) as [p|].
  - intros -> H. exact H.
  - intros _ H. eexists _, _. split; [reflexivity|]. split; [exact H | reflexivity].
Qed.

Lemma wellPaired_sellTrade (percentage price : num) (t : Z) (position : Position.t)
  (s : GameState.t) :
  GameState.position s = Some position ->
  wellPaired s -> wellPaired (sellTrade percentage price t position s).
Proof.
  unfold wellPaired, sellTrade. cbn. intros ->.
  intros (closed & hp & E & Hc & Ho).
  destruct (0.0001 <? _)%float.
  - eauto.
  - rewrite E, closeLast_snoc, openPeriods_app, Hc by assumption. reflexivity.
Qed.

Lemma revealOf_readonly (stock : StockData.t) (w : World) :
  revealOf stock w = Throw w \/ exists m, revealOf stock w = Ok m w.
Proof.
  unfold revealOf, bind.
  destruct (at_index (StockData.bars stock) 0); cbn; [|now left].
  destruct (at_index (StockData.bars stock) (len (StockData.bars stock) - 1)); cbn;
    [right; eexists; reflexivity | now left].
Qed.

Lemma wellPaired_switchStock (w : World) :
  wellPaired (store w) -> wellPaired (store (worldAfter (switchStock w))).
Proof.
  intros H. unfold switchStock, bind at 1, get.
  destruct (GameState.currentStock (store w)) as [stock|] eqn:Hs.
  - destruct (holdsShares (GameState.position (store w))) as [p|] eqn:Hh.
    + unfold bind at 1.
      destruct (at_index (StockData.bars stock) (GameState.currentBarIndex (store w)))
        as [cb|]; cbn [defined ret throwTypeError worldAfter]; [|exact H].
      unfold bind at 1, dateNow. unfold bind.
      destruct (revealOf_readonly stock
                  (mkWorld (store w) (clock w) (S (reads w)))) as [E | [m E]];
        rewrite E; cbn; [exact H|].
      unfold wellPaired in *. cbn.
      unfold holdsShares in Hh.
      destruct (GameState.position (store w)) as [q|]; [|discriminate].
      destruct H as (closed & hp & E' & Hc & Ho).
      rewrite E', closeLast_snoc, openPeriods_app, Hc by assumption. reflexivity.
    + unfold bind.
      destruct (revealOf_readonly stock w) as [E | [m E]]; rewrite E; cbn; exact H.
  - destruct (holdsShares (GameState.position (store w))); exact H.
Qed.

Lemma wellPaired_exec (op : Op) (w : World) :
  noBuyOnZeroShares op (store w) ->
  wellPaired (store w) -> wellPaired (store (worldAfter (exec op w))).
Proof.
  intros Hop H. destruct op as [stock i | | | pct | pct]; cbn [exec].
  - reflexivity.
  - now apply wellPaired_switchStock.
  - destruct (skip_store_cases w) as [E | [E | A]].
    + now rewrite E.
    + rewrite E. exact H.
    + eapply wellPaired_advanced; [exact A|]. exact H.
  - destruct (buy_store_cases pct w) as [E | (price & t & A)].
    + now rewrite E.
    + eapply wellPaired_advanced; [exact A|]. now apply wellPaired_buyTrade.
  - destruct (sell_store_cases pct w) as [E | (position & price & t & Hp & A)].
    + now rewrite E.
    + eapply wellPaired_advanced; [exact A|]. now apply wellPaired_sellTrade.
Qed.

Lemma reachable_wellPaired (w : World) :
  reachable noBuyOnZeroShares w -> wellPaired (store w).
Proof.
  induction 1 as [stats clk n | w op _ IH Hop].
  - reflexivity.
  - now apply wellPaired_exec.
Qed.

(** Away from zero-share positions the pairing holds.  In every state
    reachable by LoadInstrument, Skip, Buy, Sell and SwitchInstrument steps in
    which no Buy is applied to a position object holding exactly zero shares,
    at most one holding period has a null exit, and a holding period with a
    null exit exists if and only if the position is non-null. *)
Theorem holding_period_pairing (w : World) :
  reachable noBuyOnZeroShares w -> pairing (store w).
Proof.
  intros H. apply wellPaired_pairing, reachable_wellPaired, H.
Qed.

(** C5 fails in the code.  From the loaded sample instrument, a Buy with the
    smallest positive percentage passes the guard and acquires zero shares
    ([2^-1074 / 100] rounds to zero), yet it stores a position object with
    [shares = 0] and opens a holding period; [sell] would have turned such a
    remainder into a null position.  A second such Buy finds
    [position.shares === 0], treats the player as not holding and opens a
    second holding period while the first is still open: the reachable state
    has two holding periods with a null exit, so the pairing invariant does
    not hold. *)
Theorem two_open_holding_periods :
  let w1 := worldAfter (exec (OpBuy tinyPercentage) loadedWorld) in
  let w2 := worldAfter (exec (OpBuy tinyPercentage) w1) in
  reachable anyOperation w2 /\
  completed (exec (OpBuy tinyPercentage) loadedWorld) = true /\
  completed (exec (OpBuy tinyPercentage) w1) = true /\
  (exists p, GameState.position (store w1) = Some p /\
             (Position.shares p =? 0)%float = true) /\
  List.length (openPeriods (GameState.holdingPeriods (store w1))) = 1%nat /\
  List.length (openPeriods (GameState.holdingPeriods (store w2))) = 2%nat /\
  ~ pairing (store w2).
Proof.
  cbv zeta. split.
  - repeat (apply reachable_step; [|exact I]).
    exact (reachable_init anyOperation initialSessionStats sampleClock 0).
  - split; [vm_compute; reflexivity|].
    split; [vm_compute; reflexivity|].
    split; [eexists; split; vm_compute; reflexivity|].
    split; [vm_compute; reflexivity|].
    split; [vm_compute; reflexivity|].
    intros [Hle _]. vm_compute in Hle. lia.
Qed.

Lemma holding_period_pairing_witness : pairing (store roundTripWorld).
Proof.
  apply holding_period_pairing.
  unfold roundTripWorld, boughtWorld, loadedWorld.
  repeat (apply reachable_step; [|exact I]).
  exact (reachable_init noBuyOnZeroShares initialSessionStats sampleClock 0).
Defined.

(** ** Inferred prediction *)

(** C1 (as amended).  For every turn completed by Skip, Buy or Sell that
    records an outcome, the inferred prediction of that outcome is 'up' if and
    only if the position held right after the action's trade (the position the
    turn ends with) has shares > 0, and 'down' otherwise; a Skip does not
    change the position, so for Skip this is also the position held before
    the action. *)
Theorem prediction_follows_position_after_trade
  (op : Op) (w w' : World) (o : TurnOutcome.t) :
  isTurn op = true ->
  exec op w = Ok tt w' ->
  GameState.turnOutcomes (store w') = GameState.turnOutcomes (store w) ++ [o] ->
  (TurnOutcome.inferredPrediction o = Up <->
   exists p, GameState.position (store w') = Some p /\
             (0 <? Position.shares p)%float = true) /\
  (TurnOutcome.inferredPrediction o = Down <->
   ~ exists p, GameState.position (store w') = Some p /\
               (0 <? Position.shares p)%float = true) /\
  (op = OpSkip -> GameState.position (store w') = GameState.position (store w)).
Proof.
  intros Hturn Hexec Hout.
  assert (store (worldAfter (exec op w)) = store w') as Hw by now rewrite Hexec.
  assert (TurnOutcome.inferredPrediction o = inferPrediction (GameState.position (store w'))
          /\ (op = OpSkip -> GameState.position (store w') = GameState.position (store w)))
    as [Hpred Hskip].
  { assert (forall s1,
              GameState.turnOutcomes s1 = GameState.turnOutcomes (store w) ->
              advanced s1 (store w') ->
              TurnOutcome.inferredPrediction o =
                inferPrediction (GameState.position (store w')) /\
              GameState.position (store w') = GameState.position s1) as Hadv.
    { intros s1 Ho (_ & _ & Hp & _ & _ & _ & [Hsame | (o' & Happ & Ho')]).
      - rewrite Hsame, Ho in Hout. now apply not_self_snoc in Hout.
      - rewrite Happ, Ho in Hout. apply app_inj_tail in Hout as [_ <-].
        rewrite Hp. auto. }
    assert (store w' = store w -> False) as Hsame.
    { intros E. rewrite E in Hout. now apply not_self_snoc in Hout. }
    destruct op as [stock i | | | pct | pct]; try discriminate; cbn [exec] in Hw.
    - destruct (skip_store_cases w) as [E | [E | A]]; rewrite Hw in *.
      + now elim Hsame.
      + rewrite E in Hout. cbn in Hout. now apply not_self_snoc in Hout.
      + destruct (Hadv (GameState.with_lastAction (Some Skip) (store w)) eq_refl A)
          as [H1 H2].
        split; [exact H1|]. intros _. exact H2.
    - destruct (buy_store_cases pct w) as [E | (price & t & A)]; rewrite Hw in *.
      + now elim Hsame.
      + destruct (Hadv (buyTrade pct price t (store w)) eq_refl A) as [H1 _].
        split; [exact H1 | discriminate].
    - destruct (sell_store_cases pct w) as [E | (position & price & t & _ & A)];
        rewrite Hw in *.
      + now elim Hsame.
      + destruct (Hadv (sellTrade pct price t position (store w)) eq_refl A) as [H1 _].
        split; [exact H1 | discriminate]. }
  split; [|split].
  - rewrite Hpred. apply inferPrediction_up.
  - rewrite Hpred, inferPrediction_down. apply not_iff_compat, inferPrediction_up.
  - exact Hskip.
Qed.

Lemma prediction_follows_position_after_trade_witness :
  TurnOutcome.inferredPrediction boughtOutcome = Up <->
  exists p, GameState.position (store boughtWorld) = Some p /\
            (0 <? Position.shares p)%float = true.
Proof.
  apply (prediction_follows_position_after_trade (OpBuy 50%float) loadedWorld boughtWorld
           boughtOutcome).
  - reflexivity.
  - apply completed_worldAfter. vm_compute. reflexivity.
  - vm_compute. reflexivity.
Defined.

(** C1, the claim as stated fails: the player is flat (position null) right
    before a Buy, yet the outcome recorded for that Buy turn carries the
    prediction 'up', because the prediction is inferred after the Buy has
    already written the new position. *)
Lemma buy_while_flat_is_scored_up :
  exec (OpBuy 50%float) loadedWorld = Ok tt boughtWorld /\
  GameState.position (store loadedWorld) = None /\
  GameState.turnOutcomes (store boughtWorld) =
    GameState.turnOutcomes (store loadedWorld) ++ [boughtOutcome] /\
  TurnOutcome.action boughtOutcome = Buy /\
  TurnOutcome.inferredPrediction boughtOutcome = Up.
Proof.
  split; [apply completed_worldAfter; vm_compute; reflexivity|].
  vm_compute. repeat split.
Qed.

(** ** Rejected operations *)

(** C4.  Whenever the argument guard of skip, buy or sell fails (no
    instrument loaded; percentage <= 0 or > 100; buy with cash <= 0; sell
    with no position or with shares <= 0), the operation returns normally and
    leaves the whole world, hence every field of the game state, unchanged. *)
Theorem rejected_operation_leaves_state_unchanged (op : Op) (w : World) :
  guardFails op (store w) -> exec op w = Ok tt w.
Proof.
  destruct op as [stock i | | | pct | pct]; cbn [guardFails exec]; try contradiction.
  - apply skip_rejected.
  - apply buy_rejected.
  - apply sell_rejected.
Qed.

Lemma rejected_operation_leaves_state_unchanged_witness :
  exec (OpBuy 150%float) loadedWorld = Ok tt loadedWorld /\
  exec (OpSell 50%float) loadedWorld = Ok tt loadedWorld /\
  exec OpSkip freshWorld = Ok tt freshWorld.
Proof.
  split; [|split]; apply rejected_operation_leaves_state_unchanged.
  - right. right. left. reflexivity.
  - right. right. right. left. reflexivity.
  - reflexivity.
Defined.

(** ** End of data *)

Lemma at_index_past_end {A : Type} (l : list A) (i : Z) :
  len l <= i -> at_index l i = None.
Proof.
  intros H. unfold at_index, len in *.
  destruct (i <? 0); [reflexivity|]. apply nth_error_None. lia.
Qed.

(** C8.  Whenever bar-index + 1 is at or past the end of the bar list
    (which includes a bar-index that is itself past the end), calculateOutcome
    returns null: it does not throw and it leaves the world unchanged.  With
    no instrument loaded it returns null as well. *)
Theorem calculateOutcome_null_at_end_of_data (w : World) :
  (forall stock, GameState.currentStock (store w) = Some stock ->
                 len (StockData.bars stock) <= GameState.currentBarIndex (store w) + 1) ->
  calculateOutcome w = Ok None w.
Proof.
  intros H. unfold calculateOutcome, bind, get.
  destruct (GameState.currentStock (store w)) as [stock|]; [|reflexivity].
  rewrite (at_index_past_end _ _ (H stock eq_refl)). reflexivity.
Qed.

Lemma calculateOutcome_null_at_end_of_data_witness :
  calculateOutcome lastBarWorld = Ok None lastBarWorld /\
  calculateOutcome pastEndWorld = Ok None pastEndWorld.
Proof.
  split; apply calculateOutcome_null_at_end_of_data;
    intros stock [= <-]; vm_compute; discriminate.
Defined.

(** ** Loading an instrument *)

Lemma loadStock_effect (stock : StockData.t) (startIndex : Z) (w : World) :
  exists w',
    loadStock stock startIndex w = Ok tt w' /\
    GameState.currentStock (store w') = Some stock /\
    GameState.currentBarIndex (store w') = startIndex /\
    GameState.cash (store w') = GameState.cash (store w) /\
    GameState.position (store w') = None /\
    GameState.trades (store w') = [] /\
    GameState.holdingPeriods (store w') = [] /\
    GameState.turnOutcomes (store w') = [] /\
    GameState.turnNumber (store w') = 0 /\
    GameState.turnStartTime (store w') = Some (clock w (reads w)) /\
    clock w' = clock w.
Proof. eexists. split; [reflexivity|]. cbn. repeat split. Qed.

(** C2, evaluated on the code.  loadStock resets the position, the trades,
    the holding periods, the outcomes and the turn number, and sets the bar
    index and the turn start time, but it never writes [cash]: loading an
    instrument after the round trip that ended with 10250 leaves cash at
    10250, not at the initial 10000. *)
Theorem loadStock_does_not_reset_cash :
  exists w',
    loadStock sampleStock 0 roundTripWorld = Ok tt w' /\
    GameState.cash (store roundTripWorld) = 10250%float /\
    GameState.cash (store w') = 10250%float /\
    (GameState.cash (store w') =? INITIAL_CASH)%float = false /\
    GameState.position (store w') = None /\
    GameState.trades (store w') = [] /\
    GameState.holdingPeriods (store w') = [] /\
    GameState.turnOutcomes (store w') = [] /\
    GameState.turnNumber (store w') = 0 /\
    GameState.currentBarIndex (store w') = 0.
Proof. eexists. split; [reflexivity|]. vm_compute. repeat split. Qed.

(** ** Streaks *)

Lemma recordAll_stats (outcomes : list TurnOutcome.t) (w : World) :
  statsAfter (recordAll outcomes w) =
  fold_left (fun st o => recordStats (TurnOutcome.isWin o) st) outcomes
            (GameState.sessionStats (store w)).
Proof.
  revert w. induction outcomes as [|o rest IH]; intros w; [reflexivity|].
  cbn [recordAll fold_left]. unfold bind. cbn [recordTurnOutcome set].
  rewrite IH. reflexivity.
Qed.

Lemma winning_run_streak (outcomes : list TurnOutcome.t) (st : SessionStats.t) :
  Forall isWinning outcomes ->
  let st' := fold_left (fun st o => recordStats (TurnOutcome.isWin o) st) outcomes st in
  SessionStats.currentStreak st' =
    match outcomes with
    | [] => SessionStats.currentStreak st
    | _ => Z.max 0 (SessionStats.currentStreak st) + len outcomes
    end /\
  (SessionStats.currentStreak st <= SessionStats.bestStreak st \/ outcomes <> [] ->
   SessionStats.currentStreak st' <= SessionStats.bestStreak st').
Proof.
  intros H. revert st. induction H as [|o rest Ho _ IH]; intros st.
  - cbn. split; [reflexivity|]. intros [L | N]; [exact L | now elim N].
  - cbn [fold_left]. unfold isWinning in Ho. rewrite Ho.
    set (st1 := recordStats (Some true) st).
    assert (SessionStats.currentStreak st1 = Z.max 0 (SessionStats.currentStreak st) + 1)
      as E1.
    { subst st1. cbn. destruct (0 <? SessionStats.currentStreak st) eqn:E.
      - apply Z.ltb_lt in E. lia.
      - apply Z.ltb_ge in E. lia. }
    assert (SessionStats.currentStreak st1 <= SessionStats.bestStreak st1) as B1.
    { subst st1. cbn. lia. }
    destruct (IH st1) as [C B]. cbn zeta in *. split.
    + rewrite C. destruct rest as [|o' rest'].
      * rewrite E1. unfold len. cbn. lia.
      * rewrite E1. unfold len. cbn [List.length]. lia.
    + intros _. apply B. now left.
Qed.

(** C9.  recordTurnOutcome on a win sets currentStreak to currentStreak+1 if
    it was positive and to 1 otherwise, then bestStreak to
    max(bestStreak, currentStreak); on a loss it sets currentStreak to
    currentStreak-1 if it was negative and to -1 otherwise, then worstStreak
    to min(worstStreak, currentStreak); on a flat it leaves the three streak
    fields alone and adds 1 to flats.  Hence a run of N >= 1 consecutive wins
    that starts from a non-positive streak ends with currentStreak = N and
    bestStreak >= N, and a win right after a loss gives currentStreak = 1. *)
Theorem streak_algorithm (w : World) (outcome : TurnOutcome.t) :
  let before := GameState.sessionStats (store w) in
  let after := statsAfter (recordTurnOutcome outcome w) in
  (isWinning outcome ->
     SessionStats.currentStreak after =
       (if 0 <? SessionStats.currentStreak before
        then SessionStats.currentStreak before + 1 else 1) /\
     SessionStats.bestStreak after =
       Z.max (SessionStats.bestStreak before) (SessionStats.currentStreak after) /\
     SessionStats.worstStreak after = SessionStats.worstStreak before /\
     SessionStats.wins after = SessionStats.wins before + 1) /\
  (isLosing outcome ->
     SessionStats.currentStreak after =
       (if SessionStats.currentStreak before <? 0
        then SessionStats.currentStreak before - 1 else -1) /\
     SessionStats.worstStreak after =
       Z.min (SessionStats.worstStreak before) (SessionStats.currentStreak after) /\
     SessionStats.bestStreak after = SessionStats.bestStreak before /\
     SessionStats.losses after = SessionStats.losses before + 1) /\
  (TurnOutcome.isWin outcome = None ->
     SessionStats.currentStreak after = SessionStats.currentStreak before /\
     SessionStats.bestStreak after = SessionStats.bestStreak before /\
     SessionStats.worstStreak after = SessionStats.worstStreak before /\
     SessionStats.flats after = SessionStats.flats before + 1) /\
  (forall outcomes,
     Forall isWinning outcomes -> outcomes <> [] ->
     SessionStats.currentStreak before <= 0 ->
     SessionStats.currentStreak (statsAfter (recordAll outcomes w)) = len outcomes /\
     len outcomes <= SessionStats.bestStreak (statsAfter (recordAll outcomes w))) /\
  (forall loss win,
     isLosing loss -> isWinning win ->
     SessionStats.currentStreak (statsAfter (recordAll [loss; win] w)) = 1).
Proof.
  cbn zeta.
  repeat match goal with |- _ /\ _ => split end.
  - unfold isWinning, statsAfter. intros H. cbn. rewrite H. cbn. repeat split.
  - unfold isLosing, statsAfter. intros H. cbn. rewrite H. cbn. repeat split.
  - unfold statsAfter. intros H. cbn. rewrite H. cbn. repeat split.
  - intros outcomes Hwin Hne Hcs. rewrite recordAll_stats.
    destruct (winning_run_streak outcomes (GameState.sessionStats (store w)) Hwin)
      as [C B]. cbn zeta in *.
    destruct outcomes as [|o rest]; [now elim Hne|].
    split.
    + rewrite C. lia.
    + assert (o :: rest <> []) as N by discriminate.
      specialize (B (or_intror N)). rewrite C in B. lia.
  - intros loss win Hl Hw. rewrite recordAll_stats. cbn [fold_left].
    unfold isLosing in Hl. unfold isWinning in Hw. rewrite Hl, Hw. cbn.
    destruct (SessionStats.currentStreak (GameState.sessionStats (store w)) <? 0) eqn:E.
    + apply Z.ltb_lt in E.
      destruct (0 <? _) eqn:E'; [apply Z.ltb_lt in E'; lia | reflexivity].
    + reflexivity.
Qed.

Lemma streak_algorithm_witness :
  SessionStats.currentStreak
    (statsAfter (recordAll [outcomeWith (Some true); outcomeWith (Some true);
                            outcomeWith (Some true)] freshWorld)) = 3 /\
  SessionStats.currentStreak
    (statsAfter (recordAll [outcomeWith (Some false); outcomeWith (Some true)]
                           freshWorld)) = 1.
Proof.
  destruct (streak_algorithm freshWorld (outcomeWith None)) as (_ & _ & _ & Hrun & Hreset).
  split.
  - apply (Hrun [outcomeWith (Some true); outcomeWith (Some true);
                 outcomeWith (Some true)]).
    + repeat constructor.
    + discriminate.
    + cbn. lia.
  - apply Hreset; reflexivity.
Defined.

(** ** The round-trip scenario *)

Lemma at_index_nonneg {A : Type} (l : list A) (i : Z) (a : A) :
  at_index l i = Some a -> 0 <= i < len l.
Proof.
  unfold at_index, len. destruct (i <? 0) eqn:E; [discriminate|].
  apply Z.ltb_ge in E. intros H.
  assert (Z.to_nat i < List.length l)%nat by (apply nth_error_Some; congruence). lia.
Qed.

Lemma at_index_in_range {A : Type} (l : list A) (i : Z) :
  0 <= i < len l -> exists a, at_index l i = Some a.
Proof.
  unfold at_index, len. intros H.
  destruct (i <? 0) eqn:E; [apply Z.ltb_lt in E; lia|].
  destruct (nth_error l (Z.to_nat i)) eqn:N; [eauto|].
  apply nth_error_None in N. lia.
Qed.

(** C3.  From a freshly loaded instrument with cash exactly 10000 and no
    position, where the close at the Buy bar is 100 and the close two bars
    later is 105: Buy(50) books 50 shares at price 100 (spending 5000),
    leaving cash 5000 and a position of 50 shares at average cost 100; after
    one Skip, Sell(100) books 50 shares at price 105 (proceeds 5250), leaving
    cash exactly 10250, no position, and exactly one holding period, closed,
    with entry price 100 and exit price 105. *)
Theorem round_trip_scenario (w0 : World) (stock : StockData.t) (startIndex : Z)
  (b0 b2 : OHLCVBar.t) :
  GameState.cash (store w0) = 10000%float ->
  at_index (StockData.bars stock) startIndex = Some b0 ->
  OHLCVBar.close b0 = 100%float ->
  at_index (StockData.bars stock) (startIndex + 2) = Some b2 ->
  OHLCVBar.close b2 = 105%float ->
  exists w1 w2 w3 w4 t1 t2,
    loadStock stock startIndex w0 = Ok tt w1 /\
    GameState.cash (store w1) = 10000%float /\
    GameState.position (store w1) = None /\
    buy 50 w1 = Ok tt w2 /\
    GameState.trades (store w2) = [Trade.mk TradeBuy startIndex 100 50 t1] /\
    (50 * 100 = 5000)%float /\
    GameState.cash (store w2) = 5000%float /\
    GameState.position (store w2) = Some (Position.mk 50 100 startIndex) /\
    skip w2 = Ok tt w3 /\
    sell 100 w3 = Ok tt w4 /\
    GameState.trades (store w4) =
      [Trade.mk TradeBuy startIndex 100 50 t1;
       Trade.mk TradeSell (startIndex + 2) 105 50 t2] /\
    (50 * 105 = 5250)%float /\
    GameState.cash (store w4) = 10250%float /\
    GameState.position (store w4) = None /\
    GameState.holdingPeriods (store w4) =
      [HoldingPeriod.mk startIndex (Some (startIndex + 2)) 100 (Some 105%float)].
Proof.
  intros Hcash Hb0 Hc0 Hb2 Hc2.
  pose proof (at_index_nonneg _ _ _ Hb0) as R0.
  pose proof (at_index_nonneg _ _ _ Hb2) as R2.
  destruct (at_index_in_range (StockData.bars stock) (startIndex + 1)) as [b1 Hb1]; [lia|].
  destruct (loadStock_effect stock startIndex w0)
    as (w1 & E1 & S1 & I1 & C1 & P1 & T1 & H1 & _).
  rewrite Hcash in C1.
  (* Buy 50% *)
  destruct (buy_effect 50 w1 stock b0) as (w2 & t1 & E2 & _ & A2);
    [exact S1 | reflexivity | reflexivity | now rewrite C1 | now rewrite I1 |].
  destruct A2 as (S2 & C2 & P2 & T2 & H2 & I2 & _).
  unfold buyTrade in *. cbn in S2, C2, P2, T2, H2, I2.
  rewrite ?C1, ?P1, ?T1, ?H1, ?I1, ?Hc0 in *. cbn in C2, P2, T2, H2.
  (* Skip *)
  destruct (skip_effect w2 stock b1) as (w3 & E3 & A3 & _);
    [now rewrite S2, S1 | now rewrite I2 |].
  destruct A3 as (S3 & C3 & P3 & T3 & H3 & I3 & _). cbn in S3, C3, P3, T3, H3, I3.
  rewrite ?S2, ?C2, ?P2, ?T2, ?H2, ?I2, ?S1 in *.
  replace (startIndex + 1 + 1) with (startIndex + 2) in I3 by lia.
  (* Sell 100% *)
  destruct (sell_effect 100 w3 stock (Position.mk 50 100 startIndex) b2)
    as (w4 & t2 & E4 & _ & A4);
    [exact S3 | reflexivity | reflexivity | exact P3 | reflexivity | now rewrite I3 |].
  destruct A4 as (_ & C4 & P4 & T4 & H4 & _).
  unfold sellTrade in *. cbn in C4, P4, T4, H4.
  rewrite ?C3, ?T3, ?H3, ?I3, ?Hc2 in *. cbn in C4, T4, H4.
  exists w1, w2, w3, w4, t1, t2.
  repeat match goal with |- _ /\ _ => split end;
    try assumption; reflexivity.
Qed.

Lemma round_trip_scenario_witness :
  exists w1 w2 w3 w4 t1 t2,
    loadStock scenarioStock 60 freshWorld = Ok tt w1 /\
    GameState.cash (store w1) = 10000%float /\
    GameState.position (store w1) = None /\
    buy 50 w1 = Ok tt w2 /\
    GameState.trades (store w2) = [Trade.mk TradeBuy 60 100 50 t1] /\
    (50 * 100 = 5000)%float /\
    GameState.cash (store w2) = 5000%float /\
    GameState.position (store w2) = Some (Position.mk 50 100 60) /\
    skip w2 = Ok tt w3 /\
    sell 100 w3 = Ok tt w4 /\
    GameState.trades (store w4) =
      [Trade.mk TradeBuy 60 100 50 t1; Trade.mk TradeSell (60 + 2) 105 50 t2] /\
    (50 * 105 = 5250)%float /\
    GameState.cash (store w4) = 10250%float /\
    GameState.position (store w4) = None /\
    GameState.holdingPeriods (store w4) =
      [HoldingPeriod.mk 60 (Some (60 + 2)) 100 (Some 105%float)].
Proof.
  apply (round_trip_scenario freshWorld scenarioStock 60 (scenarioBar 60) (scenarioBar 62));
    vm_compute; reflexivity.
Defined.

(** ** Facts about binary64 arithmetic *)

Section SpecNonneg.
Variables prec emax : Z.






End SpecNonneg.




(** ** Loops of the indicator library *)

Lemma In_zrange (i lo hi : Z) : In i (zrange lo hi) <-> lo <= i < hi.
Proof.
  unfold zrange. rewrite in_map_iff. split.
  - intros (k & <- & Hk). apply in_seq in Hk. lia.
  - intros H. exists (Z.to_nat (i - lo)). split; [lia|]. apply in_seq. lia.
Qed.

Lemma length_zrange (lo hi : Z) : len (zrange lo hi) = Z.max 0 (hi - lo).
Proof. unfold len, zrange. rewrite length_map, length_seq. lia. Qed.

Lemma zrange_empty (lo hi : Z) : hi <= lo -> zrange lo hi = [].
Proof.
  intros H. unfold zrange. replace (Z.to_nat (hi - lo)) with 0%nat by lia. reflexivity.
Qed.

Lemma zrange_cons (lo hi : Z) : lo < hi -> zrange lo hi = lo :: zrange (lo + 1) hi.
Proof.
  intros H. unfold zrange.
  replace (Z.to_nat (hi - lo)) with (S (Z.to_nat (hi - (lo + 1)))) by lia.
  cbn [seq map]. f_equal; [lia|].
  rewrite <- seq_shift, map_map. apply map_ext. intros k. lia.
Qed.

Lemma zrange_shift {A : Type} (f : Z -> A) (lo hi : Z) :
  map (fun i => f (i + 1)) (zrange lo hi) = map f (zrange (lo + 1) (hi + 1)).
Proof.
  unfold zrange. rewrite !map_map.
  replace (Z.to_nat (hi + 1 - (lo + 1))) with (Z.to_nat (hi - lo)) by lia.
  apply map_ext. intros k. f_equal. lia.
Qed.

Lemma nth_error_zrange (lo hi : Z) (k : nat) :
  (k < Z.to_nat (hi - lo))%nat -> nth_error (zrange lo hi) k = Some (lo + Z.of_nat k).
Proof.
  intros H. unfold zrange.
  rewrite nth_error_map, nth_error_seq.
  destruct (Nat.ltb_spec k (Z.to_nat (hi - lo))); [reflexivity | lia].
Qed.

(** The loop rule: an invariant indexed by the indices already visited. *)
Lemma forEach_invariant {S : Type} (Inv : list Z -> S -> Prop)
  (body : Z -> S -> Completion S) (indices : list Z) :
  (forall done i s, In i indices -> Inv done s ->
     exists s', body i s = Normal s' /\ Inv (done ++ [i]) s') ->
  forall s, Inv [] s ->
  exists s', forEach indices body s = Normal s' /\ Inv indices s'.
Proof.
  intros Hbody.
  assert (forall rest done, done ++ rest = indices ->
            forall s, Inv done s ->
            exists s', forEach rest body s = Normal s' /\ Inv indices s') as G.
  { induction rest as [|i rest IH]; intros done E s Hs.
    - rewrite app_nil_r in E. subst done. exists s. now split.
    - destruct (Hbody done i s) as (s1 & E1 & H1); [|exact Hs|].
      + rewrite <- E. apply in_or_app. right. now left.
      + cbn [forEach]. rewrite E1. cbn [andThen].
        apply (IH (done ++ [i])); [|exact H1].
        rewrite <- app_assoc. exact E. }
  intros s Hs. now apply (G indices []).
Qed.

Lemma element_in_range {A : Type} (l : list A) (i : Z) :
  0 <= i < len l -> exists a, element l i = Normal a /\ at_index l i = Some a.
Proof.
  intros H. destruct (at_index_in_range l i H) as [a E].
  exists a. unfold element. now rewrite E.
Qed.

(** A loop whose body completes at every index completes. *)
Lemma forEach_runs {S : Type} (body : Z -> S -> Completion S) (indices : list Z)
  (s0 : S) :
  (forall i s, In i indices -> exists s', body i s = Normal s') ->
  exists s', forEach indices body s0 = Normal s'.
Proof.
  intros Hbody.
  destruct (forEach_invariant (fun _ _ => True) body indices) with (s := s0)
    as (s' & E & _); [| exact I | eauto].
  intros done i s Hi _. destruct (Hbody i s Hi) as [s' E]. eauto.
Qed.

(** Runs the first loop of the goal that reads [bars] inside the array. *)
Ltac run_reads bars :=
  match goal with
  | |- context [forEach ?indices ?body ?a0] =>
      let E := fresh "E" in
      let a := fresh "acc" in
      assert (exists a, forEach indices body a0 = Normal a) as [a E];
      [ apply forEach_runs;
        let j := fresh "j" in
        let Hj := fresh "Hj" in
        intros j ? Hj; apply In_zrange in Hj;
        match goal with
        | |- context [element bars ?k] =>
            let H := fresh in
            destruct (element_in_range bars k) as (? & H & _);
            [lia | rewrite H; cbn [andThen]; eauto]
        end
      | rewrite E; cbn [andThen] ]
  end.

Lemma timeAt_defined (bars : list OHLCVBar.t) (i : Z) (b : OHLCVBar.t) :
  at_index bars i = Some b -> timeAt bars i = OHLCVBar.time b.
Proof. unfold timeAt. now intros ->. Qed.

Lemma aligned_of_times (first : Z) (bars : list OHLCVBar.t) (out : list LineData.t) :
  0 <= first ->
  map LineData.time out = map (timeAt bars) (zrange first (len bars)) ->
  alignedFrom first bars out.
Proof.
  intros Hf E.
  assert (len out = Z.max 0 (len bars - first)) as L.
  { rewrite <- length_zrange. unfold len.
    rewrite <- (length_map LineData.time out), E, length_map. reflexivity. }
  split; [exact L|]. intros k Hk.
  destruct (at_index_in_range out k Hk) as [d Hd].
  destruct (at_index_in_range bars (first + k)) as [b Hb]; [lia|].
  exists d, b. repeat split; try assumption.
  apply (f_equal (fun l => nth_error l (Z.to_nat k))) in E.
  rewrite !nth_error_map, nth_error_zrange in E by lia.
  unfold at_index in Hd. destruct (k <? 0) eqn:K; [apply Z.ltb_lt in K; lia|].
  rewrite Hd in E. cbn in E. injection E as ->.
  replace (first + Z.of_nat (Z.to_nat k)) with (first + k) by lia.
  now apply timeAt_defined.
Qed.

(** ** Alignment of the indicators *)

Lemma calculateSMA_times (bars : list OHLCVBar.t) (period : Z) :
  1 <= period ->
  exists out, calculateSMA bars period = Normal out /\
              map LineData.time out =
              map (timeAt bars) (zrange (period - 1) (len bars)).
Proof.
  intros Hp. unfold calculateSMA.
  apply (forEach_invariant
           (fun done result => map LineData.time result = map (timeAt bars) done));
    [|reflexivity].
  intros done i result Hi Inv. apply In_zrange in Hi.
  unfold windowSum. run_reads bars.
  destruct (element_in_range bars i) as (b & -> & Hb); [lia|].
  cbn [andThen]. eexists. split; [reflexivity|].
  rewrite !map_app, Inv. cbn. now rewrite (timeAt_defined _ _ _ Hb).
Qed.

Lemma calculateBollingerBands_times (Math_pow : num -> num -> num)
  (Math_sqrt : num -> num) (bars : list OHLCVBar.t) (period : Z) (k : num) :
  1 <= period ->
  exists bands,
    calculateBollingerBands Math_pow Math_sqrt bars period k = Normal bands /\
    map LineData.time (BollingerBands.upper bands) =
      map (timeAt bars) (zrange (period - 1) (len bars)) /\
    map LineData.time (BollingerBands.middle bands) =
      map (timeAt bars) (zrange (period - 1) (len bars)) /\
    map LineData.time (BollingerBands.lower bands) =
      map (timeAt bars) (zrange (period - 1) (len bars)).
Proof.
  intros Hp. unfold calculateBollingerBands.
  apply (forEach_invariant
           (fun done bands =>
              map LineData.time (BollingerBands.upper bands) = map (timeAt bars) done /\
              map LineData.time (BollingerBands.middle bands) = map (timeAt bars) done /\
              map LineData.time (BollingerBands.lower bands) = map (timeAt bars) done));
    [|repeat split].
  intros done i bands Hi (I1 & I2 & I3). apply In_zrange in Hi.
  unfold windowSum. run_reads bars. run_reads bars.
  destruct (element_in_range bars i) as (b & -> & Hb); [lia|].
  cbn [andThen]. eexists. split; [reflexivity|].
  cbn. rewrite !map_app, I1, I2, I3. cbn. now rewrite (timeAt_defined _ _ _ Hb).
Qed.

Lemma calculateEMA_times (bars : list OHLCVBar.t) (period : Z) :
  1 <= period <= len bars ->
  exists out, calculateEMA bars period = Normal out /\
              map LineData.time out =
              map (timeAt bars) (zrange (period - 1) (len bars)).
Proof.
  intros Hp. unfold calculateEMA.
  run_reads bars.
  destruct (element_in_range bars (period - 1)) as (seed & -> & Hseed); [lia|].
  cbn [andThen].
  match goal with
  | |- context [forEach ?idx ?body ?s0] =>
      destruct (forEach_invariant
                  (fun done st =>
                     map LineData.time (snd st) =
                     timeAt bars (period - 1) :: map (timeAt bars) done)
                  body idx) with (s := s0) as (final & -> & Inv)
  end.
  - intros done i st Hi Inv. apply In_zrange in Hi.
    destruct (element_in_range bars i) as (b & -> & Hb); [lia|].
    cbn [andThen]. eexists. split; [reflexivity|].
    cbn [snd]. rewrite !map_app, Inv. cbn. now rewrite (timeAt_defined _ _ _ Hb).
  - cbn. now rewrite (timeAt_defined _ _ _ Hseed).
  - cbn [andThen]. eexists. split; [reflexivity|].
    rewrite Inv, (zrange_cons (period - 1)) by lia. cbn [map].
    now replace (period - 1 + 1) with period by lia.
Qed.

Lemma priceChanges_length (bars : list OHLCVBar.t) :
  exists gl, priceChanges bars = Normal gl /\
             len (fst gl) = Z.max 0 (len bars - 1) /\
             len (snd gl) = Z.max 0 (len bars - 1).
Proof.
  unfold priceChanges.
  match goal with
  | |- context [forEach ?idx ?body ?s0] =>
      destruct (forEach_invariant
                  (fun done gl => len (fst gl) = len done /\ len (snd gl) = len done)
                  body idx) with (s := s0) as (gl & E & I1 & I2)
  end.
  - intros done i gl Hi (I1 & I2). apply In_zrange in Hi.
    destruct (element_in_range bars i) as (b & -> & _); [lia|].
    destruct (element_in_range bars (i - 1)) as (p & -> & _); [lia|].
    cbn [andThen]. eexists. split; [reflexivity|].
    cbn [fst snd]. unfold len in *. rewrite !length_app. cbn. lia.
  - split; reflexivity.
  - exists gl. rewrite length_zrange in I1, I2. repeat split; assumption.
Qed.

Lemma rsiPoints_runs (bars : list OHLCVBar.t) (period : Z) :
  0 <= period < len bars ->
  exists pts, rsiPoints bars period = Normal pts /\
              map LineData.time (map RsiPoint.point pts) =
                map (timeAt bars) (zrange period (len bars)) /\
              Forall (fun p => LineData.value (RsiPoint.point p) =
                               rsiValue (RsiPoint.avgGain p) (RsiPoint.avgLoss p)) pts.
Proof.
  intros Hp. unfold rsiPoints.
  destruct (priceChanges_length bars) as (gl & -> & Lg & _). cbn [andThen].
  destruct (element_in_range bars period) as (first & -> & Hfirst); [lia|].
  cbn [andThen].
  match goal with
  | |- context [forEach ?idx ?body ?s0] =>
      destruct (forEach_invariant
                  (fun done st =>
                     map LineData.time (map RsiPoint.point (snd st)) =
                       timeAt bars period :: map (fun i => timeAt bars (i + 1)) done /\
                     Forall (fun p => LineData.value (RsiPoint.point p) =
                                      rsiValue (RsiPoint.avgGain p) (RsiPoint.avgLoss p))
                            (snd st))
                  body idx) with (s := s0) as (final & -> & Inv & Val)
  end.
  - intros done i st Hi (Inv & Val). apply In_zrange in Hi.
    destruct (element_in_range bars (i + 1)) as (b & -> & Hb); [lia|].
    cbn [andThen]. eexists. split; [reflexivity|].
    cbn [snd]. split.
    + rewrite !map_app, Inv. cbn. now rewrite (timeAt_defined _ _ _ Hb).
    + apply Forall_app. split; [exact Val|]. constructor; [reflexivity | constructor].
  - cbn. split.
    + now rewrite (timeAt_defined _ _ _ Hfirst).
    + constructor; [reflexivity | constructor].
  - cbn [andThen]. eexists. split; [reflexivity|]. split; [|exact Val].
    rewrite Inv, zrange_shift, (zrange_cons period) by lia. cbn [map].
    f_equal. f_equal. f_equal. lia.
Qed.

(** C6 (as amended).  For every bar list and every period >= 1: SMA and the
    three Bollinger series hold one value per bar index period-1, period, ...
    (the first value is aligned at bar index period-1 and nothing exists
    before it), and they are empty when there are fewer than period bars; EMA,
    given at least period bars, is aligned from bar index period-1 in the same
    way; RSI, given more than period bars, is aligned from bar index period
    (one bar later: it needs period price changes). *)
Theorem indicator_alignment (Math_pow : num -> num -> num) (Math_sqrt : num -> num)
  (bars : list OHLCVBar.t) (period : Z) (stdDevMultiplier : num) :
  1 <= period ->
  (exists out, calculateSMA bars period = Normal out /\
               alignedFrom (period - 1) bars out /\
               (len bars < period -> out = [])) /\
  (exists bands,
     calculateBollingerBands Math_pow Math_sqrt bars period stdDevMultiplier
       = Normal bands /\
     alignedFrom (period - 1) bars (BollingerBands.upper bands) /\
     alignedFrom (period - 1) bars (BollingerBands.middle bands) /\
     alignedFrom (period - 1) bars (BollingerBands.lower bands) /\
     (len bars < period -> bands = BollingerBands.mk [] [] [])) /\
  (period <= len bars ->
   exists out, calculateEMA bars period = Normal out /\
               alignedFrom (period - 1) bars out) /\
  (period < len bars ->
   exists out, calculateRSI bars period = Normal out /\
               alignedFrom period bars out).
Proof.
  intros Hp. repeat match goal with |- _ /\ _ => split end.
  - destruct (calculateSMA_times bars period Hp) as (out & E & T).
    exists out. split; [exact E|]. split; [apply aligned_of_times; [lia | exact T]|].
    intros Hshort. unfold calculateSMA in E.
    rewrite (zrange_empty (period - 1)) in E by lia. cbn in E. congruence.
  - destruct (calculateBollingerBands_times Math_pow Math_sqrt bars period
                stdDevMultiplier Hp) as (bands & E & T1 & T2 & T3).
    exists bands. split; [exact E|].
    repeat split; try (apply aligned_of_times; [lia | assumption]).
    intros Hshort. unfold calculateBollingerBands in E.
    rewrite (zrange_empty (period - 1)) in E by lia. cbn in E. congruence.
  - intros Hlen. destruct (calculateEMA_times bars period) as (out & E & T); [lia|].
    exists out. split; [exact E|]. apply aligned_of_times; [lia | exact T].
  - intros Hlen. destruct (rsiPoints_runs bars period) as (pts & E & T & _); [lia|].
    exists (map RsiPoint.point pts). split.
    + unfold calculateRSI. now rewrite E.
    + apply aligned_of_times; [lia | exact T].
Qed.

Lemma indicator_alignment_witness :
  (exists out, calculateSMA rising3 2 = Normal out /\
               alignedFrom (2 - 1) rising3 out /\
               (len rising3 < 2 -> out = [])) /\
  (exists bands,
     calculateBollingerBands samplePow sampleSqrt rising3 2 2%float = Normal bands /\
     alignedFrom (2 - 1) rising3 (BollingerBands.upper bands) /\
     alignedFrom (2 - 1) rising3 (BollingerBands.middle bands) /\
     alignedFrom (2 - 1) rising3 (BollingerBands.lower bands) /\
     (len rising3 < 2 -> bands = BollingerBands.mk [] [] [])) /\
  (2 <= len rising3 ->
   exists out, calculateEMA rising3 2 = Normal out /\
               alignedFrom (2 - 1) rising3 out) /\
  (2 < len rising3 ->
   exists out, calculateRSI rising3 2 = Normal out /\
               alignedFrom 2 rising3 out).
Proof.
  apply (indicator_alignment samplePow sampleSqrt rising3 2 2%float). lia.
Defined.

(** C6, the claim as stated fails for RSI: with period 2 on three bars the
    only RSI value carries the time of bar index 2 (= period), not of bar
    index 1 (= period-1); and with a single bar, fewer than period, EMA and
    RSI do not return an empty series but abort with a TypeError. *)
Lemma rsi_first_value_is_at_index_period :
  calculateRSI rising3 2 = Normal [LineData.mk "d2" rsiAtZeroLoss] /\
  at_index rising3 (2 - 1) = Some (bar "d1" 2%float) /\
  ~ alignedFrom (2 - 1) rising3 [LineData.mk "d2" rsiAtZeroLoss] /\
  calculateEMA oneBar 2 = TypeError /\
  calculateRSI oneBar 2 = TypeError.
Proof.
  repeat match goal with |- _ /\ _ => split end; try (vm_compute; reflexivity).
  intros [L _]. vm_compute in L. discriminate.
Qed.

(** ** RSI when the average loss is zero *)

(** Every value emitted by calculateRSI is 100 - 100/(1 + rs) for the
    averages current at that bar, and whenever the (seed or smoothed) average
    loss equals zero, rs is taken to be 100, so the emitted value is
    100 - 100/101 (about 99.0099), which is below 100. *)
Lemma rsi_value_at_zero_average_loss (bars : list OHLCVBar.t) (period : Z)
  (pts : list RsiPoint.t) (p : RsiPoint.t) :
  rsiPoints bars period = Normal pts ->
  In p pts ->
  (RsiPoint.avgLoss p =? 0)%float = true ->
  calculateRSI bars period = Normal (map RsiPoint.point pts) /\
  In (RsiPoint.point p) (map RsiPoint.point pts) /\
  LineData.value (RsiPoint.point p) = rsiAtZeroLoss /\
  (rsiAtZeroLoss =? 100)%float = false /\
  (rsiAtZeroLoss <? 100)%float = true.
Proof.
  intros E Hin Hzero.
  assert (Forall (fun p => LineData.value (RsiPoint.point p) =
                           rsiValue (RsiPoint.avgGain p) (RsiPoint.avgLoss p)) pts) as Val.
  { revert E. unfold rsiPoints.
    destruct (priceChanges bars) as [gl|]; [|discriminate]. cbn [andThen].
    destruct (element bars period) as [first|]; [|discriminate]. cbn [andThen].
    match goal with
    | |- context [forEach ?idx ?body ?s0] =>
        assert (forall indices s,
                  Forall (fun p => LineData.value (RsiPoint.point p) =
                                   rsiValue (RsiPoint.avgGain p) (RsiPoint.avgLoss p))
                         (snd s) ->
                  forall s', forEach indices body s = Normal s' ->
                  Forall (fun p => LineData.value (RsiPoint.point p) =
                                   rsiValue (RsiPoint.avgGain p) (RsiPoint.avgLoss p))
                         (snd s')) as Loop
    end.
    { induction indices as [|i rest IH]; intros s Hs s' Hrun.
      - cbn in Hrun. now injection Hrun as <-.
      - cbn [forEach] in Hrun.
        destruct (element bars (i + 1)) as [b|]; [|discriminate].
        cbn [andThen] in Hrun. apply IH in Hrun; [exact Hrun|].
        cbn [snd]. apply Forall_app. split; [exact Hs|].
        constructor; [reflexivity | constructor]. }
    destruct (forEach _ _ _) as [final|] eqn:Hrun; [|discriminate].
    cbn [andThen]. intros [= <-]. eapply Loop; [|exact Hrun].
    cbn. constructor; [reflexivity | constructor]. }
  split; [unfold calculateRSI; now rewrite E|].
  split; [now apply in_map|].
  split; [|split; reflexivity].
  rewrite Forall_forall in Val. rewrite (Val p Hin).
  unfold rsiValue. rewrite Hzero. reflexivity.
Qed.

Lemma rsi_value_at_zero_average_loss_example :
  calculateRSI rising3 2 =
    Normal (map RsiPoint.point
              [RsiPoint.mk 1 0 (LineData.mk "d2" rsiAtZeroLoss)]) /\
  In (LineData.mk "d2" rsiAtZeroLoss)
     (map RsiPoint.point [RsiPoint.mk 1 0 (LineData.mk "d2" rsiAtZeroLoss)]) /\
  LineData.value (LineData.mk "d2" rsiAtZeroLoss) = rsiAtZeroLoss /\
  (rsiAtZeroLoss =? 100)%float = false /\
  (rsiAtZeroLoss <? 100)%float = true.
Proof.
  apply (rsi_value_at_zero_average_loss rising3 2
           [RsiPoint.mk 1 0 (LineData.mk "d2" rsiAtZeroLoss)]
           (RsiPoint.mk 1 0 (LineData.mk "d2" rsiAtZeroLoss))).
  - vm_compute. reflexivity.
  - now left.
  - reflexivity.
Defined.

(** C7, evaluated on the code.  On three rising closes (1, 2, 3) with
    period 2 both price changes are gains, so the seed average loss is zero;
    the guard sets rs, not the RSI, to 100, and the value emitted for the bar
    is 100 - 100/101, not 100. *)
Theorem rsi_is_not_100_at_zero_average_loss :
  rsiPoints rising3 2 =
    Normal [RsiPoint.mk 1 0 (LineData.mk "d2" rsiAtZeroLoss)] /\
  calculateRSI rising3 2 = Normal [LineData.mk "d2" rsiAtZeroLoss] /\
  (rsiAtZeroLoss =? 100)%float = false /\
  (rsiAtZeroLoss <? 100)%float = true.
Proof. vm_compute. repeat split. Qed.

(** ** VWAP *)










(** ** The end of a turn, explicitly *)

Lemma calculateOutcome_outcomeFor (w : World) :
  calculateOutcome w = Throw w \/
  exists o, calculateOutcome w = Ok o w /\ outcomeFor (store w) o.
Proof.
  unfold calculateOutcome, outcomeFor, bind, get.
  destruct (GameState.currentStock (store w)) as [stock|]; [|right; eauto].
  destruct (at_index (StockData.bars stock) (GameState.currentBarIndex (store w) + 1))
    as [nb|]; [|right; eauto].
  destruct (at_index (StockData.bars stock) (GameState.currentBarIndex (store w)))
    as [cb|]; cbn; [|now left].
  right. eexists. split; [reflexivity|]. exists cb. split; reflexivity.
Qed.

Lemma finishTurn_scored (action : ActionType) (countsTrade : bool) (dt : Z) (w : World) :
  finishTurn action countsTrade dt w = Throw w \/
  exists o,
    outcomeFor (store w) o /\
    finishTurn action countsTrade dt w =
    Ok tt (mkWorld (turnScored action countsTrade dt (clock w (reads w)) o (store w))
                   (clock w) (S (reads w))).
Proof.
  unfold finishTurn, bind.
  destruct (calculateOutcome_outcomeFor w) as [E | (o & E & Ho)]; rewrite E.
  - now left.
  - right. exists o. split; [exact Ho|]. destruct o as [o|]; reflexivity.
Qed.

Lemma skip_scored (w : World) :
  skip w = Ok tt w \/
  (completed (skip w) = false /\
   store (worldAfter (skip w)) = GameState.with_lastAction (Some Skip) (store w)) \/
  (exists dt now o,
     outcomeFor (GameState.with_lastAction (Some Skip) (store w)) o /\
     completed (skip w) = true /\
     store (worldAfter (skip w)) =
       turnScored Skip false dt now o (GameState.with_lastAction (Some Skip) (store w))).
Proof.
  rewrite skip_unfold.
  destruct (GameState.currentStock (store w)) as [stock|]; [|now left].
  right.
  destruct (decisionTimeOf_reads (store w) w) as (dt & n & E).
  unfold bind. rewrite E. cbn [set store clock reads].
  destruct (finishTurn_scored Skip false dt
              (mkWorld (GameState.with_lastAction (Some Skip) (store w)) (clock w) n))
    as [T | (o & Ho & E')].
  - left. rewrite T. now split.
  - right. rewrite E'. exists dt, (clock w n), o. repeat split. exact Ho.
Qed.

Lemma buy_scored (percentage : num) (w : World) :
  buy percentage w = Ok tt w \/
  buy percentage w = Throw w \/
  (exists stock cb dt t now o,
     GameState.currentStock (store w) = Some stock /\
     at_index (StockData.bars stock) (GameState.currentBarIndex (store w)) = Some cb /\
     (GameState.cash (store w) <=? 0)%float = false /\
     outcomeFor (buyTrade percentage (OHLCVBar.close cb) t (store w)) o /\
     completed (buy percentage w) = true /\
     store (worldAfter (buy percentage w)) =
       turnScored Buy true dt now o
         (buyTrade percentage (OHLCVBar.close cb) t (store w))).
Proof.
  destruct (GameState.currentStock (store w)) as [stock|] eqn:Hs;
    [|left; rewrite buy_rejected; auto].
  destruct (percentage <=? 0)%float eqn:H1; [left; rewrite buy_rejected; auto|].
  destruct (100 <? percentage)%float eqn:H2; [left; rewrite buy_rejected; auto|].
  destruct (GameState.cash (store w) <=? 0)%float eqn:H3;
    [left; rewrite buy_rejected; auto|].
  destruct (at_index (StockData.bars stock) (GameState.currentBarIndex (store w)))
    as [cb|] eqn:Hb.
  - right. right.
    destruct (buy_unfold percentage w stock cb Hs H1 H2 H3 Hb) as (dt & t & n & E).
    rewrite E.
    destruct (finishTurn_runs Buy true dt
                (mkWorld (buyTrade percentage (OHLCVBar.close cb) t (store w)) (clock w) n)
                stock cb Hs Hb) as (w' & Erun & _).
    destruct (finishTurn_scored Buy true dt
                (mkWorld (buyTrade percentage (OHLCVBar.close cb) t (store w)) (clock w) n))
      as [T | (o & Ho & E')]; [congruence|].
    rewrite E'. exists stock, cb, dt, t, (clock w n), o. repeat split; assumption.
  - right. left. unfold buy, bind, get. rewrite Hs, H1, H2, H3, Hb. reflexivity.
Qed.

Lemma sell_scored (percentage : num) (w : World) :
  sell percentage w = Ok tt w \/
  sell percentage w = Throw w \/
  (exists stock position cb dt t now o,
     GameState.currentStock (store w) = Some stock /\
     GameState.position (store w) = Some position /\
     (Position.shares position <=? 0)%float = false /\
     at_index (StockData.bars stock) (GameState.currentBarIndex (store w)) = Some cb /\
     outcomeFor (sellTrade percentage (OHLCVBar.close cb) t position (store w)) o /\
     completed (sell percentage w) = true /\
     store (worldAfter (sell percentage w)) =
       turnScored Sell true dt now o
         (sellTrade percentage (OHLCVBar.close cb) t position (store w))).
Proof.
  destruct (GameState.currentStock (store w)) as [stock|] eqn:Hs;
    [|left; rewrite sell_rejected; auto].
  destruct (percentage <=? 0)%float eqn:H1; [left; rewrite sell_rejected; auto|].
  destruct (100 <? percentage)%float eqn:H2; [left; rewrite sell_rejected; auto|].
  destruct (GameState.position (store w)) as [position|] eqn:Hp;
    [|left; rewrite sell_rejected; auto].
  destruct (Position.shares position <=? 0)%float eqn:H3;
    [left; rewrite sell_rejected; eauto 8|].
  destruct (at_index (StockData.bars stock) (GameState.currentBarIndex (store w)))
    as [cb|] eqn:Hb.
  - right. right.
    destruct (sell_unfold percentage w stock position cb Hs H1 H2 Hp H3 Hb)
      as (dt & t & n & E).
    rewrite E.
    destruct (finishTurn_runs Sell true dt
                (mkWorld (sellTrade percentage (OHLCVBar.close cb) t position (store w))
                         (clock w) n)
                stock cb Hs Hb) as (w' & Erun & _).
    destruct (finishTurn_scored Sell true dt
                (mkWorld (sellTrade percentage (OHLCVBar.close cb) t position (store w))
                         (clock w) n))
      as [T | (o & Ho & E')]; [congruence|].
    rewrite E'. exists stock, position, cb, dt, t, (clock w n), o.
    repeat split; assumption.
  - right. left. unfold sell, bind, get. rewrite Hs, H1, H2, Hp, H3, Hb. reflexivity.
Qed.

Lemma revealOf_cases (stock : StockData.t) (w : World) :
  revealOf stock w = Throw w \/
  exists first last,
    at_index (StockData.bars stock) 0 = Some first /\
    at_index (StockData.bars stock) (len (StockData.bars stock) - 1) = Some last /\
    revealOf stock w = Ok (metadataOf stock first last) w.
Proof.
  unfold revealOf, bind.
  destruct (at_index (StockData.bars stock) 0) as [first|]; cbn; [|now left].
  destruct (at_index (StockData.bars stock) (len (StockData.bars stock) - 1))
    as [last|]; cbn; [|now left].
  right. exists first, last. repeat split.
Qed.

Lemma bind_Ok {A B : Type} (c : M A) (k : A -> M B) (w w' : World) (a : A) :
  c w = Ok a w' -> bind c k w = k a w'.
Proof. unfold bind. now intros ->. Qed.

Lemma bind_Throw {A B : Type} (c : M A) (k : A -> M B) (w w' : World) :
  c w = Throw w' -> bind c k w = Throw w'.
Proof. unfold bind. now intros ->. Qed.

Lemma switchStock_cases (w : World) :
  (GameState.currentStock (store w) = None /\ switchStock w = Ok tt w) \/
  (completed (switchStock w) = false /\ store (worldAfter (switchStock w)) = store w) \/
  (exists stock position cb first last now,
     GameState.currentStock (store w) = Some stock /\
     holdsShares (GameState.position (store w)) = Some position /\
     at_index (StockData.bars stock) (GameState.currentBarIndex (store w)) = Some cb /\
     at_index (StockData.bars stock) 0 = Some first /\
     at_index (StockData.bars stock) (len (StockData.bars stock) - 1) = Some last /\
     completed (switchStock w) = true /\
     store (worldAfter (switchStock w)) =
       liquidated position (OHLCVBar.close cb) now (metadataOf stock first last) (store w)) \/
  (exists stock first last,
     GameState.currentStock (store w) = Some stock /\
     holdsShares (GameState.position (store w)) = None /\
     at_index (StockData.bars stock) 0 = Some first /\
     at_index (StockData.bars stock) (len (StockData.bars stock) - 1) = Some last /\
     switchStock w =
       Ok tt (mkWorld (GameState.with_showRevealCard true
                         (GameState.with_revealedStock
                            (Some (metadataOf stock first last)) (store w)))
                      (clock w) (reads w))).
Proof.
  remember (switchStock w) as r eqn:Hr.
  unfold switchStock in Hr.
  rewrite (bind_Ok get _ w w (store w) eq_refl) in Hr.
  destruct (GameState.currentStock (store w)) as [stock|] eqn:Hs.
  - right. destruct (holdsShares (GameState.position (store w))) as [p|] eqn:Hh.
    + destruct (at_index (StockData.bars stock) (GameState.currentBarIndex (store w)))
        as [cb|] eqn:Hb.
      * rewrite (bind_Ok _ _ w w cb eq_refl) in Hr.
        rewrite (bind_Ok dateNow _ w (mkWorld (store w) (clock w) (S (reads w)))
                   (clock w (reads w)) eq_refl) in Hr.
        destruct (revealOf_cases stock (mkWorld (store w) (clock w) (S (reads w))))
          as [E | (first & last & Hf & Hl & E)].
        -- rewrite (bind_Throw _ _ _ _ E) in Hr. subst r. left. split; reflexivity.
        -- rewrite (bind_Ok _ _ _ _ _ E) in Hr. subst r.
           right. left. exists stock, p, cb, first, last, (clock w (reads w)).
           repeat split; assumption.
      * rewrite (bind_Throw (defined (A := OHLCVBar.t) None) _ w w eq_refl) in Hr.
        subst r. left. split; reflexivity.
    + destruct (revealOf_cases stock w) as [E | (first & last & Hf & Hl & E)].
      * rewrite (bind_Throw _ _ _ _ E) in Hr. subst r. left. split; reflexivity.
      * rewrite (bind_Ok _ _ _ _ _ E) in Hr. subst r.
        right. right. exists stock, first, last. repeat split; assumption.
  - left. split; [reflexivity|].
    subst r. destruct (holdsShares (GameState.position (store w))); reflexivity.
Qed.

(** ** Counters and logs *)

Lemma decided_recordStats (isWin : option bool) (stats : SessionStats.t) :
  decided (recordStats isWin stats) = decided stats + 1.
Proof. unfold decided. destruct isWin as [[|]|]; cbn; lia. Qed.

Lemma len_snoc {A : Type} (l : list A) (x : A) : len (l ++ [x]) = len l + 1.
Proof. unfold len. rewrite length_app. cbn. lia. Qed.

Lemma inSession_turnScored (startIndex : Z) (before : SessionStats.t)
  (action : ActionType) (dt now : Z) (o : option TurnOutcome.t) (s : GameState.t) :
  inSession startIndex before s ->
  inSession startIndex before (turnScored action false dt now o s).
Proof.
  intros (H1 & H2 & H3 & H4 & H5 & H6). unfold inSession.
  destruct o as [o|]; cbn; rewrite ?decided_recordStats, ?len_snoc;
    unfold decided in *; cbn; repeat split; try lia.
  all: destruct (TurnOutcome.isWin o) as [[|]|]; cbn; lia.
Qed.

Lemma inSession_traded (startIndex : Z) (before : SessionStats.t)
  (action : ActionType) (dt now : Z) (o : option TurnOutcome.t) (s s1 : GameState.t)
  (trade : Trade.t) :
  inSession startIndex before s ->
  GameState.currentBarIndex s1 = GameState.currentBarIndex s ->
  GameState.turnNumber s1 = GameState.turnNumber s ->
  GameState.sessionStats s1 = GameState.sessionStats s ->
  GameState.turnOutcomes s1 = GameState.turnOutcomes s ->
  GameState.trades s1 = GameState.trades s ++ [trade] ->
  inSession startIndex before (turnScored action true dt now o s1).
Proof.
  intros (H1 & H2 & H3 & H4 & H5 & H6) E1 E2 E3 E4 E5. unfold inSession.
  destruct o as [o|]; cbn; rewrite E1, E2, E3, E4, E5, ?len_snoc;
    unfold decided in *; cbn; repeat split; try lia.
  all: destruct (TurnOutcome.isWin o) as [[|]|]; cbn; lia.
Qed.

Lemma inSession_exec (startIndex : Z) (before : SessionStats.t) (op : Op) (w : World) :
  isLoad op = false ->
  inSession startIndex before (store w) ->
  inSession startIndex before (store (worldAfter (exec op w))).
Proof.
  intros Hop H. destruct op as [stock i | | | pct | pct]; [discriminate | | | |];
    cbn [exec].
  - destruct (switchStock_cases w)
      as [[_ E] | [[_ E] | [(stock & p & cb & first & last & now & _ & _ & _ & _ & _ & _ & E)
                           | (stock & first & last & _ & _ & _ & _ & E)]]];
      rewrite E; try exact H.
    destruct H as (H1 & H2 & H3 & H4 & H5 & H6). unfold inSession, liquidated. cbn.
    rewrite len_snoc. unfold decided in *. cbn. repeat split; lia.
  - destruct (skip_scored w) as [E | [[_ E] | (dt & now & o & _ & _ & E)]]; rewrite E.
    + exact H.
    + exact H.
    + apply inSession_turnScored. exact H.
  - destruct (buy_scored pct w)
      as [E | [E | (stock & cb & dt & t & now & o & _ & _ & _ & _ & _ & E)]];
      rewrite E; try exact H.
    eapply inSession_traded; try exact H; reflexivity.
  - destruct (sell_scored pct w)
      as [E | [E | (stock & p & cb & dt & t & now & o & _ & _ & _ & _ & _ & _ & E)]];
      rewrite E; try exact H.
    eapply inSession_traded; try exact H; reflexivity.
Qed.

Lemma inSession_loadStock (stock : StockData.t) (startIndex : Z) (w : World) :
  inSession startIndex (GameState.sessionStats (store w))
            (store (worldAfter (exec (OpLoad stock startIndex) w))).
Proof. unfold inSession, decided. cbn. repeat split; lia. Qed.

Lemma run_snoc (ops : list Op) (op : Op) (w : World) :
  run (ops ++ [op]) w = worldAfter (exec op (run ops w)).
Proof. unfold run. now rewrite fold_left_app. Qed.

Lemma inSession_run (stock : StockData.t) (startIndex : Z) (ops : list Op) (w : World) :
  Forall (fun op => isLoad op = false) ops ->
  inSession startIndex (GameState.sessionStats (store w))
            (store (run ops (worldAfter (exec (OpLoad stock startIndex) w)))).
Proof.
  induction ops as [|op ops IH] using rev_ind; intros Hops.
  - apply inSession_loadStock.
  - apply Forall_app in Hops as [Hops Hop]. inversion Hop as [|? ? Hl _]; subst.
    rewrite run_snoc. apply inSession_exec; auto.
Qed.

Lemma turnScored_turnNumber (action : ActionType) (countsTrade : bool)
  (dt now : Z) (o : option TurnOutcome.t) (s : GameState.t) :
  GameState.turnNumber (turnScored action countsTrade dt now o s) =
    GameState.turnNumber s + 1.
Proof. destruct o, countsTrade; reflexivity. Qed.

Lemma turnNumber_exec (op : Op) (w : World) :
  isLoad op = false ->
  GameState.turnNumber (store (worldAfter (exec op w))) <=
    GameState.turnNumber (store w) + 1.
Proof.
  intros Hop. destruct op as [stock i | | | pct | pct]; [discriminate | | | |];
    cbn [exec].
  - destruct (switchStock_cases w)
      as [[_ E] | [[_ E] | [(stock & p & cb & first & last & now & _ & _ & _ & _ & _ & _ & E)
                           | (stock & first & last & _ & _ & _ & _ & E)]]];
      rewrite E; cbn; lia.
  - destruct (skip_scored w) as [E | [[_ E] | (dt & now & o & _ & _ & E)]]; rewrite E;
      rewrite ?turnScored_turnNumber; cbn; lia.
  - destruct (buy_scored pct w)
      as [E | [E | (stock & cb & dt & t & now & o & _ & _ & _ & _ & _ & E)]];
      rewrite E; rewrite ?turnScored_turnNumber; cbn; lia.
  - destruct (sell_scored pct w)
      as [E | [E | (stock & p & cb & dt & t & now & o & _ & _ & _ & _ & _ & _ & E)]];
      rewrite E; rewrite ?turnScored_turnNumber; cbn; lia.
Qed.

Lemma turnNumber_run (stock : StockData.t) (startIndex : Z) (ops : list Op) (w : World) :
  Forall (fun op => isLoad op = false) ops ->
  GameState.turnNumber
    (store (run ops (worldAfter (exec (OpLoad stock startIndex) w)))) <= len ops.
Proof.
  induction ops as [|op ops IH] using rev_ind; intros Hops.
  - cbn. lia.
  - apply Forall_app in Hops as [Hops Hop]. inversion Hop as [|? ? Hl _]; subst.
    rewrite run_snoc, len_snoc.
    pose proof (turnNumber_exec op
                  (run ops (worldAfter (exec (OpLoad stock startIndex) w))) Hl).
    specialize (IH Hops). lia.
Qed.

(** After an instrument is loaded at an integer [startIndex], whatever
    sequence of Skip, Buy, Sell and SwitchInstrument calls follows (accepted,
    rejected or throwing), as long as the start index and the number of calls
    together stay within 2^53 (where the increments of the bar index and of
    the turn number are exact): the current bar index is the start index plus
    the turn number, the turn number is between zero and the number of calls,
    and the bar index is still within 2^53 in magnitude. *)
Theorem bar_index_is_start_plus_turn_number
  (stock : StockData.t) (startIndex : Z) (ops : list Op) (w : World) :
  Forall (fun op => isLoad op = false) ops ->
  Z.abs startIndex + len ops <= MAX_EXACT_INTEGER ->
  let s := store (run ops (worldAfter (exec (OpLoad stock startIndex) w))) in
  GameState.currentBarIndex s = startIndex + GameState.turnNumber s /\
  0 <= GameState.turnNumber s <= len ops /\
  Z.abs (GameState.currentBarIndex s) <= MAX_EXACT_INTEGER.
Proof.
  intros Hops Hbound.
  destruct (inSession_run stock startIndex ops w Hops) as (H1 & H2 & _).
  pose proof (turnNumber_run stock startIndex ops w Hops) as H3.
  cbv zeta. rewrite H1. repeat split; try assumption. lia.
Qed.

Lemma bar_index_is_start_plus_turn_number_witness :
  let s := store (run [OpBuy 50; OpSkip; OpSell 100]
                      (worldAfter (exec (OpLoad sampleStock 0) freshWorld))) in
  GameState.currentBarIndex s = 0 + GameState.turnNumber s /\
  0 <= GameState.turnNumber s <= len [OpBuy 50; OpSkip; OpSell 100] /\
  Z.abs (GameState.currentBarIndex s) <= MAX_EXACT_INTEGER.
Proof.
  apply (bar_index_is_start_plus_turn_number sampleStock 0
           [OpBuy 50; OpSkip; OpSell 100] freshWorld).
  - repeat constructor.
  - vm_compute. discriminate.
Defined.

(** Since the last load, whatever Skip, Buy, Sell and SwitchInstrument calls
    were made: totalTurns grew by the turn number, totalTrades by the number
    of trades in the trade log, wins + losses + flats by the number of
    recorded outcomes, and there is at most one outcome per turn. *)
Theorem session_counters_match_logs
  (stock : StockData.t) (startIndex : Z) (ops : list Op) (w : World) :
  Forall (fun op => isLoad op = false) ops ->
  let before := GameState.sessionStats (store w) in
  let s := store (run ops (worldAfter (exec (OpLoad stock startIndex) w))) in
  SessionStats.totalTurns (GameState.sessionStats s) =
    SessionStats.totalTurns before + GameState.turnNumber s /\
  SessionStats.totalTrades (GameState.sessionStats s) =
    SessionStats.totalTrades before + len (GameState.trades s) /\
  decided (GameState.sessionStats s) =
    decided before + len (GameState.turnOutcomes s) /\
  len (GameState.turnOutcomes s) <= GameState.turnNumber s.
Proof.
  intros Hops.
  destruct (inSession_run stock startIndex ops w Hops) as (_ & _ & H3 & H4 & H5 & H6).
  repeat split; assumption.
Qed.

Lemma session_counters_match_logs_witness :
  let before := GameState.sessionStats (store freshWorld) in
  let s := store (run [OpBuy 50; OpSkip; OpSwitch]
                      (worldAfter (exec (OpLoad sampleStock 0) freshWorld))) in
  SessionStats.totalTurns (GameState.sessionStats s) =
    SessionStats.totalTurns before + GameState.turnNumber s /\
  SessionStats.totalTrades (GameState.sessionStats s) =
    SessionStats.totalTrades before + len (GameState.trades s) /\
  decided (GameState.sessionStats s) =
    decided before + len (GameState.turnOutcomes s) /\
  len (GameState.turnOutcomes s) <= GameState.turnNumber s.
Proof.
  apply (session_counters_match_logs sampleStock 0 [OpBuy 50; OpSkip; OpSwitch]
           freshWorld).
  repeat constructor.
Defined.

(** ** Skip *)

(** Skip never touches the instrument, the cash, the position, the trade log,
    the holding periods or the trade counter, in whatever state it is called
    and however it ends (rejected, completed, or aborted by a TypeError). *)
Theorem skip_never_trades (w : World) :
  let s := store w in
  let s' := store (worldAfter (skip w)) in
  GameState.currentStock s' = GameState.currentStock s /\
  GameState.cash s' = GameState.cash s /\
  GameState.position s' = GameState.position s /\
  GameState.trades s' = GameState.trades s /\
  GameState.holdingPeriods s' = GameState.holdingPeriods s /\
  SessionStats.totalTrades (GameState.sessionStats s') =
    SessionStats.totalTrades (GameState.sessionStats s).
Proof.
  cbn zeta.
  destruct (skip_scored w) as [E | [[_ E] | (dt & now & o & _ & _ & E)]]; rewrite E.
  - repeat split.
  - repeat split.
  - destruct o as [o|]; cbn; repeat split.
    all: destruct (TurnOutcome.isWin o) as [[|]|]; reflexivity.
Qed.

(** ** The recorded outcome *)

Lemma scored_outcome (action : ActionType) (countsTrade : bool) (dt now : Z)
  (o' : option TurnOutcome.t) (s1 : GameState.t) (before : list TurnOutcome.t)
  (o : TurnOutcome.t) :
  outcomeFor s1 o' ->
  GameState.turnOutcomes s1 = before ->
  GameState.turnOutcomes (turnScored action countsTrade dt now o' s1) = before ++ [o] ->
  exists stock cb nb,
    GameState.currentStock s1 = Some stock /\
    at_index (StockData.bars stock) (GameState.currentBarIndex s1) = Some cb /\
    at_index (StockData.bars stock) (GameState.currentBarIndex s1 + 1) = Some nb /\
    o = TurnOutcome.with_action action (outcomeOf s1 cb nb) /\
    o' = Some (outcomeOf s1 cb nb).
Proof.
  intros Hfor Hbefore Hout. destruct o' as [o''|].
  - cbn in Hout. rewrite Hbefore in Hout. apply app_inj_tail in Hout as [_ Ho].
    unfold outcomeFor in Hfor.
    destruct (GameState.currentStock s1) as [stock|] eqn:Hs; [|discriminate].
    destruct (at_index (StockData.bars stock) (GameState.currentBarIndex s1 + 1))
      as [nb|] eqn:Hnb; [|discriminate].
    destruct Hfor as (cb & Hcb & [= ->]). subst o.
    exists stock, cb, nb. repeat split; auto.
  - cbn in Hout. rewrite Hbefore in Hout. now apply not_self_snoc in Hout.
Qed.

(** What a completed turn that records an outcome looks like: the store it
    traded into, and the outcome it scored there. *)
Lemma recorded_turn (op : Op) (w w' : World) (o : TurnOutcome.t) :
  isTurn op = true ->
  exec op w = Ok tt w' ->
  GameState.turnOutcomes (store w') = GameState.turnOutcomes (store w) ++ [o] ->
  exists s1 countsTrade dt now stock cb nb,
    store w' = turnScored (actionOf op) countsTrade dt now
                 (Some (outcomeOf s1 cb nb)) s1 /\
    o = TurnOutcome.with_action (actionOf op) (outcomeOf s1 cb nb) /\
    GameState.currentStock (store w) = Some stock /\
    at_index (StockData.bars stock) (GameState.currentBarIndex (store w)) = Some cb /\
    at_index (StockData.bars stock) (GameState.currentBarIndex (store w) + 1) = Some nb /\
    GameState.currentBarIndex s1 = GameState.currentBarIndex (store w) /\
    GameState.turnNumber s1 = GameState.turnNumber (store w) /\
    GameState.sessionStats s1 = GameState.sessionStats (store w) /\
    GameState.lastAction s1 = Some (actionOf op).
Proof.
  intros Hturn Hexec Hout.
  assert (store (worldAfter (exec op w)) = store w') as Hw by now rewrite Hexec.
  assert (store w' = store w -> False) as Hsame.
  { intros E. rewrite E in Hout. now apply not_self_snoc in Hout. }
  destruct op as [stock i | | | pct | pct]; try discriminate; cbn [exec] in *.
  - destruct (skip_scored w) as [E | [[_ E] | (dt & now & o' & Ho & _ & E)]];
      rewrite E in Hw.
    + now elim Hsame.
    + rewrite <- Hw in Hout. cbn in Hout. now apply not_self_snoc in Hout.
    + rewrite <- Hw in Hout.
      destruct (scored_outcome _ _ _ _ _ _ _ _ Ho eq_refl Hout)
        as (stock & cb & nb & Hs & Hcb & Hnb & -> & ->).
      exists (GameState.with_lastAction (Some Skip) (store w)), false, dt, now,
        stock, cb, nb.
      repeat split; auto.
  - destruct (buy_scored pct w)
      as [E | [E | (stock0 & cb0 & dt & t & now & o' & _ & _ & _ & Ho & _ & E)]];
      rewrite E in Hw.
    + now elim Hsame.
    + now elim Hsame.
    + rewrite <- Hw in Hout.
      destruct (scored_outcome _ _ _ _ _ _ _ _ Ho eq_refl Hout)
        as (stock & cb & nb & Hs & Hcb & Hnb & -> & ->).
      exists (buyTrade pct (OHLCVBar.close cb0) t (store w)), true, dt, now,
        stock, cb, nb.
      repeat split; auto.
  - destruct (sell_scored pct w)
      as [E | [E | (stock0 & p & cb0 & dt & t & now & o' & _ & _ & _ & _ & Ho & _ & E)]];
      rewrite E in Hw.
    + now elim Hsame.
    + now elim Hsame.
    + rewrite <- Hw in Hout.
      destruct (scored_outcome _ _ _ _ _ _ _ _ Ho eq_refl Hout)
        as (stock & cb & nb & Hs & Hcb & Hnb & -> & ->).
      exists (sellTrade pct (OHLCVBar.close cb0) t p (store w)), true, dt, now,
        stock, cb, nb.
      repeat split; auto.
Qed.

(** The outcome recorded by a completed Skip, Buy or Sell describes the bar
    the decision was made on, not the bar the chart advanced to: it carries
    the turn number and bar index from before the operation, the operation's
    own action, the close of that bar and of the next one, the direction
    between the two, and a verdict that is null exactly when the direction is
    flat. Both of its position fields hold the position after the trade, and
    it becomes the store's last outcome. *)
Theorem recorded_outcome_describes_decision_bar
  (op : Op) (w w' : World) (o : TurnOutcome.t) :
  isTurn op = true ->
  exec op w = Ok tt w' ->
  GameState.turnOutcomes (store w') = GameState.turnOutcomes (store w) ++ [o] ->
  TurnOutcome.turnNumber o = GameState.turnNumber (store w) /\
  TurnOutcome.barIndex o = GameState.currentBarIndex (store w) /\
  TurnOutcome.action o = actionOf op /\
  TurnOutcome.positionBeforeAction o = GameState.position (store w') /\
  TurnOutcome.positionAfterAction o = GameState.position (store w') /\
  GameState.lastOutcome (store w') = Some o /\
  exists stock cb nb,
    GameState.currentStock (store w) = Some stock /\
    at_index (StockData.bars stock) (GameState.currentBarIndex (store w)) = Some cb /\
    at_index (StockData.bars stock) (GameState.currentBarIndex (store w) + 1) = Some nb /\
    TurnOutcome.priceAtAction o = OHLCVBar.close cb /\
    TurnOutcome.priceNextBar o = OHLCVBar.close nb /\
    TurnOutcome.actualDirection o =
      getDirection (OHLCVBar.close cb) (OHLCVBar.close nb) /\
    TurnOutcome.isWin o =
      match TurnOutcome.actualDirection o with
      | Flat => None
      | d => Some (Direction_eqb (TurnOutcome.inferredPrediction o) d)
      end.
Proof.
  intros Hturn Hexec Hout.
  destruct (recorded_turn op w w' o Hturn Hexec Hout)
    as (s1 & ct & dt & now & stock & cb & nb & -> & -> & Hs & Hcb & Hnb & Hi & Hn & _ & _).
  cbn. rewrite Hi, Hn. repeat split.
  exists stock, cb, nb. repeat split; auto.
  destruct (getDirection (OHLCVBar.close cb) (OHLCVBar.close nb)); reflexivity.
Qed.

Lemma recorded_outcome_describes_decision_bar_witness :
  TurnOutcome.turnNumber boughtOutcome = GameState.turnNumber (store loadedWorld) /\
  TurnOutcome.barIndex boughtOutcome = GameState.currentBarIndex (store loadedWorld) /\
  TurnOutcome.action boughtOutcome = actionOf (OpBuy 50) /\
  TurnOutcome.positionBeforeAction boughtOutcome = GameState.position (store boughtWorld).
Proof.
  destruct (recorded_outcome_describes_decision_bar (OpBuy 50) loadedWorld boughtWorld
              boughtOutcome) as (H1 & H2 & H3 & H4 & _).
  - reflexivity.
  - apply completed_worldAfter. vm_compute. reflexivity.
  - vm_compute. reflexivity.
  - repeat split; assumption.
Defined.

(** A completed turn whose recorded direction is flat is neither a win nor a
    loss: its verdict is null, [flats] grows by one, and wins, losses and the
    three streak fields are what they were before the operation, whichever of
    Skip, Buy or Sell was played. *)
Theorem flat_turn_is_neither_win_nor_loss
  (op : Op) (w w' : World) (o : TurnOutcome.t) :
  isTurn op = true ->
  exec op w = Ok tt w' ->
  GameState.turnOutcomes (store w') = GameState.turnOutcomes (store w) ++ [o] ->
  TurnOutcome.actualDirection o = Flat ->
  let before := GameState.sessionStats (store w) in
  let after := GameState.sessionStats (store w') in
  TurnOutcome.isWin o = None /\
  SessionStats.flats after = SessionStats.flats before + 1 /\
  SessionStats.wins after = SessionStats.wins before /\
  SessionStats.losses after = SessionStats.losses before /\
  SessionStats.currentStreak after = SessionStats.currentStreak before /\
  SessionStats.bestStreak after = SessionStats.bestStreak before /\
  SessionStats.worstStreak after = SessionStats.worstStreak before.
Proof.
  intros Hturn Hexec Hout Hflat.
  destruct (recorded_turn op w w' o Hturn Hexec Hout)
    as (s1 & ct & dt & now & stock & cb & nb & -> & -> & _ & _ & _ & _ & _ & Hst & _).
  cbn in Hflat. cbn. rewrite Hflat, Hst. cbn.
  destruct ct; cbn; repeat split.
Qed.

Lemma flat_turn_is_neither_win_nor_loss_witness :
  let before := GameState.sessionStats (store flatWorld) in
  let after := GameState.sessionStats (store (worldAfter (exec OpSkip flatWorld))) in
  TurnOutcome.isWin flatOutcome = None /\
  SessionStats.flats after = SessionStats.flats before + 1 /\
  SessionStats.wins after = SessionStats.wins before /\
  SessionStats.losses after = SessionStats.losses before /\
  SessionStats.currentStreak after = SessionStats.currentStreak before /\
  SessionStats.bestStreak after = SessionStats.bestStreak before /\
  SessionStats.worstStreak after = SessionStats.worstStreak before.
Proof.
  apply (flat_turn_is_neither_win_nor_loss OpSkip flatWorld
           (worldAfter (exec OpSkip flatWorld)) flatOutcome).
  - reflexivity.
  - apply completed_worldAfter. vm_compute. reflexivity.
  - vm_compute. reflexivity.
  - reflexivity.
Defined.

(** ** Switching instrument *)

Lemma revealOf_runs (stock : StockData.t) (i : Z) (cb : OHLCVBar.t) (w : World) :
  at_index (StockData.bars stock) i = Some cb ->
  exists first last,
    at_index (StockData.bars stock) 0 = Some first /\
    at_index (StockData.bars stock) (len (StockData.bars stock) - 1) = Some last /\
    revealOf stock w = Ok (metadataOf stock first last) w.
Proof.
  intros Hcb. pose proof (at_index_nonneg _ _ _ Hcb) as R.
  destruct (revealOf_cases stock w) as [E | H]; [|exact H].
  exfalso. unfold revealOf, bind in E.
  destruct (at_index_in_range (StockData.bars stock) 0) as [first Hf]; [lia|].
  destruct (at_index_in_range (StockData.bars stock) (len (StockData.bars stock) - 1))
    as [last Hl]; [lia|].
  rewrite Hf in E. cbn in E. rewrite Hl in E. cbn in E. discriminate.
Qed.

Lemma closeLast_cases (hps : list HoldingPeriod.t) (barIndex : Z) (price : num) :
  hps = [] /\ closeLast hps barIndex price = [] \/
  exists earlier hp,
    hps = earlier ++ [hp] /\
    closeLast hps barIndex price =
      earlier ++
      [match HoldingPeriod.exitBarIndex hp with
       | None =>
           HoldingPeriod.mk (HoldingPeriod.entryBarIndex hp) (Some barIndex)
             (HoldingPeriod.entryPrice hp) (Some price)
       | Some _ => hp
       end].
Proof.
  destruct hps as [|hp0 rest] using rev_ind; [now left|]. clear IHrest.
  right. exists rest, hp0. split; [reflexivity|].
  unfold closeLast, mapi.
  rewrite (mapi_from_last _ (len (rest ++ [hp0]) - 1)).
  - rewrite Z.eqb_refl. destruct (HoldingPeriod.exitBarIndex hp0); reflexivity.
  - intros a idx Hne. apply Z.eqb_neq in Hne. now rewrite Hne.
  - unfold len. rewrite length_app. cbn. lia.
Qed.

(** SwitchInstrument with shares held, on a bar inside the instrument,
    liquidates the whole position at the current close: cash grows by
    shares times close, the position becomes null, one sell trade for all the
    shares is appended and counted, and the reveal card shows the outgoing
    instrument (ticker, first and last date, bar count).  The last holding
    period, when its exit is null, gets the current bar index and the current
    close as its exit; a last period that is already closed, and every earlier
    period, is left as it is.  The bar index, the turn number and the outcomes
    stay as they were: a switch is not a turn. *)
Theorem switchStock_liquidates_open_position
  (w : World) (stock : StockData.t) (p : Position.t) (cb : OHLCVBar.t) :
  GameState.currentStock (store w) = Some stock ->
  GameState.position (store w) = Some p ->
  (0 <? Position.shares p)%float = true ->
  at_index (StockData.bars stock) (GameState.currentBarIndex (store w)) = Some cb ->
  exists w' first last,
    switchStock w = Ok tt w' /\
    GameState.cash (store w') =
      (GameState.cash (store w) + Position.shares p * OHLCVBar.close cb)%float /\
    GameState.position (store w') = None /\
    GameState.trades (store w') =
      GameState.trades (store w) ++
      [Trade.mk TradeSell (GameState.currentBarIndex (store w)) (OHLCVBar.close cb)
                (Position.shares p) (clock w (reads w))] /\
    SessionStats.totalTrades (GameState.sessionStats (store w')) =
      SessionStats.totalTrades (GameState.sessionStats (store w)) + 1 /\
    (GameState.holdingPeriods (store w) = [] /\
     GameState.holdingPeriods (store w') = [] \/
     exists earlier hp,
       GameState.holdingPeriods (store w) = earlier ++ [hp] /\
       GameState.holdingPeriods (store w') =
         earlier ++
         [match HoldingPeriod.exitBarIndex hp with
          | None =>
              HoldingPeriod.mk (HoldingPeriod.entryBarIndex hp)
                (Some (GameState.currentBarIndex (store w)))
                (HoldingPeriod.entryPrice hp) (Some (OHLCVBar.close cb))
          | Some _ => hp
          end]) /\
    GameState.showRevealCard (store w') = true /\
    at_index (StockData.bars stock) 0 = Some first /\
    at_index (StockData.bars stock) (len (StockData.bars stock) - 1) = Some last /\
    GameState.revealedStock (store w') =
      Some (StockMetadata.mk (StockData.ticker stock) (StockData.name stock)
              (StockData.sector stock) (OHLCVBar.time first) (OHLCVBar.time last)
              (len (StockData.bars stock))) /\
    GameState.currentStock (store w') = Some stock /\
    GameState.currentBarIndex (store w') = GameState.currentBarIndex (store w) /\
    GameState.turnNumber (store w') = GameState.turnNumber (store w) /\
    GameState.turnOutcomes (store w') = GameState.turnOutcomes (store w) /\
    SessionStats.totalTurns (GameState.sessionStats (store w')) =
      SessionStats.totalTurns (GameState.sessionStats (store w)).
Proof.
  intros Hs Hp Hpos Hcb.
  assert (holdsShares (GameState.position (store w)) = Some p) as Hh.
  { unfold holdsShares. now rewrite Hp, Hpos. }
  destruct (revealOf_runs stock _ cb (mkWorld (store w) (clock w) (S (reads w))) Hcb)
    as (first & last & Hf & Hl & E).
  eexists _, first, last. split.
  - unfold switchStock.
    rewrite (bind_Ok get _ w w (store w) eq_refl), Hh, Hs, Hcb.
    rewrite (bind_Ok _ _ w w cb eq_refl).
    rewrite (bind_Ok dateNow _ w (mkWorld (store w) (clock w) (S (reads w)))
               (clock w (reads w)) eq_refl).
    rewrite (bind_Ok _ _ _ _ _ E). reflexivity.
  - cbn. repeat (split; [first [reflexivity | assumption]|]).
    split; [apply closeLast_cases|]. repeat split; assumption.
Qed.

Lemma switchStock_liquidates_open_position_witness :
  exists w' first last,
    switchStock boughtWorld = Ok tt w' /\
    GameState.cash (store w') =
      (GameState.cash (store boughtWorld) + 50 * 102)%float /\
    GameState.position (store w') = None /\
    GameState.trades (store w') =
      GameState.trades (store boughtWorld) ++
      [Trade.mk TradeSell (GameState.currentBarIndex (store boughtWorld)) 102 50
                (clock boughtWorld (reads boughtWorld))] /\
    SessionStats.totalTrades (GameState.sessionStats (store w')) =
      SessionStats.totalTrades (GameState.sessionStats (store boughtWorld)) + 1 /\
    (GameState.holdingPeriods (store boughtWorld) = [] /\
     GameState.holdingPeriods (store w') = [] \/
     exists earlier hp,
       GameState.holdingPeriods (store boughtWorld) = earlier ++ [hp] /\
       GameState.holdingPeriods (store w') =
         earlier ++
         [match HoldingPeriod.exitBarIndex hp with
          | None =>
              HoldingPeriod.mk (HoldingPeriod.entryBarIndex hp)
                (Some (GameState.currentBarIndex (store boughtWorld)))
                (HoldingPeriod.entryPrice hp) (Some 102%float)
          | Some _ => hp
          end]) /\
    GameState.showRevealCard (store w') = true /\
    at_index (StockData.bars sampleStock) 0 = Some first /\
    at_index (StockData.bars sampleStock) (len (StockData.bars sampleStock) - 1)
      = Some last /\
    GameState.revealedStock (store w') =
      Some (StockMetadata.mk (StockData.ticker sampleStock) (StockData.name sampleStock)
              (StockData.sector sampleStock) (OHLCVBar.time first) (OHLCVBar.time last)
              (len (StockData.bars sampleStock))) /\
    GameState.currentStock (store w') = Some sampleStock /\
    GameState.currentBarIndex (store w') = GameState.currentBarIndex (store boughtWorld) /\
    GameState.turnNumber (store w') = GameState.turnNumber (store boughtWorld) /\
    GameState.turnOutcomes (store w') = GameState.turnOutcomes (store boughtWorld) /\
    SessionStats.totalTurns (GameState.sessionStats (store w')) =
      SessionStats.totalTurns (GameState.sessionStats (store boughtWorld)).
Proof.
  apply (switchStock_liquidates_open_position boughtWorld sampleStock
           (Position.mk 50 100 0) (OHLCVBar.mk "2024-01-03" 100 103 99 102 1200));
    vm_compute; reflexivity.
Defined.

(** SwitchInstrument with no shares held (no position, or a position whose
    shares are not above zero) never touches the cash, the position, the
    trades, the holding periods, the statistics or the turn state: at most it
    shows the reveal card.  This holds also when it throws. *)
Theorem switchStock_without_shares_only_reveals (w : World) :
  holdsShares (GameState.position (store w)) = None ->
  let s := store w in
  let s' := store (worldAfter (switchStock w)) in
  GameState.currentStock s' = GameState.currentStock s /\
  GameState.currentBarIndex s' = GameState.currentBarIndex s /\
  GameState.cash s' = GameState.cash s /\
  GameState.position s' = GameState.position s /\
  GameState.trades s' = GameState.trades s /\
  GameState.holdingPeriods s' = GameState.holdingPeriods s /\
  GameState.turnOutcomes s' = GameState.turnOutcomes s /\
  GameState.turnNumber s' = GameState.turnNumber s /\
  GameState.sessionStats s' = GameState.sessionStats s /\
  (completed (switchStock w) = true ->
   GameState.currentStock s <> None ->
   GameState.showRevealCard s' = true /\ GameState.revealedStock s' <> None).
Proof.
  intros Hh. cbn zeta.
  destruct (switchStock_cases w)
    as [[Hn E] | [[Hc E] | [(stock & p & cb & first & last & now & _ & Hp & _)
                           | (stock & first & last & Hs & _ & _ & _ & E)]]].
  - rewrite E. repeat (split; [reflexivity|]). intros _ Hne. now elim Hne.
  - rewrite E. repeat (split; [reflexivity|]). intros Hcompleted. congruence.
  - congruence.
  - rewrite E. cbn. repeat (split; [reflexivity|]). discriminate.
Qed.

Lemma switchStock_without_shares_only_reveals_witness :
  let s := store loadedWorld in
  let s' := store (worldAfter (switchStock loadedWorld)) in
  GameState.currentStock s' = GameState.currentStock s /\
  GameState.currentBarIndex s' = GameState.currentBarIndex s /\
  GameState.cash s' = GameState.cash s /\
  GameState.position s' = GameState.position s /\
  GameState.trades s' = GameState.trades s /\
  GameState.holdingPeriods s' = GameState.holdingPeriods s /\
  GameState.turnOutcomes s' = GameState.turnOutcomes s /\
  GameState.turnNumber s' = GameState.turnNumber s /\
  GameState.sessionStats s' = GameState.sessionStats s /\
  (completed (switchStock loadedWorld) = true ->
   GameState.currentStock s <> None ->
   GameState.showRevealCard s' = true /\ GameState.revealedStock s' <> None).
Proof.
  apply (switchStock_without_shares_only_reveals loadedWorld). reflexivity.
Defined.

(** ** The history of holding periods *)

Lemma nth_error_mapi_from {A B : Type} (f : A -> Z -> B) (l : list A) (j : Z) (k : nat) :
  nth_error (mapi_from f j l) k =
  option_map (fun x => f x (j + Z.of_nat k)) (nth_error l k).
Proof.
  revert j k. induction l as [|x l IH]; intros j k.
  - destruct k; reflexivity.
  - destruct k as [|k]; cbn [mapi_from nth_error option_map].
    + f_equal. f_equal. lia.
    + rewrite IH. destruct (nth_error l k); cbn; [|reflexivity].
      f_equal. f_equal. lia.
Qed.

Lemma map_mapi_from {A B C : Type} (g : B -> C) (h : A -> C) (f : A -> Z -> B)
  (l : list A) (j : Z) :
  (forall x i, g (f x i) = h x) -> map g (mapi_from f j l) = map h l.
Proof.
  intros H. revert j. induction l as [|x l IH]; intros j; [reflexivity|].
  cbn. now rewrite H, IH.
Qed.

Lemma entries_closeLast (hps : list HoldingPeriod.t) (i : Z) (price : num) :
  entries (closeLast hps i price) = entries hps.
Proof.
  unfold entries, closeLast, mapi. apply map_mapi_from.
  intros hp idx. destruct (_ && _); reflexivity.
Qed.

Lemma closeLast_keeps_closed (hps : list HoldingPeriod.t) (i : Z) (price : num)
  (k : nat) (hp : HoldingPeriod.t) :
  nth_error hps k = Some hp -> isOpen hp = false ->
  nth_error (closeLast hps i price) k = Some hp.
Proof.
  intros Hk Hclosed. unfold closeLast, mapi. rewrite nth_error_mapi_from, Hk. cbn.
  unfold isOpen in Hclosed.
  destruct (HoldingPeriod.exitBarIndex hp); [|discriminate].
  now rewrite andb_false_r.
Qed.

(** The holding-period list is a history: no Skip, Buy, Sell or
    SwitchInstrument, however it ends, removes a period, changes the entry
    bar or entry price of one, or modifies a period that is already closed.
    Only a Buy can add a period, one at a time, entered at the bar index the
    Buy was made on. *)
Theorem holding_periods_are_a_history (op : Op) (w : World) :
  isLoad op = false ->
  let hps := GameState.holdingPeriods (store w) in
  let hps' := GameState.holdingPeriods (store (worldAfter (exec op w))) in
  (forall k hp, nth_error hps k = Some hp -> isOpen hp = false ->
                nth_error hps' k = Some hp) /\
  (entries hps' = entries hps \/
   exists percentage price,
     op = OpBuy percentage /\
     entries hps' = entries hps ++ [(GameState.currentBarIndex (store w), price)]).
Proof.
  intros Hop. cbn zeta.
  assert (forall s1 a ct dt now o,
            GameState.holdingPeriods (turnScored a ct dt now o s1) =
            GameState.holdingPeriods s1) as Hscored.
  { intros s1 a ct dt now [o|]; reflexivity. }
  destruct op as [stock i | | | pct | pct]; [discriminate | | | |]; cbn [exec].
  - destruct (switchStock_cases w)
      as [[_ E] | [[_ E] | [(stock & p & cb & first & last & now & _ & _ & _ & _ & _ & _ & E)
                           | (stock & first & last & _ & _ & _ & _ & E)]]];
      rewrite E; cbn; try (split; [auto | now left]).
    split; [|left; apply entries_closeLast].
    intros k hp Hk Hc. now apply closeLast_keeps_closed.
  - destruct (skip_scored w) as [E | [[_ E] | (dt & now & o & _ & _ & E)]];
      rewrite E, ?Hscored; cbn; (split; [auto | now left]).
  - destruct (buy_scored pct w)
      as [E | [E | (stock & cb & dt & t & now & o & _ & _ & _ & _ & _ & E)]];
      rewrite E, ?Hscored; cbn; try (split; [auto | now left]).
    destruct (match GameState.position (store w) with
              | Some p => (Position.shares p =? 0)%float
              | None => true
              end).
    + split.
      * intros k hp Hk _. rewrite nth_error_app1; [exact Hk|].
        apply nth_error_Some. congruence.
      * right. exists pct, (OHLCVBar.close cb). split; [reflexivity|].
        unfold entries. now rewrite map_app.
    + split; [auto | now left].
  - destruct (sell_scored pct w)
      as [E | [E | (stock & p & cb & dt & t & now & o & _ & _ & _ & _ & _ & _ & E)]];
      rewrite E, ?Hscored; cbn; try (split; [auto | now left]).
    destruct (0.0001 <? _)%float; cbn.
    + split; [auto | now left].
    + split; [|left; apply entries_closeLast].
      intros k hp Hk Hc. now apply closeLast_keeps_closed.
Qed.

Lemma holding_periods_are_a_history_witness :
  let hps := GameState.holdingPeriods (store loadedWorld) in
  let hps' := GameState.holdingPeriods (store (worldAfter (exec (OpBuy 50) loadedWorld))) in
  (forall k hp, nth_error hps k = Some hp -> isOpen hp = false ->
                nth_error hps' k = Some hp) /\
  (entries hps' = entries hps \/
   exists percentage price,
     OpBuy 50 = OpBuy percentage /\
     entries hps' = entries hps ++ [(GameState.currentBarIndex (store loadedWorld), price)]).
Proof.
  apply (holding_periods_are_a_history (OpBuy 50) loadedWorld). reflexivity.
Defined.

(** ** Sell *)

(** However a Sell ends, the position it leaves is either null or the old
    position with the same average cost and entry bar; and when the Sell
    changed the share count, more than 0.0001 shares remain: a Sell never
    leaves a dust position behind and never alters the cost basis. *)
Theorem sell_keeps_cost_basis_and_leaves_no_dust (percentage : num) (w : World) :
  let position' := GameState.position (store (worldAfter (sell percentage w))) in
  position' = None \/
  exists p p',
    GameState.position (store w) = Some p /\
    position' = Some p' /\
    Position.averageCost p' = Position.averageCost p /\
    Position.entryBarIndex p' = Position.entryBarIndex p /\
    (p' = p \/
     (Position.shares p' =
        (Position.shares p - Position.shares p * (percentage / 100))%float /\
      (0.0001 <? Position.shares p')%float = true)).
Proof.
  cbn zeta.
  assert (forall s1 a ct dt now o,
            GameState.position (turnScored a ct dt now o s1) = GameState.position s1)
    as Hscored.
  { intros s1 a ct dt now [o|]; reflexivity. }
  assert (GameState.position (store w) = None \/
          exists p, GameState.position (store w) = Some p) as Hcur.
  { destruct (GameState.position (store w)); eauto. }
  destruct (sell_scored percentage w)
    as [E | [E | (stock & p & cb & dt & t & now & o & _ & Hp & _ & _ & _ & _ & E)]];
    rewrite E, ?Hscored; cbn [worldAfter store].
  - destruct Hcur as [H | [p H]]; [now left|]. right. exists p, p. repeat split; auto.
  - destruct Hcur as [H | [p H]]; [now left|]. right. exists p, p. repeat split; auto.
  - unfold sellTrade. cbn.
    destruct (0.0001 <? _)%float eqn:Hrem; [|now left].
    right. eexists p, _. split; [exact Hp|]. split; [reflexivity|]. cbn.
    repeat split. right. split; [reflexivity | exact Hrem].
Qed.

(** ** Resetting *)


(** ** Direction *)

Lemma SFsub_self (x : spec_float) :
  SFsub prec emax x x = S754_nan \/ exists s, SFsub prec emax x x = S754_zero s.
Proof.
  destruct x as [s|s| |s m e].
  - right. destruct s; cbn; eauto.
  - left. destruct s; reflexivity.
  - now left.
  - right. exists false. cbn [SFsub]. rewrite Z.sub_diag. reflexivity.
Qed.

Lemma SFdiv_zero_l (s : bool) (x : spec_float) :
  SFdiv prec emax (S754_zero s) x = S754_nan \/
  exists s', SFdiv prec emax (S754_zero s) x = S754_zero s'.
Proof.
  destruct x as [sx|sx| |sx m e]; cbn; eauto.
Qed.

(** Two equal closes are always scored flat, whatever the value (zero,
    infinite and NaN included): the relative change is then a zero or NaN,
    and neither passes a threshold test. *)
Theorem getDirection_of_equal_closes_is_flat (close : num) :
  getDirection close close = Flat.
Proof.
  unfold getDirection.
  assert ((EPSILON <? (close - close) / close)%float = false /\
          ((close - close) / close <? - EPSILON)%float = false) as [-> ->];
    [|reflexivity].
  rewrite !FloatAxioms.ltb_spec, FloatAxioms.div_spec, FloatAxioms.sub_spec.
  unfold SF64div, SF64sub.
  destruct (SFsub_self (Prim2SF close)) as [-> | [s ->]].
  - cbn [SFdiv]. split; [|reflexivity].
    unfold SFltb, SFcompare. now destruct (Prim2SF EPSILON).
  - destruct (SFdiv_zero_l s (Prim2SF close)) as [-> | [s' ->]].
    + split; [|reflexivity]. unfold SFltb, SFcompare. now destruct (Prim2SF EPSILON).
    + split; vm_compute; reflexivity.
Qed.

(** ** Where the indicators return and where they throw *)

Lemma forEach_throws {S : Type} (body : Z -> S -> Completion S) (indices : list Z)
  (i : Z) (s0 : S) :
  In i indices -> (forall s, body i s = TypeError) ->
  forEach indices body s0 = TypeError.
Proof.
  intros Hin Hbody. revert s0. induction indices as [|j rest IH]; intros s0; [easy|].
  cbn [forEach]. destruct Hin as [-> | Hin].
  - now rewrite Hbody.
  - destruct (body j s0) as [s1|]; cbn [andThen]; [now apply IH | reflexivity].
Qed.

Lemma element_out_of_range {A : Type} (l : list A) (i : Z) :
  i < 0 \/ len l <= i -> element l i = TypeError.
Proof.
  intros H. unfold element.
  destruct (at_index l i) as [a|] eqn:E; [|reflexivity].
  apply at_index_nonneg in E. lia.
Qed.

Lemma returns_Normal {A : Type} (c : Completion A) :
  returns c = true <-> exists a, c = Normal a.
Proof.
  destruct c; cbn; split; eauto; try discriminate. intros [a H]. discriminate.
Qed.

Lemma calculateSMA_throws (bars : list OHLCVBar.t) (period : Z) :
  period <= 0 -> calculateSMA bars period = TypeError.
Proof.
  intros Hp. unfold calculateSMA.
  apply (forEach_throws _ _ (period - 1)).
  - apply In_zrange. unfold len. lia.
  - intros result. unfold windowSum. rewrite (zrange_empty 0 period) by lia.
    cbn [forEach andThen]. rewrite element_out_of_range by lia. reflexivity.
Qed.

Lemma calculateBollingerBands_throws (Math_pow : num -> num -> num)
  (Math_sqrt : num -> num) (bars : list OHLCVBar.t) (period : Z) (k : num) :
  period <= 0 -> calculateBollingerBands Math_pow Math_sqrt bars period k = TypeError.
Proof.
  intros Hp. unfold calculateBollingerBands.
  apply (forEach_throws _ _ (period - 1)).
  - apply In_zrange. unfold len. lia.
  - intros bands. unfold windowSum. rewrite (zrange_empty 0 period) by lia.
    cbn [forEach andThen]. rewrite element_out_of_range by lia. reflexivity.
Qed.

Lemma calculateEMA_throws (bars : list OHLCVBar.t) (period : Z) :
  period <= 0 \/ len bars < period -> calculateEMA bars period = TypeError.
Proof.
  intros [Hp | Hp]; unfold calculateEMA.
  - rewrite (zrange_empty 0 period) by lia. cbn [forEach andThen].
    rewrite element_out_of_range by lia. reflexivity.
  - rewrite (forEach_throws _ _ (len bars)); [reflexivity | |].
    + apply In_zrange. unfold len in *. lia.
    + intros s. rewrite element_out_of_range by lia. reflexivity.
Qed.

Lemma calculateRSI_throws (bars : list OHLCVBar.t) (period : Z) :
  period < 0 \/ len bars <= period -> calculateRSI bars period = TypeError.
Proof.
  intros Hp. unfold calculateRSI, rsiPoints.
  destruct (priceChanges_length bars) as (gl & -> & _). cbn [andThen].
  rewrite element_out_of_range by lia. reflexivity.
Qed.

(** Exactly where each period-taking indicator returns a series rather than
    aborting with a TypeError: SMA and Bollinger for every period >= 1 on any
    bar list (empty included); EMA when 1 <= period <= number of bars; RSI
    when 0 <= period < number of bars.  Everywhere else (a period of zero or
    below, or too few bars for EMA and RSI) the call throws. *)
Theorem indicators_return_exactly_on_their_domain
  (Math_pow : num -> num -> num) (Math_sqrt : num -> num)
  (bars : list OHLCVBar.t) (period : Z) (stdDevMultiplier : num) :
  (returns (calculateSMA bars period) = true <-> 1 <= period) /\
  (returns (calculateBollingerBands Math_pow Math_sqrt bars period stdDevMultiplier)
     = true <-> 1 <= period) /\
  (returns (calculateEMA bars period) = true <-> 1 <= period <= len bars) /\
  (returns (calculateRSI bars period) = true <-> 0 <= period < len bars).
Proof.
  repeat match goal with |- _ /\ _ => split end; split.
  - intros H. destruct (Z.le_gt_cases 1 period) as [Hp|Hp]; [exact Hp|].
    rewrite calculateSMA_throws in H by lia. discriminate.
  - intros Hp. apply returns_Normal.
    destruct (calculateSMA_times bars period Hp) as (out & E & _). eauto.
  - intros H. destruct (Z.le_gt_cases 1 period) as [Hp|Hp]; [exact Hp|].
    rewrite calculateBollingerBands_throws in H by lia. discriminate.
  - intros Hp. apply returns_Normal.
    destruct (calculateBollingerBands_times Math_pow Math_sqrt bars period
                stdDevMultiplier Hp) as (out & E & _). eauto.
  - intros H.
    destruct (Z.le_gt_cases 1 period) as [Hp|Hp];
      [destruct (Z.le_gt_cases period (len bars)) as [Hl|Hl]; [lia|]|];
      rewrite calculateEMA_throws in H by lia; discriminate.
  - intros Hp. apply returns_Normal.
    destruct (calculateEMA_times bars period Hp) as (out & E & _). eauto.
  - intros H.
    destruct (Z.le_gt_cases 0 period) as [Hp|Hp];
      [destruct (Z.lt_ge_cases period (len bars)) as [Hl|Hl]; [lia|]|];
      rewrite calculateRSI_throws in H by lia; discriminate.
  - intros Hp. apply returns_Normal.
    destruct (rsiPoints_runs bars period Hp) as (pts & E & _).
    unfold calculateRSI. rewrite E. cbn. eauto.
Qed.

(** ** Bollinger bands and the moving average *)

Lemma forEach_agree {S T : Type} (R : S -> T -> Prop)
  (body1 : Z -> S -> Completion S) (body2 : Z -> T -> Completion T)
  (indices : list Z) :
  (forall i s t, In i indices -> R s t -> agree R (body1 i s) (body2 i t)) ->
  forall s t, R s t -> agree R (forEach indices body1 s) (forEach indices body2 t).
Proof.
  induction indices as [|i rest IH]; intros Hbody s t HR; [exact HR|].
  cbn [forEach].
  pose proof (Hbody i s t (or_introl eq_refl) HR) as Hstep.
  destruct (body1 i s) as [s1|], (body2 i t) as [t1|]; cbn in Hstep |- *;
    try contradiction; [|exact I].
  apply IH; [|exact Hstep]. intros j s' t' Hj. apply Hbody. now right.
Qed.

Lemma combine_snoc {A B : Type} (l1 : list A) (l2 : list B) (x : A) (y : B) :
  List.length l1 = List.length l2 ->
  combine (l1 ++ [x]) (l2 ++ [y]) = combine l1 l2 ++ [(x, y)].
Proof.
  revert l2. induction l1 as [|a l1 IH]; intros [|b l2] H; try discriminate.
  - reflexivity.
  - cbn. f_equal. apply IH. now injection H.
Qed.

(** The middle Bollinger band is the simple moving average: for every bar
    list, period and multiplier, calculateBollingerBands throws exactly when
    calculateSMA does, and otherwise its middle series is the very series
    calculateSMA returns; the upper and lower series have one point per
    middle point, at the same time, placed symmetrically around it. *)
Theorem bollinger_middle_is_the_sma (Math_pow : num -> num -> num)
  (Math_sqrt : num -> num) (bars : list OHLCVBar.t) (period : Z)
  (stdDevMultiplier : num) :
  agree (fun bands sma =>
           BollingerBands.middle bands = sma /\
           List.length (BollingerBands.upper bands) = List.length sma /\
           List.length (BollingerBands.lower bands) = List.length sma /\
           Forall bandsAround
             (combine (BollingerBands.upper bands)
                      (combine (BollingerBands.middle bands)
                               (BollingerBands.lower bands))))
        (calculateBollingerBands Math_pow Math_sqrt bars period stdDevMultiplier)
        (calculateSMA bars period).
Proof.
  unfold calculateBollingerBands, calculateSMA.
  apply forEach_agree; [|cbn; repeat split; constructor].
  intros i bands result _ (Hm & Hu & Hl & Hall).
  destruct (windowSum bars i period) as [sum|] eqn:Hsum; cbn [andThen]; [|exact I].
  match goal with
  | |- context [forEach (zrange 0 period) ?body 0%float] =>
      assert (agree (fun _ _ => True) (forEach (zrange 0 period) body 0%float)
                    (windowSum bars i period)) as Hsq
  end.
  { unfold windowSum. apply forEach_agree; [|exact I].
    intros j s t _ _. cbn beta. destruct (element bars (i - j)); exact I. }
  rewrite Hsum in Hsq.
  destruct (forEach (zrange 0 period) _ 0%float) as [sq|]; [|contradiction].
  cbn [andThen].
  destruct (element bars i) as [b|]; cbn [andThen agree]; [|exact I].
  cbn [BollingerBands.upper BollingerBands.middle BollingerBands.lower].
  subst result. rewrite !length_app. cbn [List.length].
  repeat split; try lia.
  rewrite !combine_snoc by (rewrite ?length_combine; lia).
  apply Forall_app. split; [exact Hall|].
  constructor; [|constructor]. cbn. repeat split. eexists. split; reflexivity.
Qed.

(** ** MACD *)

Lemma at_index_nth_error {A : Type} (l : list A) (k : Z) :
  0 <= k -> at_index l k = nth_error l (Z.to_nat k).
Proof.
  intros H. unfold at_index. destruct (k <? 0) eqn:E; [apply Z.ltb_lt in E; lia|].
  reflexivity.
Qed.

Lemma map_at_zrange {A B : Type} (l : list A) (f : option A -> B) (g : A -> B) :
  (forall a, f (Some a) = g a) ->
  map (fun i => f (at_index l i)) (zrange 0 (len l)) = map g l.
Proof.
  intros Hfg. apply nth_error_ext. intros k.
  destruct (Nat.lt_ge_cases k (List.length l)) as [Hlt|Hge].
  - rewrite nth_error_map, nth_error_zrange by (unfold len; lia).
    cbn [option_map]. rewrite at_index_nth_error by lia.
    replace (Z.to_nat (0 + Z.of_nat k)) with k by lia.
    rewrite nth_error_map. destruct (nth_error l k) as [a|] eqn:E.
    + cbn. now rewrite Hfg.
    + apply nth_error_None in E. lia.
  - rewrite (proj2 (nth_error_None _ _)), (proj2 (nth_error_None _ _)); auto.
    + now rewrite length_map.
    + rewrite length_map. unfold zrange. rewrite length_map, length_seq.
      unfold len. lia.
Qed.

Lemma pointTimes_zrange (l : list LineData.t) :
  map (pointTimeAt l) (zrange 0 (len l)) = map LineData.time l.
Proof.
  apply (map_at_zrange l (fun o => match o with Some d => LineData.time d
                                              | None => EmptyString end)).
  reflexivity.
Qed.

Lemma nth_error_zrange_all (lo hi : Z) (k : nat) :
  nth_error (zrange lo hi) k =
  if (k <? Z.to_nat (hi - lo))%nat then Some (lo + Z.of_nat k) else None.
Proof.
  destruct (Nat.ltb_spec k (Z.to_nat (hi - lo))) as [H|H].
  - now apply nth_error_zrange.
  - apply nth_error_None. unfold zrange. rewrite length_map, length_seq. exact H.
Qed.

Lemma skipn_zrange (lo hi a : Z) :
  0 <= a -> skipn (Z.to_nat a) (zrange lo hi) = zrange (lo + a) hi.
Proof.
  intros Ha. apply nth_error_ext. intros k.
  rewrite nth_error_skipn, !nth_error_zrange_all.
  destruct (Nat.ltb_spec (Z.to_nat a + k) (Z.to_nat (hi - lo)));
    destruct (Nat.ltb_spec k (Z.to_nat (hi - (lo + a)))); try lia; [|reflexivity].
  f_equal. lia.
Qed.

Lemma at_index_skipn {A : Type} (l : list A) (a k : Z) :
  0 <= a -> 0 <= k -> at_index (skipn (Z.to_nat a) l) k = at_index l (k + a).
Proof.
  intros Ha Hk. rewrite !at_index_nth_error by lia. rewrite nth_error_skipn.
  f_equal. lia.
Qed.

Lemma len_skipn {A : Type} (l : list A) (a : Z) :
  0 <= a -> len (skipn (Z.to_nat a) l) = Z.max 0 (len l - a).
Proof. intros Ha. unfold len. rewrite length_skipn. lia. Qed.

Lemma len_of_times {A B : Type} (f : A -> string) (g : B -> string)
  (l : list A) (l' : list B) :
  map f l = map g l' -> len l = len l'.
Proof.
  intros H. apply (f_equal (@List.length string)) in H.
  rewrite !length_map in H. unfold len. lia.
Qed.

Lemma emaSeries (bars : list OHLCVBar.t) (period : Z) :
  1 <= period <= len bars ->
  exists out, calculateEMA bars period = Normal out /\
              map LineData.time out =
                map (timeAt bars) (zrange (period - 1) (len bars)) /\
              len out = len bars - period + 1.
Proof.
  intros Hp. destruct (calculateEMA_times bars period Hp) as (out & E & T).
  exists out. repeat split; auto.
  rewrite (len_of_times _ _ _ _ T), length_zrange. lia.
Qed.

(** The MACD line proper: one point per slow-EMA point, at its time. *)
Lemma macdLine_loop (fastEMA slowEMA : list LineData.t) (offset : Z) :
  0 <= offset -> len fastEMA = len slowEMA + offset ->
  exists macdLine,
    forEach (zrange 0 (len slowEMA))
      (fun i macdLine =>
         fast <- element fastEMA (i + offset) ;;
         slow <- element slowEMA i ;;
         Normal (macdLine ++
                   [LineData.mk (LineData.time slow)
                                (LineData.value fast - LineData.value slow)%float]))
      [] = Normal macdLine /\
    map LineData.time macdLine = map LineData.time slowEMA.
Proof.
  intros Ho Hlen.
  match goal with
  | |- context [forEach ?idx ?body ?s0] =>
      destruct (forEach_invariant
                  (fun done macdLine =>
                     map LineData.time macdLine = map (pointTimeAt slowEMA) done)
                  body idx) with (s := s0) as (macdLine & E & Inv)
  end.
  - intros done i macdLine Hi Inv. apply In_zrange in Hi.
    destruct (element_in_range fastEMA (i + offset)) as (f & -> & _); [lia|].
    destruct (element_in_range slowEMA i) as (s & -> & Hs); [lia|].
    cbn [andThen]. eexists. split; [reflexivity|].
    rewrite !map_app, Inv. cbn. unfold pointTimeAt. now rewrite Hs.
  - reflexivity.
  - exists macdLine. split; [exact E|]. now rewrite Inv, pointTimes_zrange.
Qed.

Lemma map_zrange_at {A B : Type} (f : A -> B) (g : Z -> B) (l : list A) (lo hi k : Z)
  (x : A) :
  map f l = map g (zrange lo hi) -> at_index l k = Some x -> f x = g (lo + k).
Proof.
  intros E Hx. pose proof (at_index_nonneg _ _ _ Hx) as Hk.
  rewrite at_index_nth_error in Hx by lia.
  apply (f_equal (fun l => nth_error l (Z.to_nat k))) in E.
  rewrite !nth_error_map, Hx, nth_error_zrange_all in E.
  destruct (Nat.ltb_spec (Z.to_nat k) (Z.to_nat (hi - lo))); cbn in E; [|discriminate].
  injection E as ->. f_equal. lia.
Qed.

Lemma at_index_map_zrange {B : Type} (g : Z -> B) (lo hi k : Z) :
  0 <= k < hi - lo -> at_index (map g (zrange lo hi)) k = Some (g (lo + k)).
Proof.
  intros Hk. rewrite at_index_nth_error by lia.
  rewrite nth_error_map, nth_error_zrange by lia. cbn. do 2 f_equal. lia.
Qed.

Lemma pointTimeAt_at (l : list LineData.t) (i : Z) (d : LineData.t) :
  at_index l i = Some d -> pointTimeAt l i = LineData.time d.
Proof. intros H. unfold pointTimeAt. now rewrite H. Qed.

Lemma pointValueAt_at (l : list LineData.t) (i : Z) (d : LineData.t) :
  at_index l i = Some d -> pointValueAt l i = LineData.value d.
Proof. intros H. unfold pointValueAt. now rewrite H. Qed.

Lemma calculateMACD_series (bars : list OHLCVBar.t)
  (fastPeriod slowPeriod signalPeriod : Z) :
  1 <= fastPeriod <= slowPeriod ->
  1 <= signalPeriod ->
  slowPeriod + signalPeriod - 1 <= len bars ->
  exists m,
    calculateMACD bars fastPeriod slowPeriod signalPeriod = Normal m /\
    macdConsistent m /\
    alignedFrom (slowPeriod + signalPeriod - 2) bars (MACD.macdLine m) /\
    len (MACD.macdLine m) = len bars - slowPeriod - signalPeriod + 2.
Proof.
  intros Hf Hs Hlen. unfold calculateMACD.
  destruct (emaSeries bars fastPeriod) as (fastEMA & -> & _ & Lf); [lia|].
  destruct (emaSeries bars slowPeriod) as (slowEMA & -> & Tslow & Ls); [lia|].
  cbn [andThen].
  destruct (macdLine_loop fastEMA slowEMA (slowPeriod - fastPeriod))
    as (macd & -> & Tm); [lia | lia |].
  cbn [andThen].
  assert (len macd = len bars - slowPeriod + 1) as Lm.
  { rewrite (len_of_times _ _ _ _ Tm). exact Ls. }
  run_reads macd.
  destruct (element_in_range macd (signalPeriod - 1)) as (seed & -> & Hseed); [lia|].
  cbn [andThen].
  match goal with
  | |- context [forEach ?idx ?body ?s0] =>
      destruct (forEach_invariant
                  (fun done st =>
                     map LineData.time (snd st) =
                     pointTimeAt macd (signalPeriod - 1) :: map (pointTimeAt macd) done)
                  body idx) with (s := s0) as (final & -> & Inv)
  end.
  { intros done i st Hi Inv. apply In_zrange in Hi.
    destruct (element_in_range macd i) as (m & -> & Hm); [lia|].
    cbn [andThen]. eexists. split; [reflexivity|].
    cbn [snd]. rewrite !map_app, Inv. cbn [map LineData.time].
    now rewrite (pointTimeAt_at _ _ _ Hm). }
  { cbn [snd map LineData.time]. now rewrite (pointTimeAt_at _ _ _ Hseed). }
  cbn [andThen].
  assert (map LineData.time (snd final) =
          map (pointTimeAt macd) (zrange (signalPeriod - 1) (len macd))) as Ts.
  { rewrite Inv, (zrange_cons (signalPeriod - 1)) by lia. cbn [map].
    now replace (signalPeriod - 1 + 1) with signalPeriod by lia. }
  assert (len (snd final) = len macd - signalPeriod + 1) as Lsig.
  { rewrite (len_of_times _ _ _ _ Ts), length_zrange. lia. }
  match goal with
  | |- context [forEach ?idx ?body ?s0] =>
      destruct (forEach_invariant
                  (fun done hist =>
                     hist = map (histogramBar macd (snd final) (signalPeriod - 1)) done)
                  body idx) with (s := s0) as (hist & -> & Hhist)
  end.
  { intros done i h Hi Inv'. apply In_zrange in Hi.
    destruct (element_in_range macd (i + (signalPeriod - 1))) as (m & -> & Hm); [lia|].
    destruct (element_in_range (snd final) i) as (s & -> & Hsg); [lia|].
    cbn [andThen]. eexists. split; [reflexivity|].
    rewrite map_app, Inv'. cbn [map]. unfold histogramBar.
    now rewrite (pointValueAt_at _ _ _ Hm), (pointValueAt_at _ _ _ Hsg),
      (pointTimeAt_at _ _ _ Hsg). }
  { reflexivity. }
  cbn [andThen]. eexists. split; [reflexivity|].
  cbn [MACD.macdLine MACD.signalLine MACD.histogram].
  unfold sliceFrom.
  destruct (signalPeriod - 1 <? 0) eqn:Hneg; [apply Z.ltb_lt in Hneg; lia|].
  assert (len (skipn (Z.to_nat (signalPeriod - 1)) macd) =
          len bars - slowPeriod - signalPeriod + 2) as Lres.
  { rewrite len_skipn by lia. lia. }
  split; [|split; [|exact Lres]].
  - unfold macdConsistent.
    cbn [MACD.macdLine MACD.signalLine MACD.histogram].
    assert (len hist = len (snd final)) as Lh.
    { rewrite Hhist. unfold len at 1. rewrite length_map.
      fold (len (zrange 0 (len (snd final)))). rewrite length_zrange. lia. }
    repeat split; try lia.
    intros k Hk. rewrite Lres in Hk.
    destruct (at_index_in_range macd (k + (signalPeriod - 1))) as [m Hm]; [lia|].
    destruct (at_index_in_range (snd final) k) as [s Hsg]; [lia|].
    exists m, s, (histogramBar macd (snd final) (signalPeriod - 1) k).
    rewrite at_index_skipn by lia.
    repeat split; auto.
    + rewrite Hhist. rewrite at_index_map_zrange by lia. do 2 f_equal.
    + rewrite (map_zrange_at _ _ _ _ _ _ _ Ts Hsg).
      replace (signalPeriod - 1 + k) with (k + (signalPeriod - 1)) by lia.
      apply (pointTimeAt_at _ _ _ Hm).
    + unfold histogramBar. cbn [HistogramData.time].
      rewrite (pointTimeAt_at _ _ _ Hsg), (map_zrange_at _ _ _ _ _ _ _ Ts Hsg).
      replace (signalPeriod - 1 + k) with (k + (signalPeriod - 1)) by lia.
      apply (pointTimeAt_at _ _ _ Hm).
    + unfold histogramBar. cbn [HistogramData.value].
      now rewrite (pointValueAt_at _ _ _ Hm), (pointValueAt_at _ _ _ Hsg).
  - apply aligned_of_times; [lia|].
    rewrite <- skipn_map, Tm, Tslow, skipn_map, skipn_zrange by lia.
    do 2 f_equal. lia.
Qed.

(** For 1 <= fast <= slow, 1 <= signal and at least slow + signal - 1 bars,
    calculateMACD returns three series of the same length,
    bars - slow - signal + 2, aligned with the bars from index
    slow + signal - 2 on; point for point the histogram value is the MACD value
    minus the signal value, at the same time, green when it is >= 0 and red
    otherwise. *)
Theorem macd_series_are_consistent (bars : list OHLCVBar.t)
  (fastPeriod slowPeriod signalPeriod : Z) :
  1 <= fastPeriod <= slowPeriod ->
  1 <= signalPeriod ->
  slowPeriod + signalPeriod - 1 <= len bars ->
  exists m,
    calculateMACD bars fastPeriod slowPeriod signalPeriod = Normal m /\
    macdConsistent m /\
    alignedFrom (slowPeriod + signalPeriod - 2) bars (MACD.macdLine m) /\
    len (MACD.macdLine m) = len bars - slowPeriod - signalPeriod + 2.
Proof. apply calculateMACD_series. Qed.

Lemma macd_series_are_consistent_witness :
  exists m,
    calculateMACD rising5 1 2 2 = Normal m /\
    macdConsistent m /\
    alignedFrom (2 + 2 - 2) rising5 (MACD.macdLine m) /\
    len (MACD.macdLine m) = len rising5 - 2 - 2 + 2.
Proof.
  apply (macd_series_are_consistent rising5 1 2 2); [lia | lia | vm_compute; discriminate].
Defined.

(** ** Revealing more bars never changes what was drawn *)

Lemma forEach_app {S : Type} (body : Z -> S -> Completion S) (l1 l2 : list Z) (s : S) :
  forEach (l1 ++ l2) body s = (s' <- forEach l1 body s ;; forEach l2 body s').
Proof.
  revert s. induction l1 as [|i l1 IH]; intros s; [reflexivity|].
  cbn [app forEach]. destruct (body i s); cbn [andThen]; auto.
Qed.

Lemma forEach_ext_in {S : Type} (body body' : Z -> S -> Completion S) (l : list Z)
  (s : S) :
  (forall i s, In i l -> body i s = body' i s) ->
  forEach l body s = forEach l body' s.
Proof.
  revert s. induction l as [|i l IH]; intros s H; [reflexivity|].
  cbn [forEach]. rewrite H by now left.
  destruct (body' i s); cbn [andThen]; [|reflexivity].
  apply IH. intros j t Hj. apply H. now right.
Qed.

Lemma zrange_split (lo mid hi : Z) :
  lo <= mid <= hi -> zrange lo hi = zrange lo mid ++ zrange mid hi.
Proof.
  intros H. replace (zrange mid hi) with (skipn (Z.to_nat (mid - lo)) (zrange lo hi)).
  2:{ rewrite skipn_zrange by lia. f_equal. lia. }
  replace (zrange lo mid) with (firstn (Z.to_nat (mid - lo)) (zrange lo hi)).
  { symmetry. apply firstn_skipn. }
  apply nth_error_ext. intros k.
  rewrite nth_error_firstn, !nth_error_zrange_all.
  destruct (Nat.ltb_spec k (Z.to_nat (mid - lo))); [|reflexivity].
  destruct (Nat.ltb_spec k (Z.to_nat (hi - lo))); [reflexivity|lia].
Qed.

Lemma len_app {A : Type} (l r : list A) : len (l ++ r) = len l + len r.
Proof. unfold len. rewrite length_app. lia. Qed.

Lemma at_index_app_l {A : Type} (l r : list A) (i : Z) :
  i < len l -> at_index (l ++ r) i = at_index l i.
Proof.
  intros H. unfold at_index. destruct (i <? 0) eqn:E; [reflexivity|].
  apply Z.ltb_ge in E. apply nth_error_app1. unfold len in H. lia.
Qed.

Lemma element_app_l {A : Type} (l r : list A) (i : Z) :
  i < len l -> element (l ++ r) i = element l i.
Proof. intros H. unfold element. now rewrite at_index_app_l. Qed.

Lemma numberAt_app_l (l r : list num) (i : Z) :
  i < len l -> numberAt (l ++ r) i = numberAt l i.
Proof. intros H. unfold numberAt. now rewrite at_index_app_l. Qed.

Lemma prefixOf_refl {A : Type} (l : list A) : prefixOf l l.
Proof. exists []. now rewrite app_nil_r. Qed.

Lemma prefixOf_nil {A : Type} (l : list A) : prefixOf [] l.
Proof. now exists l. Qed.

(** A loop that only appends to a list keeps what the list already held. *)
Lemma forEach_appends {S A : Type} (items : S -> list A)
  (body : Z -> S -> Completion S) (indices : list Z) (s0 : S) :
  (forall i s, In i indices ->
     exists s' x, body i s = Normal s' /\ items s' = items s ++ [x]) ->
  exists s' more, forEach indices body s0 = Normal s' /\ items s' = items s0 ++ more.
Proof.
  intros Hbody.
  destruct (forEach_invariant
              (fun _ s => exists more, items s = items s0 ++ more) body indices)
    with (s := s0) as (s' & E & more & Hm).
  - intros done i s Hi (more & Hm).
    destruct (Hbody i s Hi) as (s' & x & E & Hx).
    exists s'. split; [exact E|]. exists (more ++ [x]).
    now rewrite Hx, Hm, app_assoc.
  - exists []. now rewrite app_nil_r.
  - eauto.
Qed.

Lemma windowSum_app_l (bars later : list OHLCVBar.t) (i period : Z) :
  i < len bars -> windowSum (bars ++ later) i period = windowSum bars i period.
Proof.
  intros Hi. unfold windowSum. apply forEach_ext_in.
  intros j s Hj. apply In_zrange in Hj. rewrite element_app_l by lia. reflexivity.
Qed.

Lemma smaBody_runs (bars : list OHLCVBar.t) (period i : Z) (result : list LineData.t) :
  1 <= period -> period - 1 <= i < len bars ->
  exists s' x, smaBody bars period i result = Normal s' /\ s' = result ++ [x].
Proof.
  intros Hp Hi. unfold smaBody, windowSum. run_reads bars.
  destruct (element_in_range bars i) as (b & -> & _); [lia|].
  cbn [andThen]. eauto.
Qed.

Lemma calculateSMA_extends (bars later : list OHLCVBar.t) (period : Z)
  (out : list LineData.t) :
  calculateSMA bars period = Normal out ->
  exists out', calculateSMA (bars ++ later) period = Normal out' /\ prefixOf out out'.
Proof.
  intros E.
  assert (1 <= period) as Hp.
  { destruct (Z.le_gt_cases 1 period) as [H|H]; [exact H|].
    rewrite calculateSMA_throws in E by lia. discriminate. }
  destruct (Z.le_gt_cases (period - 1) (len bars)) as [Hlen|Hlen].
  - change (forEach (zrange (period - 1) (len bars)) (smaBody bars period) [] = Normal out)
      in E.
    change (calculateSMA (bars ++ later) period)
      with (forEach (zrange (period - 1) (len (bars ++ later)))
              (smaBody (bars ++ later) period) []).
    assert (0 <= len later) as Hl by (unfold len; lia).
    rewrite len_app, (zrange_split (period - 1) (len bars)), forEach_app by lia.
    rewrite (forEach_ext_in _ (smaBody bars period)), E.
    2:{ intros i s Hi. apply In_zrange in Hi. unfold smaBody.
        now rewrite windowSum_app_l, element_app_l by lia. }
    cbn [andThen].
    destruct (forEach_appends (fun r => r) (smaBody (bars ++ later) period)
                (zrange (len bars) (len bars + len later)) out)
      as (out' & more & E' & Hm).
    { intros i s Hi. apply In_zrange in Hi. apply smaBody_runs; [lia|].
      rewrite len_app. lia. }
    exists out'. split; [exact E'|]. now exists more.
  - destruct (calculateSMA_times (bars ++ later) period Hp) as (out' & E' & _).
    exists out'. split; [exact E'|].
    unfold calculateSMA in E. rewrite zrange_empty in E by lia.
    injection E as <-. apply prefixOf_nil.
Qed.

Lemma calculateEMA_extends (bars later : list OHLCVBar.t) (period : Z)
  (out : list LineData.t) :
  calculateEMA bars period = Normal out ->
  exists out', calculateEMA (bars ++ later) period = Normal out' /\ prefixOf out out'.
Proof.
  intros E.
  assert (1 <= period <= len bars) as Hp.
  { destruct (Z.le_gt_cases 1 period) as [H|H];
      [destruct (Z.le_gt_cases period (len bars)) as [H'|H']; [lia|]|].
    all: rewrite calculateEMA_throws in E by lia; discriminate. }
  assert (0 <= len later) as Hl by (unfold len; lia).
  change (calculateEMA bars period) with
    (sum <- forEach (zrange 0 period) (closeSumBody bars) 0%float ;;
     seedBar <- element bars (period - 1) ;;
     final <- forEach (zrange period (len bars))
                (emaBody bars (2 / (num_of_Z period + 1))%float)
                ((sum / num_of_Z period)%float,
                 [LineData.mk (OHLCVBar.time seedBar) (sum / num_of_Z period)%float]) ;;
     Normal (snd final)) in E.
  change (calculateEMA (bars ++ later) period) with
    (sum <- forEach (zrange 0 period) (closeSumBody (bars ++ later)) 0%float ;;
     seedBar <- element (bars ++ later) (period - 1) ;;
     final <- forEach (zrange period (len (bars ++ later)))
                (emaBody (bars ++ later) (2 / (num_of_Z period + 1))%float)
                ((sum / num_of_Z period)%float,
                 [LineData.mk (OHLCVBar.time seedBar) (sum / num_of_Z period)%float]) ;;
     Normal (snd final)).
  rewrite (forEach_ext_in _ (closeSumBody bars)).
  2:{ intros i s Hi. apply In_zrange in Hi. unfold closeSumBody.
      now rewrite element_app_l by lia. }
  destruct (forEach (zrange 0 period) (closeSumBody bars) 0%float) as [sum|];
    [|discriminate].
  cbn [andThen] in *. rewrite element_app_l by lia.
  destruct (element bars (period - 1)) as [seedBar|]; [|discriminate].
  cbn [andThen] in *.
  rewrite len_app, (zrange_split period (len bars)), forEach_app by lia.
  rewrite (forEach_ext_in _ (emaBody bars (2 / (num_of_Z period + 1))%float)).
  2:{ intros i s Hi. apply In_zrange in Hi. unfold emaBody.
      now rewrite element_app_l by lia. }
  destruct (forEach (zrange period (len bars)) _ _) as [final|]; [|discriminate].
  cbn [andThen] in *. injection E as <-.
  destruct (forEach_appends snd (emaBody (bars ++ later) (2 / (num_of_Z period + 1))%float)
              (zrange (len bars) (len bars + len later)) final)
    as (final' & more & E' & Hm).
  { intros i s Hi. apply In_zrange in Hi. unfold emaBody.
    destruct (element_in_range (bars ++ later) i) as (b & -> & _);
      [rewrite len_app; lia|].
    cbn [andThen]. do 2 eexists. split; reflexivity. }
  rewrite E'. cbn [andThen]. eexists. split; [reflexivity|]. now exists more.
Qed.

Lemma vwap_fold_appends (bars : list OHLCVBar.t) (st : Vwap.t) :
  prefixOf (Vwap.result st) (Vwap.result (fold_left vwapStep bars st)).
Proof.
  revert st. induction bars as [|b bars IH]; intros st; [apply prefixOf_refl|].
  cbn [fold_left]. destruct (IH (vwapStep st b)) as [more Hm].
  rewrite Hm. unfold vwapStep. cbn [Vwap.result].
  eexists. rewrite <- app_assoc. reflexivity.
Qed.

Lemma calculateVWAP_extends (bars later : list OHLCVBar.t) :
  prefixOf (calculateVWAP bars) (calculateVWAP (bars ++ later)).
Proof. unfold calculateVWAP. rewrite fold_left_app. apply vwap_fold_appends. Qed.

Lemma priceChanges_extends (bars later : list OHLCVBar.t) (gl : list num * list num) :
  1 <= len bars ->
  priceChanges bars = Normal gl ->
  exists gl', priceChanges (bars ++ later) = Normal gl' /\
              prefixOf (fst gl) (fst gl') /\ prefixOf (snd gl) (snd gl').
Proof.
  intros Hb E.
  assert (0 <= len later) as Hl by (unfold len; lia).
  change (forEach (zrange 1 (len bars)) (priceChangesBody bars) ([], []) = Normal gl) in E.
  change (priceChanges (bars ++ later)) with
    (forEach (zrange 1 (len (bars ++ later))) (priceChangesBody (bars ++ later)) ([], [])).
  rewrite len_app, (zrange_split 1 (len bars)), forEach_app by lia.
  rewrite (forEach_ext_in _ (priceChangesBody bars)), E.
  2:{ intros i s Hi. apply In_zrange in Hi. unfold priceChangesBody.
      now rewrite !element_app_l by lia. }
  cbn [andThen].
  apply (forEach_invariant
           (fun _ s => prefixOf (fst gl) (fst s) /\ prefixOf (snd gl) (snd s)));
    [|split; apply prefixOf_refl].
  intros done i s Hi ([g Hg] & [l Hl']). apply In_zrange in Hi.
  unfold priceChangesBody.
  destruct (element_in_range (bars ++ later) i) as (b & -> & _); [rewrite len_app; lia|].
  destruct (element_in_range (bars ++ later) (i - 1)) as (b' & -> & _);
    [rewrite len_app; lia|].
  cbn [andThen]. eexists. split; [reflexivity|]. cbn [fst snd].
  rewrite Hg, Hl', <- !app_assoc. split; eexists; reflexivity.
Qed.

Lemma fold_left_ext_in {A B : Type} (f g : A -> B -> A) (l : list B) (a : A) :
  (forall a x, In x l -> f a x = g a x) -> fold_left f l a = fold_left g l a.
Proof.
  revert a. induction l as [|x l IH]; intros a H; [reflexivity|].
  cbn [fold_left]. rewrite H by now left. apply IH. intros b y Hy. apply H. now right.
Qed.

Lemma seedAverages_app_l (gains losses g l : list num) (period : Z) :
  period <= len gains -> period <= len losses ->
  seedAverages (gains ++ g) (losses ++ l) period = seedAverages gains losses period.
Proof.
  intros Hg Hl. unfold seedAverages.
  rewrite (fold_left_ext_in _
             (fun acc i => ((fst acc + numberAt gains i)%float,
                            (snd acc + numberAt losses i)%float))); [reflexivity|].
  intros acc i Hi. apply In_zrange in Hi. now rewrite !numberAt_app_l by lia.
Qed.

Lemma rsiPoints_extends (bars later : list OHLCVBar.t) (period : Z)
  (pts : list RsiPoint.t) :
  rsiPoints bars period = Normal pts ->
  exists pts', rsiPoints (bars ++ later) period = Normal pts' /\ prefixOf pts pts'.
Proof.
  intros E.
  assert (0 <= period < len bars) as Hp.
  { destruct (Z.le_gt_cases 0 period) as [H|H];
      [destruct (Z.lt_ge_cases period (len bars)) as [H'|H']; [lia|]|].
    all: pose proof (calculateRSI_throws bars period) as T;
      unfold calculateRSI in T; rewrite E in T; cbn in T;
      assert (Normal (map RsiPoint.point pts) = TypeError) by (apply T; lia);
      discriminate. }
  assert (0 <= len later) as Hl by (unfold len; lia).
  destruct (priceChanges_length bars) as (gl & Egl & Lg & Ll).
  destruct (priceChanges_extends bars later gl) as (gl' & Egl' & [g Hg] & [l Hl']);
    [lia | exact Egl |].
  destruct (priceChanges_length (bars ++ later)) as (gl2 & Egl2 & Lg2 & _).
  rewrite Egl' in Egl2. injection Egl2 as <-. rewrite len_app in Lg2.
  change (rsiPoints bars period) with
    (gl <- priceChanges bars ;;
     first <- element bars period ;;
     final <- forEach (zrange period (len (fst gl)))
                (rsiBody bars (fst gl) (snd gl) period)
                (seedAverages (fst gl) (snd gl) period,
                 [RsiPoint.mk (fst (seedAverages (fst gl) (snd gl) period))
                    (snd (seedAverages (fst gl) (snd gl) period))
                    (LineData.mk (OHLCVBar.time first)
                       (rsiValue (fst (seedAverages (fst gl) (snd gl) period))
                          (snd (seedAverages (fst gl) (snd gl) period))))]) ;;
     Normal (snd final)) in E.
  change (rsiPoints (bars ++ later) period) with
    (gl <- priceChanges (bars ++ later) ;;
     first <- element (bars ++ later) period ;;
     final <- forEach (zrange period (len (fst gl)))
                (rsiBody (bars ++ later) (fst gl) (snd gl) period)
                (seedAverages (fst gl) (snd gl) period,
                 [RsiPoint.mk (fst (seedAverages (fst gl) (snd gl) period))
                    (snd (seedAverages (fst gl) (snd gl) period))
                    (LineData.mk (OHLCVBar.time first)
                       (rsiValue (fst (seedAverages (fst gl) (snd gl) period))
                          (snd (seedAverages (fst gl) (snd gl) period))))]) ;;
     Normal (snd final)).
  rewrite Egl in E. rewrite Egl'. cbn [andThen] in *.
  rewrite element_app_l by lia.
  destruct (element bars period) as [first|]; [|discriminate].
  cbn [andThen] in *.
  rewrite Hg, Hl', seedAverages_app_l by lia.
  rewrite <- Hg, <- Hl'.
  rewrite (zrange_split period (len (fst gl)) (len (fst gl'))), forEach_app by lia.
  rewrite (forEach_ext_in _ (rsiBody bars (fst gl) (snd gl) period)).
  2:{ intros i s Hi. apply In_zrange in Hi. unfold rsiBody.
      now rewrite Hg, Hl', !numberAt_app_l, element_app_l by lia. }
  destruct (forEach (zrange period (len (fst gl))) _ _) as [final|]; [|discriminate].
  cbn [andThen] in *. injection E as <-.
  destruct (forEach_appends snd (rsiBody (bars ++ later) (fst gl') (snd gl') period)
              (zrange (len (fst gl)) (len (fst gl'))) final)
    as (final' & more & E' & Hm).
  { intros i s Hi. apply In_zrange in Hi. unfold rsiBody.
    destruct (element_in_range (bars ++ later) (i + 1)) as (b & -> & _);
      [rewrite len_app; lia|].
    cbn [andThen]. do 2 eexists. split; reflexivity. }
  rewrite E'. cbn [andThen]. eexists. split; [reflexivity|]. now exists more.
Qed.

Lemma calculateRSI_extends (bars later : list OHLCVBar.t) (period : Z)
  (out : list LineData.t) :
  calculateRSI bars period = Normal out ->
  exists out', calculateRSI (bars ++ later) period = Normal out' /\ prefixOf out out'.
Proof.
  unfold calculateRSI. intros E.
  destruct (rsiPoints bars period) as [pts|] eqn:Ep; [|discriminate].
  cbn [andThen] in E. injection E as <-.
  destruct (rsiPoints_extends bars later period pts Ep) as (pts' & -> & more & ->).
  cbn [andThen]. eexists. split; [reflexivity|].
  exists (map RsiPoint.point more). apply map_app.
Qed.

Lemma calculateBollingerBands_extends (Math_pow : num -> num -> num)
  (Math_sqrt : num -> num) (bars later : list OHLCVBar.t) (period : Z) (k : num)
  (bands : BollingerBands.t) :
  calculateBollingerBands Math_pow Math_sqrt bars period k = Normal bands ->
  exists bands',
    calculateBollingerBands Math_pow Math_sqrt (bars ++ later) period k = Normal bands' /\
    bandsPrefixOf bands bands'.
Proof.
  intros E.
  assert (1 <= period) as Hp.
  { destruct (Z.le_gt_cases 1 period) as [H|H]; [exact H|].
    rewrite calculateBollingerBands_throws in E by lia. discriminate. }
  destruct (Z.le_gt_cases (period - 1) (len bars)) as [Hlen|Hlen].
  - change (forEach (zrange (period - 1) (len bars))
              (bollingerBody Math_pow Math_sqrt bars period k)
              (BollingerBands.mk [] [] []) = Normal bands) in E.
    change (calculateBollingerBands Math_pow Math_sqrt (bars ++ later) period k)
      with (forEach (zrange (period - 1) (len (bars ++ later)))
              (bollingerBody Math_pow Math_sqrt (bars ++ later) period k)
              (BollingerBands.mk [] [] [])).
    assert (0 <= len later) as Hl by (unfold len; lia).
    rewrite len_app, (zrange_split (period - 1) (len bars)), forEach_app by lia.
    rewrite (forEach_ext_in _ (bollingerBody Math_pow Math_sqrt bars period k)), E.
    2:{ intros i s Hi. apply In_zrange in Hi. unfold bollingerBody.
        rewrite windowSum_app_l, element_app_l by lia.
        destruct (windowSum bars i period) as [sum|]; [|reflexivity].
        cbn [andThen]. f_equal. apply forEach_ext_in.
        intros j acc Hj. apply In_zrange in Hj. now rewrite element_app_l by lia. }
    cbn [andThen].
    apply (forEach_invariant (fun _ s => bandsPrefixOf bands s));
      [|repeat split; apply prefixOf_refl].
    intros done i s Hi ([u Hu] & [m Hm] & [l Hl']). apply In_zrange in Hi.
    assert (len (bars ++ later) = len bars + len later) as Hall by apply len_app.
    set (all := bars ++ later) in *.
    unfold bollingerBody, windowSum. run_reads all. run_reads all.
    destruct (element_in_range all i) as (b & -> & _); [lia|].
    cbn [andThen]. eexists. split; [reflexivity|].
    unfold bandsPrefixOf.
    cbn [BollingerBands.upper BollingerBands.middle BollingerBands.lower].
    rewrite Hu, Hm, Hl', <- !app_assoc. repeat split; eexists; reflexivity.
  - destruct (calculateBollingerBands_times Math_pow Math_sqrt (bars ++ later) period k Hp)
      as (bands' & E' & _).
    exists bands'. split; [exact E'|].
    unfold calculateBollingerBands in E. rewrite zrange_empty in E by lia.
    injection E as <-. repeat split; apply prefixOf_nil.
Qed.

Lemma getVisibleBars_grows (bars : list OHLCVBar.t) (i j : Z) :
  0 <= i <= j -> prefixOf (getVisibleBars bars i) (getVisibleBars bars j).
Proof.
  intros H. unfold getVisibleBars, sliceTo.
  destruct (i + 1 <? 0) eqn:Ei; [apply Z.ltb_lt in Ei; lia|].
  destruct (j + 1 <? 0) eqn:Ej; [apply Z.ltb_lt in Ej; lia|].
  exists (skipn (Z.to_nat (Z.min (i + 1) (len bars)))
            (firstn (Z.to_nat (Z.min (j + 1) (len bars))) bars)).
  rewrite <- (firstn_skipn (Z.to_nat (Z.min (i + 1) (len bars)))
                (firstn (Z.to_nat (Z.min (j + 1) (len bars))) bars)) at 1.
  f_equal. rewrite firstn_firstn. f_equal. lia.
Qed.

(** While a stock is played the chart is given the bars up to the current
    index. When the index grows from i to j (0 <= i <= j) the bars shown at i
    are the first bars shown at j, and every series that calculateVWAP,
    calculateSMA, calculateEMA, calculateRSI or calculateBollingerBands
    returned at i is the beginning of the series returned at j: no point
    already drawn changes, and no indicator that returned starts to throw. *)
Theorem revealing_bars_never_repaints (Math_pow : num -> num -> num)
  (Math_sqrt : num -> num) (bars : list OHLCVBar.t) (i j period : Z) (k : num) :
  0 <= i <= j ->
  prefixOf (getVisibleBars bars i) (getVisibleBars bars j) /\
  prefixOf (calculateVWAP (getVisibleBars bars i))
           (calculateVWAP (getVisibleBars bars j)) /\
  keepsPoints (fun b => calculateSMA b period)
    (getVisibleBars bars i) (getVisibleBars bars j) /\
  keepsPoints (fun b => calculateEMA b period)
    (getVisibleBars bars i) (getVisibleBars bars j) /\
  keepsPoints (fun b => calculateRSI b period)
    (getVisibleBars bars i) (getVisibleBars bars j) /\
  (forall bands,
     calculateBollingerBands Math_pow Math_sqrt (getVisibleBars bars i) period k
       = Normal bands ->
     exists bands',
       calculateBollingerBands Math_pow Math_sqrt (getVisibleBars bars j) period k
         = Normal bands' /\
       bandsPrefixOf bands bands').
Proof.
  intros H. destruct (getVisibleBars_grows bars i j H) as [later ->].
  split; [now exists later|].
  split; [apply calculateVWAP_extends|].
  split; [intros out; apply calculateSMA_extends|].
  split; [intros out; apply calculateEMA_extends|].
  split; [intros out; apply calculateRSI_extends|].
  intros bands. apply calculateBollingerBands_extends.
Qed.

Lemma revealing_bars_never_repaints_witness :
  prefixOf (getVisibleBars rising5 2) (getVisibleBars rising5 4) /\
  prefixOf (calculateVWAP (getVisibleBars rising5 2))
           (calculateVWAP (getVisibleBars rising5 4)) /\
  keepsPoints (fun b => calculateSMA b 2)
    (getVisibleBars rising5 2) (getVisibleBars rising5 4) /\
  keepsPoints (fun b => calculateEMA b 2)
    (getVisibleBars rising5 2) (getVisibleBars rising5 4) /\
  keepsPoints (fun b => calculateRSI b 2)
    (getVisibleBars rising5 2) (getVisibleBars rising5 4) /\
  (forall bands,
     calculateBollingerBands samplePow sampleSqrt (getVisibleBars rising5 2) 2 2
       = Normal bands ->
     exists bands',
       calculateBollingerBands samplePow sampleSqrt (getVisibleBars rising5 4) 2 2
         = Normal bands' /\
       bandsPrefixOf bands bands').
Proof. apply (revealing_bars_never_repaints samplePow sampleSqrt rising5 2 4 2 2). lia. Defined.

(** For a current index i inside the data the chart is given exactly the
    bars 0..i of the stock: i + 1 bars, each the stock's bar at the same
    index, and nothing at index i + 1 or later. *)
Theorem chart_shows_no_future_bar (bars : list OHLCVBar.t) (i : Z) :
  0 <= i < len bars ->
  len (getVisibleBars bars i) = i + 1 /\
  (forall k, k <= i -> at_index (getVisibleBars bars i) k = at_index bars k) /\
  (forall k, i < k -> at_index (getVisibleBars bars i) k = None).
Proof.
  intros H. unfold getVisibleBars, sliceTo.
  destruct (i + 1 <? 0) eqn:Ei; [apply Z.ltb_lt in Ei; lia|].
  replace (Z.min (i + 1) (len bars)) with (i + 1) by lia.
  assert (len (firstn (Z.to_nat (i + 1)) bars) = i + 1) as L.
  { unfold len in *. rewrite length_firstn. lia. }
  split; [exact L|]. split.
  - intros k Hk. unfold at_index. destruct (k <? 0) eqn:Ek; [reflexivity|].
    apply Z.ltb_ge in Ek. rewrite nth_error_firstn.
    destruct (Nat.ltb_spec (Z.to_nat k) (Z.to_nat (i + 1))); [reflexivity|lia].
  - intros k Hk. unfold at_index. destruct (k <? 0) eqn:Ek; [reflexivity|].
    apply nth_error_None. unfold len in L. lia.
Qed.

Lemma chart_shows_no_future_bar_witness :
  len (getVisibleBars rising5 2) = 2 + 1 /\
  (forall k, k <= 2 -> at_index (getVisibleBars rising5 2) k = at_index rising5 k) /\
  (forall k, 2 < k -> at_index (getVisibleBars rising5 2) k = None).
Proof. apply (chart_shows_no_future_bar rising5 2). vm_compute. split; [discriminate|reflexivity]. Defined.

(** ** Where calculateMACD throws *)

Lemma calculateMACD_throws (bars : list OHLCVBar.t)
  (fastPeriod slowPeriod signalPeriod : Z) :
  ~ (1 <= fastPeriod <= slowPeriod /\ 1 <= signalPeriod /\
     slowPeriod + signalPeriod - 1 <= len bars) ->
  calculateMACD bars fastPeriod slowPeriod signalPeriod = TypeError.
Proof.
  intros Hout. unfold calculateMACD.
  destruct (Z.le_gt_cases 1 fastPeriod) as [Hf|Hf];
    [|rewrite calculateEMA_throws by lia; reflexivity].
  destruct (Z.le_gt_cases fastPeriod (len bars)) as [Hfl|Hfl];
    [|rewrite calculateEMA_throws by lia; reflexivity].
  destruct (emaSeries bars fastPeriod) as (fastEMA & -> & _ & Lf); [lia|].
  cbn [andThen].
  destruct (Z.le_gt_cases 1 slowPeriod) as [Hs|Hs];
    [|rewrite calculateEMA_throws by lia; reflexivity].
  destruct (Z.le_gt_cases slowPeriod (len bars)) as [Hsl|Hsl];
    [|rewrite calculateEMA_throws by lia; reflexivity].
  destruct (emaSeries bars slowPeriod) as (slowEMA & -> & _ & Ls); [lia|].
  cbn [andThen].
  destruct (Z.le_gt_cases fastPeriod slowPeriod) as [Hfs|Hfs].
  2:{ rewrite (forEach_throws _ _ 0); [reflexivity | apply In_zrange; lia |].
      intros s. rewrite element_out_of_range by lia. reflexivity. }
  destruct (macdLine_loop fastEMA slowEMA (slowPeriod - fastPeriod))
    as (macd & -> & Tm); [lia | lia |].
  cbn [andThen].
  assert (len macd = len bars - slowPeriod + 1) as Lm.
  { rewrite (len_of_times _ _ _ _ Tm). exact Ls. }
  destruct (Z.le_gt_cases 1 signalPeriod) as [Hg|Hg].
  - rewrite (forEach_throws _ _ (len macd)); [reflexivity | apply In_zrange; lia |].
    intros s. rewrite element_out_of_range by lia. reflexivity.
  - rewrite (zrange_empty 0 signalPeriod) by lia. cbn [forEach andThen].
    rewrite element_out_of_range by lia. reflexivity.
Qed.

(** calculateMACD returns its three series exactly when 1 <= fast <= slow,
    1 <= signal and there are at least slow + signal - 1 bars; in every other
    case (a period below 1, fast above slow, or too few bars) it throws a
    TypeError. *)
Theorem macd_returns_exactly_on_its_domain (bars : list OHLCVBar.t)
  (fastPeriod slowPeriod signalPeriod : Z) :
  returns (calculateMACD bars fastPeriod slowPeriod signalPeriod) = true <->
  (1 <= fastPeriod <= slowPeriod /\ 1 <= signalPeriod /\
   slowPeriod + signalPeriod - 1 <= len bars).
Proof.
  split.
  - intros H.
    destruct (Z.le_gt_cases 1 fastPeriod); [|rewrite calculateMACD_throws in H by lia; discriminate].
    destruct (Z.le_gt_cases fastPeriod slowPeriod); [|rewrite calculateMACD_throws in H by lia; discriminate].
    destruct (Z.le_gt_cases 1 signalPeriod); [|rewrite calculateMACD_throws in H by lia; discriminate].
    destruct (Z.le_gt_cases (slowPeriod + signalPeriod - 1) (len bars));
      [|rewrite calculateMACD_throws in H by lia; discriminate].
    lia.
  - intros (Hf & Hs & Hl). apply returns_Normal.
    destruct (calculateMACD_series bars fastPeriod slowPeriod signalPeriod Hf Hs Hl)
      as (m & E & _). eauto.
Qed.

(** ** The logs are in play order *)

Lemma ordered_nil {A : Type} (R : A -> A -> Prop) : ordered R [].
Proof. intros i j a b _ H. destruct i; discriminate. Qed.

Lemma ordered_snoc {A : Type} (R : A -> A -> Prop) (l : list A) (x : A) :
  ordered R l -> Forall (fun a => R a x) l -> ordered R (l ++ [x]).
Proof.
  intros Hl Hx i j a b Hij Hi Hj.
  assert (j < List.length (l ++ [x]))%nat as Lj by (apply nth_error_Some; congruence).
  rewrite length_app in Lj. cbn in Lj.
  rewrite nth_error_app1 in Hi by lia.
  destruct (Nat.eq_dec j (List.length l)) as [->|Hne].
  - rewrite nth_error_app2, Nat.sub_diag in Hj by lia. cbn in Hj. injection Hj as <-.
    rewrite Forall_forall in Hx. apply Hx. eapply nth_error_In. exact Hi.
  - rewrite nth_error_app1 in Hj by lia. exact (Hl i j a b Hij Hi Hj).
Qed.

Lemma ordered_map_eq {A B : Type} (R : A -> A -> Prop) (key : A -> B) (l l' : list A) :
  (forall a a' b b', key a = key a' -> key b = key b' -> R a b -> R a' b') ->
  map key l' = map key l -> ordered R l -> ordered R l'.
Proof.
  intros HR E Hl i j a' b' Hij Hi Hj.
  pose proof (f_equal (fun m => nth_error m i) E) as Ei.
  pose proof (f_equal (fun m => nth_error m j) E) as Ej.
  cbn in Ei, Ej. rewrite !nth_error_map in Ei, Ej. rewrite Hi in Ei. rewrite Hj in Ej.
  destruct (nth_error l i) as [a|] eqn:Hai; cbn in Ei; [|discriminate Ei].
  destruct (nth_error l j) as [b|] eqn:Hbj; cbn in Ej; [|discriminate Ej].
  injection Ei as Ei. injection Ej as Ej.
  apply (HR a a' b b'); auto. eapply Hl; eauto.
Qed.

Lemma Forall_mapi_from {A : Type} (P : A -> Prop) (f : A -> Z -> A) (l : list A)
  (j : Z) :
  (forall x i, P x -> P (f x i)) -> Forall P l -> Forall P (mapi_from f j l).
Proof.
  intros Hf H. revert j. induction H as [|x l Hx _ IH]; intros j; cbn [mapi_from];
    constructor; auto.
Qed.

Lemma chronological_closeLast (startIndex current : Z) (price : num)
  (hps : list HoldingPeriod.t) :
  let inRange hp :=
    startIndex <= HoldingPeriod.entryBarIndex hp <= current /\
    forall e, HoldingPeriod.exitBarIndex hp = Some e ->
              HoldingPeriod.entryBarIndex hp <= e <= current in
  Forall inRange hps -> Forall inRange (closeLast hps current price).
Proof.
  intros inRange H. unfold closeLast, mapi. apply Forall_mapi_from; [|exact H].
  intros hp idx (H1 & H2). destruct (_ && _); [|now split].
  split; [exact H1|]. cbn. intros e [= <-]. lia.
Qed.

Lemma ordered_closeLast (current : Z) (price : num) (hps : list HoldingPeriod.t) :
  ordered (fun a b => HoldingPeriod.entryBarIndex a <= HoldingPeriod.entryBarIndex b) hps ->
  ordered (fun a b => HoldingPeriod.entryBarIndex a <= HoldingPeriod.entryBarIndex b)
          (closeLast hps current price).
Proof.
  apply (ordered_map_eq _ HoldingPeriod.entryBarIndex).
  - intros a a' b b' -> ->. auto.
  - unfold closeLast, mapi. apply map_mapi_from.
    intros hp idx. destruct (_ && _); reflexivity.
Qed.

Lemma outcomeFor_cases (s : GameState.t) (o : option TurnOutcome.t) :
  outcomeFor s o -> o = None \/ exists cb nb, o = Some (outcomeOf s cb nb).
Proof.
  unfold outcomeFor. destruct (GameState.currentStock s) as [stock|]; [|now left].
  destruct (at_index _ _) as [nb|]; [|now left].
  intros (cb & _ & ->). right. eauto.
Qed.

Lemma chronological_turnScored (startIndex : Z) (action : ActionType)
  (countsTrade : bool) (dt now : Z) (o : option TurnOutcome.t) (s : GameState.t) :
  GameState.currentBarIndex s = startIndex + GameState.turnNumber s ->
  0 <= GameState.turnNumber s ->
  outcomeFor s o ->
  chronological startIndex s ->
  chronological startIndex (turnScored action countsTrade dt now o s).
Proof.
  intros Hi Hn Ho (T1 & T2 & O1 & O2 & P1 & P2).
  assert (Forall (fun t => startIndex <= Trade.barIndex t <= GameState.currentBarIndex s + 1)
                 (GameState.trades s)) as T1'.
  { eapply Forall_impl; [|exact T1]. cbn. intros t. lia. }
  assert (Forall (fun hp =>
            startIndex <= HoldingPeriod.entryBarIndex hp <= GameState.currentBarIndex s + 1 /\
            forall e, HoldingPeriod.exitBarIndex hp = Some e ->
                      HoldingPeriod.entryBarIndex hp <= e <= GameState.currentBarIndex s + 1)
                 (GameState.holdingPeriods s)) as P1'.
  { eapply Forall_impl; [|exact P1]. cbn. intros hp (H1 & H2). split; [lia|].
    intros e He. specialize (H2 e He). lia. }
  assert (Forall (fun o => TurnOutcome.barIndex o = startIndex + TurnOutcome.turnNumber o /\
                           0 <= TurnOutcome.turnNumber o < GameState.turnNumber s + 1)
                 (GameState.turnOutcomes s)) as O1'.
  { eapply Forall_impl; [|exact O1]. cbn. intros x. lia. }
  unfold chronological.
  destruct (outcomeFor_cases s o Ho) as [-> | (cb & nb & ->)];
    destruct countsTrade; cbn; repeat split; auto.
  all: try (apply Forall_app; split; [exact O1'|]; constructor; [cbn; lia|constructor]).
  all: apply ordered_snoc; [exact O2|];
    eapply Forall_impl; [|exact O1]; cbn; intros x; lia.
Qed.

Lemma chronological_traded (startIndex : Z) (s s1 : GameState.t) (t : Trade.t) :
  startIndex <= GameState.currentBarIndex s ->
  chronological startIndex s ->
  GameState.currentBarIndex s1 = GameState.currentBarIndex s ->
  GameState.turnNumber s1 = GameState.turnNumber s ->
  GameState.turnOutcomes s1 = GameState.turnOutcomes s ->
  GameState.trades s1 = GameState.trades s ++ [t] ->
  Trade.barIndex t = GameState.currentBarIndex s ->
  (GameState.holdingPeriods s1 = GameState.holdingPeriods s \/
   (exists price,
      GameState.holdingPeriods s1 =
      GameState.holdingPeriods s ++
        [HoldingPeriod.mk (GameState.currentBarIndex s) None price None]) \/
   (exists price,
      GameState.holdingPeriods s1 =
      closeLast (GameState.holdingPeriods s) (GameState.currentBarIndex s) price)) ->
  chronological startIndex s1.
Proof.
  intros Hs (T1 & T2 & O1 & O2 & P1 & P2) Ei En Eo Et Hb Hh.
  unfold chronological. rewrite Ei, En, Eo, Et.
  split; [|split; [|split; [|split]]]; auto.
  - apply Forall_app. split; [exact T1|]. constructor; [lia|constructor].
  - apply ordered_snoc; [exact T2|].
    eapply Forall_impl; [|exact T1]. cbn. intros x. lia.
  - destruct Hh as [-> | [[price ->] | [price ->]]].
    + now split.
    + split.
      * apply Forall_app. split; [exact P1|]. constructor; [|constructor].
        cbn. split; [lia|]. intros e [=].
      * apply ordered_snoc; [exact P2|].
        eapply Forall_impl; [|exact P1]. cbn. intros x. lia.
    + split; [now apply chronological_closeLast | now apply ordered_closeLast].
Qed.

Lemma chronological_exec (startIndex : Z) (before : SessionStats.t) (op : Op)
  (w : World) :
  isLoad op = false ->
  inSession startIndex before (store w) ->
  chronological startIndex (store w) ->
  chronological startIndex (store (worldAfter (exec op w))).
Proof.
  intros Hop (Hi & Hn & _) H.
  destruct op as [stock i | | | pct | pct]; [discriminate | | | |]; cbn [exec].
  - destruct (switchStock_cases w)
      as [[_ E] | [[_ E] | [(stock & p & cb & first & last & now & _ & _ & _ & _ & _ & _ & E)
                           | (stock & first & last & _ & _ & _ & _ & E)]]];
      rewrite E; try exact H.
    eapply (chronological_traded startIndex (store w)); try exact H;
      try reflexivity; [lia|].
    right. right. eexists. reflexivity.
  - destruct (skip_scored w) as [E | [[_ E] | (dt & now & o & Ho & _ & E)]]; rewrite E.
    + exact H.
    + exact H.
    + apply chronological_turnScored; auto.
  - destruct (buy_scored pct w)
      as [E | [E | (stock & cb & dt & t & now & o & _ & _ & _ & Ho & _ & E)]];
      rewrite E; try exact H.
    apply chronological_turnScored; auto.
    eapply (chronological_traded startIndex (store w)); try exact H;
      try reflexivity; [lia|].
    unfold buyTrade. cbn.
    destruct (match GameState.position (store w) with
              | Some p => (Position.shares p =? 0)%float
              | None => true
              end); [right; left; eexists; reflexivity | now left].
  - destruct (sell_scored pct w)
      as [E | [E | (stock & p & cb & dt & t & now & o & _ & _ & _ & _ & Ho & _ & E)]];
      rewrite E; try exact H.
    apply chronological_turnScored; auto.
    eapply (chronological_traded startIndex (store w)); try exact H;
      try reflexivity; [lia|].
    unfold sellTrade. cbn.
    destruct (0.0001 <? _)%float; [now left | right; right; eexists; reflexivity].
Qed.

Lemma chronological_loadStock (stock : StockData.t) (startIndex : Z) (w : World) :
  chronological startIndex (store (worldAfter (exec (OpLoad stock startIndex) w))).
Proof.
  unfold chronological. cbn. repeat split; try constructor; apply ordered_nil.
Qed.

Lemma chronological_run (stock : StockData.t) (startIndex : Z) (ops : list Op)
  (w : World) :
  Forall (fun op => isLoad op = false) ops ->
  chronological startIndex
    (store (run ops (worldAfter (exec (OpLoad stock startIndex) w)))).
Proof.
  induction ops as [|op ops IH] using rev_ind; intros Hops.
  - apply chronological_loadStock.
  - apply Forall_app in Hops as [Hops Hop]. inversion Hop as [|? ? Hl _]; subst.
    rewrite run_snoc.
    apply (chronological_exec startIndex (GameState.sessionStats (store w))); auto.
    now apply inSession_run.
Qed.

(** Since the last load, whatever Skip, Buy, Sell and SwitchInstrument calls
    were made, the three logs are in play order and inside the played range:
    every trade was made on a bar between the start index and the current
    index, and later trades are on the same or a later bar; every recorded
    outcome is for bar start + its turn number, with turn numbers strictly
    increasing and below the current one; every holding period was entered
    between the start and the current bar, later periods not before earlier
    ones, and a closed period exits on or after its entry bar and not after
    the current bar. *)
Theorem logs_are_chronological (stock : StockData.t) (startIndex : Z)
  (ops : list Op) (w : World) :
  Forall (fun op => isLoad op = false) ops ->
  let s := store (run ops (worldAfter (exec (OpLoad stock startIndex) w))) in
  Forall (fun t => startIndex <= Trade.barIndex t <= GameState.currentBarIndex s)
         (GameState.trades s) /\
  ordered (fun a b => Trade.barIndex a <= Trade.barIndex b) (GameState.trades s) /\
  Forall (fun o => TurnOutcome.barIndex o = startIndex + TurnOutcome.turnNumber o /\
                   0 <= TurnOutcome.turnNumber o < GameState.turnNumber s)
         (GameState.turnOutcomes s) /\
  ordered (fun a b => TurnOutcome.turnNumber a < TurnOutcome.turnNumber b)
          (GameState.turnOutcomes s) /\
  Forall (fun hp =>
            startIndex <= HoldingPeriod.entryBarIndex hp <= GameState.currentBarIndex s /\
            forall e, HoldingPeriod.exitBarIndex hp = Some e ->
                      HoldingPeriod.entryBarIndex hp <= e <= GameState.currentBarIndex s)
         (GameState.holdingPeriods s) /\
  ordered (fun a b => HoldingPeriod.entryBarIndex a <= HoldingPeriod.entryBarIndex b)
          (GameState.holdingPeriods s).
Proof. intros Hops. exact (chronological_run stock startIndex ops w Hops). Qed.

Lemma logs_are_chronological_witness :
  let s := store (run [OpBuy 50; OpSkip; OpSell 100; OpBuy 20; OpSwitch]
                      (worldAfter (exec (OpLoad sampleStock 0) freshWorld))) in
  Forall (fun t => 0 <= Trade.barIndex t <= GameState.currentBarIndex s)
         (GameState.trades s) /\
  ordered (fun a b => Trade.barIndex a <= Trade.barIndex b) (GameState.trades s) /\
  Forall (fun o => TurnOutcome.barIndex o = 0 + TurnOutcome.turnNumber o /\
                   0 <= TurnOutcome.turnNumber o < GameState.turnNumber s)
         (GameState.turnOutcomes s) /\
  ordered (fun a b => TurnOutcome.turnNumber a < TurnOutcome.turnNumber b)
          (GameState.turnOutcomes s) /\
  Forall (fun hp =>
            0 <= HoldingPeriod.entryBarIndex hp <= GameState.currentBarIndex s /\
            forall e, HoldingPeriod.exitBarIndex hp = Some e ->
                      HoldingPeriod.entryBarIndex hp <= e <= GameState.currentBarIndex s)
         (GameState.holdingPeriods s) /\
  ordered (fun a b => HoldingPeriod.entryBarIndex a <= HoldingPeriod.entryBarIndex b)
          (GameState.holdingPeriods s).
Proof.
  apply (logs_are_chronological sampleStock 0
           [OpBuy 50; OpSkip; OpSell 100; OpBuy 20; OpSwitch] freshWorld).
  repeat constructor.
Defined.

(** ** Trade markers *)

Lemma turnScored_keeps_trades (action : ActionType) (countsTrade : bool)
  (dt now : Z) (o : option TurnOutcome.t) (s : GameState.t) :
  GameState.currentStock (turnScored action countsTrade dt now o s) =
    GameState.currentStock s /\
  GameState.trades (turnScored action countsTrade dt now o s) = GameState.trades s.
Proof. destruct o, countsTrade; split; reflexivity. Qed.

Lemma tradedOn_turnScored (stock : StockData.t) (action : ActionType)
  (countsTrade : bool) (dt now : Z) (o : option TurnOutcome.t) (s : GameState.t) :
  tradedOn stock s -> tradedOn stock (turnScored action countsTrade dt now o s).
Proof.
  unfold tradedOn.
  destruct (turnScored_keeps_trades action countsTrade dt now o s) as [-> ->]. auto.
Qed.

Lemma tradedOn_traded (stock : StockData.t) (s s1 : GameState.t) (t : Trade.t)
  (cb : OHLCVBar.t) :
  tradedOn stock s ->
  GameState.currentStock s1 = GameState.currentStock s ->
  GameState.trades s1 = GameState.trades s ++ [t] ->
  Trade.barIndex t = GameState.currentBarIndex s ->
  at_index (StockData.bars stock) (GameState.currentBarIndex s) = Some cb ->
  tradedOn stock s1.
Proof.
  intros [Hs Ht] Es Et Hb Hcb. unfold tradedOn. rewrite Es, Et. split; [exact Hs|].
  apply Forall_app. split; [exact Ht|]. constructor; [|constructor].
  exists cb. now rewrite Hb.
Qed.

Lemma tradedOn_exec (stock : StockData.t) (op : Op) (w : World) :
  isLoad op = false ->
  tradedOn stock (store w) ->
  tradedOn stock (store (worldAfter (exec op w))).
Proof.
  intros Hop H. pose proof H as [Hs _].
  destruct op as [stock' i | | | pct | pct]; [discriminate | | | |]; cbn [exec].
  - destruct (switchStock_cases w)
      as [[_ E] | [[_ E] | [(stock' & p & cb & first & last & now & Hs' & _ & Hcb & _ & _ & _ & E)
                           | (stock' & first & last & _ & _ & _ & _ & E)]]];
      rewrite E; try exact H.
    rewrite Hs in Hs'. injection Hs' as <-.
    eapply (tradedOn_traded stock (store w)); try exact H; try exact Hcb; reflexivity.
  - destruct (skip_scored w) as [E | [[_ E] | (dt & now & o & _ & _ & E)]]; rewrite E.
    + exact H.
    + exact H.
    + apply tradedOn_turnScored. exact H.
  - destruct (buy_scored pct w)
      as [E | [E | (stock' & cb & dt & t & now & o & Hs' & Hcb & _ & _ & _ & E)]];
      rewrite E; try exact H.
    rewrite Hs in Hs'. injection Hs' as <-.
    apply tradedOn_turnScored.
    eapply (tradedOn_traded stock (store w)); try exact H; try exact Hcb; reflexivity.
  - destruct (sell_scored pct w)
      as [E | [E | (stock' & p & cb & dt & t & now & o & Hs' & _ & _ & Hcb & _ & _ & E)]];
      rewrite E; try exact H.
    rewrite Hs in Hs'. injection Hs' as <-.
    apply tradedOn_turnScored.
    eapply (tradedOn_traded stock (store w)); try exact H; try exact Hcb; reflexivity.
Qed.

Lemma tradedOn_run (stock : StockData.t) (startIndex : Z) (ops : list Op) (w : World) :
  Forall (fun op => isLoad op = false) ops ->
  tradedOn stock (store (run ops (worldAfter (exec (OpLoad stock startIndex) w)))).
Proof.
  induction ops as [|op ops IH] using rev_ind; intros Hops.
  - split; [reflexivity|constructor].
  - apply Forall_app in Hops as [Hops Hop]. inversion Hop as [|? ? Hl _]; subst.
    rewrite run_snoc. apply tradedOn_exec; auto.
Qed.

Lemma createTradeMarkers_all (trades : list Trade.t) (bars : list OHLCVBar.t)
  (currentBarIndex : Z) :
  Forall (fun t => Trade.barIndex t <= currentBarIndex) trades ->
  Forall (fun t => exists bar, at_index bars (Trade.barIndex t) = Some bar) trades ->
  Forall2 (fun t m => exists bar, at_index bars (Trade.barIndex t) = Some bar /\
                                  m = markerFor bar t)
          trades (createTradeMarkers trades bars currentBarIndex).
Proof.
  unfold createTradeMarkers.
  induction trades as [|t trades IH]; intros H1 H2; [constructor|].
  inversion H1 as [|? ? Ht H1']; subst. inversion H2 as [|? ? [bar Hb] H2']; subst.
  cbn [filter]. apply Z.leb_le in Ht. rewrite Ht. cbn [map]. rewrite Hb. cbn [nonNull].
  constructor; [eauto | now apply IH].
Qed.

Lemma markerFor_sides (bar : OHLCVBar.t) (trade : Trade.t) :
  markerFor bar trade =
  match Trade.type trade with
  | TradeBuy =>
      SeriesMarker.mk (OHLCVBar.time bar) "belowBar" "#22c55e" "arrowUp" "BUY"
  | TradeSell =>
      SeriesMarker.mk (OHLCVBar.time bar) "aboveBar" "#ef4444" "arrowDown" "SELL"
  end.
Proof. unfold markerFor. destruct (Trade.type trade); reflexivity. Qed.

(** Since the last load, whatever Skip, Buy, Sell and SwitchInstrument calls
    were made, the chart's trade markers, built from the trade log, the bars
    of the current instrument and the current bar index, are one marker per
    trade, in log order: neither the bar-index filter nor the missing-bar
    check of createTradeMarkers ever drops a trade.  The marker of a trade
    carries the time of the bar the trade was made on; for a buy it is placed
    below the bar, green (#22c55e), an up arrow with the text BUY, and for a
    sell above the bar, red (#ef4444), a down arrow with the text SELL. *)
Theorem every_trade_gets_its_marker (stock : StockData.t) (startIndex : Z)
  (ops : list Op) (w : World) :
  Forall (fun op => isLoad op = false) ops ->
  let s := store (run ops (worldAfter (exec (OpLoad stock startIndex) w))) in
  GameState.currentStock s = Some stock /\
  Forall2 (fun t m => exists bar,
             at_index (StockData.bars stock) (Trade.barIndex t) = Some bar /\
             m = match Trade.type t with
                 | TradeBuy =>
                     SeriesMarker.mk (OHLCVBar.time bar)
                       "belowBar" "#22c55e" "arrowUp" "BUY"
                 | TradeSell =>
                     SeriesMarker.mk (OHLCVBar.time bar)
                       "aboveBar" "#ef4444" "arrowDown" "SELL"
                 end)
          (GameState.trades s)
          (createTradeMarkers (GameState.trades s) (StockData.bars stock)
             (GameState.currentBarIndex s)).
Proof.
  intros Hops s.
  destruct (tradedOn_run stock startIndex ops w Hops) as [Hs Ht].
  destruct (chronological_run stock startIndex ops w Hops) as (T1 & _).
  split; [exact Hs|].
  eapply Forall2_impl; [|apply createTradeMarkers_all; [|exact Ht]].
  - intros t m (bar & Hb & ->). exists bar. split; [exact Hb|]. apply markerFor_sides.
  - eapply Forall_impl; [|exact T1]. intros t Hb. exact (proj2 Hb).
Qed.

Lemma every_trade_gets_its_marker_witness :
  let s := store (run [OpBuy 50; OpSkip; OpSell 100]
                      (worldAfter (exec (OpLoad sampleStock 0) freshWorld))) in
  GameState.currentStock s = Some sampleStock /\
  Forall2 (fun t m => exists bar,
             at_index (StockData.bars sampleStock) (Trade.barIndex t) = Some bar /\
             m = match Trade.type t with
                 | TradeBuy =>
                     SeriesMarker.mk (OHLCVBar.time bar)
                       "belowBar" "#22c55e" "arrowUp" "BUY"
                 | TradeSell =>
                     SeriesMarker.mk (OHLCVBar.time bar)
                       "aboveBar" "#ef4444" "arrowDown" "SELL"
                 end)
          (GameState.trades s)
          (createTradeMarkers (GameState.trades s) (StockData.bars sampleStock)
             (GameState.currentBarIndex s)).
Proof.
  apply (every_trade_gets_its_marker sampleStock 0 [OpBuy 50; OpSkip; OpSell 100]
           freshWorld).
  repeat constructor.
Defined.
